(* ===== verification/_CoqProject ===== *)
-Q . S2P
Prelude.v
CFloat.v
Globals.v
Color.v
Pwm.v
Rainbow.v
Breathing.v
Dissolve.v
Buttons.v
Boot.v
Dispatcher.v
System.v
Compose.v
PowerOff.v
ModeChange.v
