(* ===== verification/Prelude.v ===== *)
(** * A verification library for the mongujin RGB transition light

    The program ([src/src]) is ESP32 firmware driving five common-anode
    RGB LEDs through a PCA9685 PWM controller on I2C.  [app_main]
    ([main_app.c]) brings up the bus and the controller, creates a
    queue of 10 button events and starts two tasks: [button_task]
    ([buttons.c], priority 10) handles the events the GPIO interrupt
    [button_isr_handler] posts (mode, power toggle, brightness), and
    [led_animation_task] ([main_app.c], priority 5) runs a power-on test
    and then, while the LEDs are on, [apply_transition_by_mode]
    ([transitons.c]), i.e. one of three effects: the dissolve (mode 0
    and any other value), the rainbow (mode 1) or breathing (mode 2).
    The tasks share four globals ([brightness_level], [led_on],
    [transition_mode], [mode_changed]); every effect writes through
    [set_rgb_led] -> [set_pwm_duty] -> [pca9685_set_pwm].

    ** Files, in dependency order

    - [Prelude] (this file): C integer conversions ([uint8_t],
      [uint16_t] casts as [mod] in the scope [c_scope]), the hint
      databases [mongujin] and [mongujin_rw], the tactic [zlia] (lia after
      eliminating [/] and [mod]), enumeration by evaluation
      ([forall_between] and the tactic [by_range]), C arrays as lists
      ([list_set]), and the reflexive-transitive closure [star] with its
      invariant principle.
    - [CFloat]: IEEE binary32/binary64 arithmetic bit-exact, on the
      Standard Library's [SpecFloat] (round to nearest even); the C
      conversions int->float and float->int (truncation, [None] when the
      value is out of range or not finite: undefined behaviour);
      [fabsf] and [fmodf] exactly; [cosf] and [powf] as the class
      [Libm], since C does not fix their rounding; [libm_ref] is a
      reference instance (series in binary64, rounded once) used only to
      evaluate witnesses.
    - [Globals] (Module [Globals]): the constants of [transitons.c], the
      shared globals as the record [ctrl], the calls an effect makes
      ([cmd]: [set_rgb_led] or [vTaskDelay]), and [run], which iterates a
      step function with a per-step index (the random word drawn).
    - [Color]: [rgb_color_t], [base_colors], [get_random_color] (the
      word of [esp_random()] is an argument) and [interpolate_easeInOut]
      in binary32.
    - [Pwm]: the PCA9685 transport ([pca9685_write_byte],
      [pca9685_set_pwm] as I2C transactions), [set_pwm_duty] with the
      brightness shaper, [set_rgb_led], [turn_off_all_leds],
      [pca9685_init], the controller writes of [app_main], and
      [exec_cmds], which executes an effect's calls into a bus trace.
      An abstract drive value ([drive_value]: full-off or inverted duty)
      is the specification [set_pwm_duty] refines.
    - [Rainbow], [Breathing], [Dissolve]: each effect as a step machine
      over the control points of its loops ([rpc], [bpc], [dpc]), one
      step per frame or per guard, each step reading the globals once.
      The C locals and the [static]s ([hue], [color_idx]) are the
      machine state; [None] is undefined behaviour.
    - [Buttons]: the debounce timestamps and the queue ([input]),
      [button_isr_handler] (time in microseconds as
      [esp_timer_get_time()] gives it), [queue_send] (a full queue drops
      the event, as [xQueueSendFromISR]) and one iteration of
      [button_task] ([button_task_step], [handle_event]).
    - [Boot]: the bring-up: [i2c_master_init], [setup_button_interrupt],
      [buttons_init] and [app_main] as the sequence of driver and kernel
      calls they make; the results the code tests ([i2c_param_config],
      [i2c_driver_install], [xQueueCreate]) are inputs, so the abort of
      [ESP_ERROR_CHECK] and the early [return] are values ([outcome]).
    - [Dispatcher]: [led_animation_task] with [apply_transition_by_mode]
      as one machine ([anim_step]) whose control points embed the
      effects' machines, and which clears [mode_changed] when an effect
      returns.
    - [System]: the whole firmware as the step relation [sys_step]
      interleaving interrupts, button-task iterations and animation
      steps, from [sys_init] (the state after [app_main]); [anim_next]
      and [button_next] are the executable animation and button steps,
      which evaluate concrete traces.  The PWM controller is seen
      through the bus trace: [Pwm.last_pwm] decodes the last write to a
      channel and [Pwm.all_dark] says every channel's last write is
      full-off.
    - [Compose]: the effects composed with the animation task: a forward
      simulation ([lift_run]) of each effect's steps by the task's steps
      through an embedding, and for each effect the steps it still takes
      once its loop condition is false.
    - [PowerOff]: the power-off path (button task, running effect, main
      loop), on top of [Compose].
    - [ModeChange]: the mode-change path (button task, running effect,
      [apply_transition_by_mode], dispatch), on top of [Compose].

    ** What is proved

    - Whole firmware ([System]): in every reachable state, under every
      interleaving, the globals are in range, the queue is bounded, the
      effect states are well-formed, and the animation task can always
      take its next step, its calls executing on the controller.
    - Bring-up ([Boot]): each failure of the bus bring-up aborts before
      any controller write; a failed queue creation returns with no
      interrupt and no task.  On success the buttons are registered
      with exactly the indices of [button_event_t]
      ([app_main_registers_buttons], an evaluation), which is why
      [System] allows interrupt arguments 0-2 only.
    - Power-off ([PowerOff]): from every reachable state with the LEDs
      off, whatever effect runs, the animation task reaches its main
      loop within [2 * FADE_STEPS + 10] steps and leaves every channel
      dark; but a switch-off is not stable before that: a concrete
      reachable trace (boot, dissolve started, power button handled,
      all channels dark) is followed by an animation step that lights a
      channel again with [led_on] still false.
    - Mode change ([ModeChange]): from every reachable state with the
      LEDs on in which the running effect has been told of a mode
      change, the task enters the effect of the current mode within 1025
      steps (the dissolve first finishes its pass, up to 1022 steps),
      with [mode_changed] cleared and every call executing.
    - Dispatcher: a mode change during the rainbow or breathing reaches
      the new effect within 8 steps with [mode_changed] cleared; with
      the LEDs off the main loop writes full-off to the 15 channels.
    - Effects: the rainbow's float hue equals the integer reference
      [(3 n) mod 360] after [n] frames and returns after 120 frames,
      each frame within one count of the exact HSV colour; while the
      LEDs are on in mode 1 the rainbow never returns, [2 n] steps
      making exactly [5 n] calls and [50 n] ms of sleep; breathing
      terminates, after exactly [dist] steps (at most 206), unless the
      LEDs are on, the mode is 2 and no change is flagged, in which
      case it never returns; the dissolve never returns while the LEDs
      are on in mode 0, and after a power-off it still makes up to 505
      calls before it observes it;
      breathing and the dissolve react to a mode change with exact
      latencies, the dissolve only at the end of a pass (up to 1022
      steps); breathing ignores a power-off for up to 202 frames; the
      dissolve's steps are always defined; hold times lie in
      [1000, 2999].
    - Colour and PWM: the interpolation is exact at both ends and stays
      between its end points on every fade frame; [set_pwm_duty]
      refines the drive value; the register bytes decode back; each of
      the first four palette colours is drawn by one more 32-bit word
      than each of the other eight; with the controller's rule that
      [PRE_SCALE] is writable only in sleep ([Pwm.dev_write], a device
      model), [app_main]'s prescale-25 write is ignored and the
      prescale stays 6, whatever the controller's state at start.
    - Input path: two events the handler posts for one button come
      from interrupts more than 400 ms apart; presses in the first
      400 ms are ignored; a press dropped on a full queue still restarts
      the debounce window; the button task's three handlers change
      exactly their own value, reach every mode and level within two
      events and cycle with period three.

    ** Bounds and fuel

    The machines take one step per loop iteration or guard, so no fuel
    is needed: [run] is given the exact number of steps, computed from
    the control point ([Dissolve.remaining], [Breathing.dist],
    [2 * FADE_STEPS + 4 - st] for a power-off during the rise, 2 for the
    rainbow, at most 8 for the dispatcher), and the latency theorems
    state that these steps suffice.  The generic lemmas [run_measure]
    (a measure lowered by one at each step gives the exact step count
    to the exit) and [run_forever] (an invariant that excludes the exit
    gives a run of any length) of [Globals] carry the termination and
    divergence proofs; [run_app] concatenates runs, and the power-off
    bound [2 * FADE_STEPS + 10] is the longest effect latency
    ([2 * FADE_STEPS + 6] steps to [AClear], from breathing's rise or the
    dissolve's initial fade) plus the pass through [AClear] and the main
    loop; the mode-change bound 1025 is the longest rest of a dissolve
    pass ([Dissolve.remaining] at [DFix 0]: 5 fixtures of 204 steps
    and the [while] test, 1022) plus [AClear], the main loop's test and
    the dispatch.  Float facts
    over a whole range (every fade frame, every hue of the grid, every
    palette colour with [libm_ref]) are proved by evaluating a boolean
    check over the range ([forall_between]).  Properties of breathing
    that depend on [cosf]/[powf] assume only the values at the points
    they name, or that the [Libm] defines every frame
    ([libm_frames_ok]), which [libm_ref] is shown to satisfy.

    ** Not modelled

    The internals of the ESP-IDF drivers and of FreeRTOS (library code
    the sources only call: the queue is modelled by its documented
    behaviour, the scheduler by the interleaving of [System]); the log
    calls (no effect on the program state); the results the code
    ignores (the controller writes' I2C errors, [gpio_config],
    [gpio_install_isr_service], [gpio_isr_handler_add]); preemption
    inside a step (a step of a task reads the globals once, and the
    globals are word-sized); the tick conversion
    [ms / portTICK_PERIOD_MS] (delays are kept in ms); the unused
    declarations [led_colors], [target_colors], [led_params] and
    [DEBOUNCE_TIME_MS]. *)

From Stdlib Require Import ZArith List Lia Bool.
Import ListNotations.
Open Scope Z_scope.

(** ** C integer conversions

    The sources store results in [uint8_t] and [uint16_t] variables and
    parameters; an assignment of an [int] to such a variable keeps the
    value modulo [2^8] or [2^16] (ISO C 6.3.1.3).  [int] arithmetic is
    32-bit; overflowing it is undefined, so the models check [in_int]. *)

Definition to_u8 (z : Z) : Z := z mod 256.
Definition to_u16 (z : Z) : Z := z mod 65536.
Definition INT_MIN : Z := - 2 ^ 31.
Definition INT_MAX : Z := 2 ^ 31 - 1.
Definition in_int (z : Z) : bool := (INT_MIN <=? z) && (z <=? INT_MAX).
Definition in_u16 (z : Z) : bool := (0 <=? z) && (z <=? 65535).

(** [esp_random()] returns a [uint32_t]. *)
Definition is_u32 (z : Z) : Prop := 0 <= z < 2 ^ 32.

Declare Scope c_scope.
Delimit Scope c_scope with c.
Notation "'(uint16_t)' z" := (to_u16 z) (at level 10, z at level 9) : c_scope.
Notation "'(uint8_t)' z" := (to_u8 z) (at level 10, z at level 9) : c_scope.

Create HintDb mongujin.

(** [lia] after naming the quotients and remainders of [/] and [mod]. *)
Ltac zlia := Z.div_mod_to_equations; lia.
Create Rewrite HintDb mongujin_rw.

Lemma to_u16_small z : 0 <= z < 65536 -> to_u16 z = z.
Proof. intros; unfold to_u16; apply Z.mod_small; lia. Qed.

Lemma to_u8_small z : 0 <= z < 256 -> to_u8 z = z.
Proof. intros; unfold to_u8; apply Z.mod_small; lia. Qed.

Lemma to_u16_range z : 0 <= to_u16 z < 65536.
Proof. unfold to_u16; apply Z.mod_pos_bound; lia. Qed.

Lemma to_u8_range z : 0 <= to_u8 z < 256.
Proof. unfold to_u8; apply Z.mod_pos_bound; lia. Qed.

Lemma in_u16_iff z : in_u16 z = true <-> 0 <= z <= 65535.
Proof. unfold in_u16; rewrite andb_true_iff, !Z.leb_le; tauto. Qed.

Lemma in_int_iff z : in_int z = true <-> INT_MIN <= z <= INT_MAX.
Proof. unfold in_int; rewrite andb_true_iff, !Z.leb_le; tauto. Qed.

#[export] Hint Rewrite to_u16_small to_u8_small using lia : mongujin_rw.
#[export] Hint Resolve to_u16_range to_u8_range : mongujin.

(** ** Checking a property on a range of integers by computation

    Many claims are about every value a [uint16_t] channel difference or
    a loop counter can take.  [forall_Z f lo n] tests [f] on
    [lo, lo + n); [forall_Z_spec] turns a [true] obtained by
    [vm_compute] into the universal statement. *)

Fixpoint forall_Z (f : Z -> bool) (lo : Z) (n : nat) : bool :=
  match n with
  | O => true
  | S n' => f lo && forall_Z f (lo + 1) n'
  end.

Lemma forall_Z_spec f lo n :
  forall_Z f lo n = true -> forall z, lo <= z < lo + Z.of_nat n -> f z = true.
Proof.
  revert lo; induction n as [|n IH]; intros lo H z Hz; [lia|].
  simpl in H; apply andb_true_iff in H as [H0 H1].
  destruct (Z.eq_dec z lo) as [->|Hne]; [exact H0|].
  apply (IH (lo + 1)); [exact H1|lia].
Qed.

(** The same test with the range given by its bounds [lo, hi). *)
Definition forall_between (f : Z -> bool) (lo hi : Z) : bool :=
  forall_Z f lo (Z.to_nat (hi - lo)).

Lemma forall_between_spec f lo hi :
  forall_between f lo hi = true -> forall z, lo <= z < hi -> f z = true.
Proof.
  unfold forall_between; intros H z Hz.
  apply (forall_Z_spec f lo _ H); rewrite Z2Nat.id; lia.
Qed.

(** Case analysis on every [if] of the goal. *)
Ltac case_ifs :=
  repeat match goal with |- context [if ?b then _ else _] => destruct b end.

(** [by_range lo hi] closes [f z = true] from [lo <= z < hi] in the
    context, when [f] and the bounds are closed terms. *)
Ltac by_range lo hi :=
  match goal with
  | |- ?f ?z = true =>
      apply (forall_between_spec f lo hi); [vm_compute; reflexivity | lia]
  end.

(** ** C arrays as lists

    The animation code keeps fixed-size arrays ([current_color[NUM_LEDS]])
    and stores into them by index; [list_set] is that store.  The
    indices used are always in range (proved where used). *)

Fixpoint list_set {A} (l : list A) (i : nat) (x : A) : list A :=
  match l, i with
  | [], _ => []
  | _ :: t, O => x :: t
  | h :: t, S i' => h :: list_set t i' x
  end.

Lemma length_list_set {A} (l : list A) i x : length (list_set l i x) = length l.
Proof. revert i; induction l; destruct i; simpl; auto. Qed.

Lemma nth_list_set_eq {A} (l : list A) i x d :
  (i < length l)%nat -> nth i (list_set l i x) d = x.
Proof. revert i; induction l; destruct i; simpl; intros; auto; try lia; apply IHl; lia. Qed.

Lemma nth_list_set_ne {A} (l : list A) i j x d :
  i <> j -> nth j (list_set l i x) d = nth j l d.
Proof. revert i j; induction l; destruct i, j; simpl; intros; auto; congruence. Qed.

Lemma In_list_set {A} (P : A -> Prop) (l : list A) i x :
  Forall P l -> P x -> Forall P (list_set l i x).
Proof. revert i; induction l; destruct i; simpl; intros H Hx; inversion H; subst; auto. Qed.

#[export] Hint Resolve length_list_set In_list_set : mongujin.

(** ** Options *)

Lemma not_None_Some {A} (o : option A) : o <> None -> exists x, o = Some x.
Proof. destruct o; [eauto | congruence]. Qed.

(** ** Reflexive-transitive closure of a step relation *)

Section Star.
Context {S : Type} (R : S -> S -> Prop).

Inductive star : S -> S -> Prop :=
| star_refl s : star s s
| star_step s1 s2 s3 : R s1 s2 -> star s2 s3 -> star s1 s3.

Lemma star_trans s1 s2 s3 : star s1 s2 -> star s2 s3 -> star s1 s3.
Proof. induction 1; eauto using star. Qed.

Lemma star_one s1 s2 : R s1 s2 -> star s1 s2.
Proof. eauto using star. Qed.

(** An invariant preserved by every step holds on every state reached. *)
Lemma star_invariant (I : S -> Prop) :
  (forall s s', I s -> R s s' -> I s') ->
  forall s s', star s s' -> I s -> I s'.
Proof. intros Hpres s s' H; induction H; eauto. Qed.
End Star.

#[export] Hint Constructors star : mongujin.
