(* ===== verification/CFloat.v ===== *)
(** * C floating point as the firmware's compiler evaluates it

    [float] is IEEE 754 binary32 and [double] binary64, both modelled
    bit-exactly by the Standard Library's executable [SpecFloat]
    (round to nearest, ties to even).  The ESP32 toolchain evaluates
    float expressions in float ([FLT_EVAL_METHOD] 0), so every C
    operator below rounds once, to the type of its operands after the
    usual arithmetic conversions.

    Conversions from a floating value to an integer type truncate toward
    zero; when the integral part does not fit the type (or the value is
    infinite or NaN) the behaviour is undefined (ISO C 6.3.1.4), which the
    model returns as [None].

    [fabsf] and [fmodf] are exactly specified by C and defined here;
    [cosf] and [powf] are not (their accuracy is the C library's), so
    they are the two operations of the interface [Libm], and every
    theorem that depends on their results states what it assumes of
    them. *)

From Stdlib Require Import ZArith List Lia Bool SpecFloat.
From S2P Require Import Prelude.
Import ListNotations.
Open Scope Z_scope.

Definition float : Type := spec_float.
Definition double : Type := spec_float.

Definition prec32 : Z := 24.
Definition emax32 : Z := 128.
Definition prec64 : Z := 53.
Definition emax64 : Z := 1024.

(** *** Arithmetic and conversions *)

Definition f32_of_Z (z : Z) : float := binary_normalize prec32 emax32 z 0 false.
Definition f64_of_Z (z : Z) : double := binary_normalize prec64 emax64 z 0 false.

Definition f32_add : float -> float -> float := SFadd prec32 emax32.
Definition f32_sub : float -> float -> float := SFsub prec32 emax32.
Definition f32_mul : float -> float -> float := SFmul prec32 emax32.
Definition f32_div : float -> float -> float := SFdiv prec32 emax32.
Definition f64_mul : double -> double -> double := SFmul prec64 emax64.
Definition f64_div : double -> double -> double := SFdiv prec64 emax64.

(** [(float)d] for a [double] [d], and the exact widening [(double)f]. *)
Definition f32_of_f64 (x : double) : float :=
  match x with
  | S754_finite s m e => binary_round prec32 emax32 s m e
  | _ => x
  end.

Definition f64_of_f32 (x : float) : double :=
  match x with
  | S754_finite s m e => binary_round prec64 emax64 s m e
  | _ => x
  end.

(** Comparisons of two values of the same format. *)
Definition f_lt (x y : spec_float) : bool := SFltb x y.
Definition f_ge (x y : spec_float) : bool := SFleb y x.

(** A decimal literal [n/d] of the source ([0.1f], [2.2f]): the compiler
    rounds it correctly, which is what one correctly rounded division of
    the two exactly representable integers gives. *)
Definition f32_lit (n d : Z) : float := f32_div (f32_of_Z n) (f32_of_Z d).
Definition f64_lit (n d : Z) : double := f64_div (f64_of_Z n) (f64_of_Z d).

(** [M_PI] of [<math.h>], rounded to binary64 (0x400921FB54442D18). *)
Definition M_PI : double := S754_finite false 7074237752028440 (-51).

(** Truncation toward zero of a finite value. *)
Definition f_trunc (x : spec_float) : option Z :=
  match x with
  | S754_zero _ => Some 0
  | S754_finite s m e => Some (cond_Zopp s (Z.shiftl (Zpos m) e))
  | _ => None
  end.

(** [(int)x] and [(uint16_t)x] for a floating [x]. *)
Definition float_to_int (x : spec_float) : option Z :=
  match f_trunc x with
  | Some t => if in_int t then Some t else None
  | None => None
  end.

Definition float_to_u16 (x : spec_float) : option Z :=
  match f_trunc x with
  | Some t => if in_u16 t then Some t else None
  | None => None
  end.

Definition is_finite (x : spec_float) : bool :=
  match x with
  | S754_zero _ | S754_finite _ _ _ => true
  | _ => false
  end.

(** *** The exactly specified [<math.h>] functions *)

Definition fabsf : float -> float := SFabs.

(** [fmodf x y] is [x - n*y] with [n] the quotient [x/y] truncated
    toward zero; the result is exact and has the sign of [x]. *)
Definition fmodf (x y : float) : float :=
  match x, y with
  | S754_nan, _ | _, S754_nan => S754_nan
  | S754_infinity _, _ => S754_nan
  | _, S754_zero _ => S754_nan
  | S754_zero _, _ => x
  | S754_finite _ _ _, S754_infinity _ => x
  | S754_finite sx mx ex, S754_finite _ my ey =>
      let e := Z.min ex ey in
      let r := Z.shiftl (Zpos mx) (ex - e) mod Z.shiftl (Zpos my) (ey - e) in
      if r =? 0 then S754_zero sx
      else binary_normalize prec32 emax32 (cond_Zopp sx r) e false
  end.

(** *** The C library functions whose results are not exactly specified *)

Class Libm := {
  cosf : float -> float;
  powf : float -> float -> float
}.

(** A reference [Libm]: [cosf] and [powf] evaluated in double precision
    by truncated series ([cos] by its Taylor series, [pow x y] as
    [exp (y * ln x)] with [ln] from [frexp] and the [atanh] series, [exp]
    reduced by [ln 2]) and rounded to float.  Its accuracy is not
    claimed: it is a concrete C library at which theorems stated for any
    [Libm] can be run. *)

Definition f64_add : double -> double -> double := SFadd prec64 emax64.
Definition f64_sub : double -> double -> double := SFsub prec64 emax64.

Fixpoint fact (n : nat) : Z := match n with O => 1 | S k => Z.of_nat n * fact k end.

Fixpoint horner (cs : list double) (y : double) : double :=
  match cs with
  | [] => S754_zero false
  | c :: cs' => f64_add c (f64_mul y (horner cs' y))
  end.

Definition cos_coeffs : list double :=
  map (fun k => f64_lit (if Nat.even k then 1 else -1) (fact (2 * k))) (seq 0 15).
Definition ln_coeffs : list double := map (fun k => f64_lit 2 (Z.of_nat (2 * k + 1))) (seq 0 25).
Definition exp_coeffs : list double := map (fun k => f64_lit 1 (fact k)) (seq 0 22).
Definition ln2_64 : double := S754_finite false 6243314768165359 (-53).

Definition ln_ref (x : double) : double :=
  let '(m, e) := SFfrexp prec64 emax64 x in
  let t := f64_div (f64_sub m (f64_of_Z 1)) (f64_add m (f64_of_Z 1)) in
  f64_add (f64_mul t (horner ln_coeffs (f64_mul t t))) (f64_mul (f64_of_Z e) ln2_64).

Definition exp_ref (z : double) : double :=
  match f_trunc (f64_div z ln2_64) with
  | Some k => SFldexp prec64 emax64 (horner exp_coeffs (f64_sub z (f64_mul (f64_of_Z k) ln2_64))) k
  | None => S754_nan
  end.

Definition cosf_ref (x : float) : float :=
  let y := f64_of_f32 x in f32_of_f64 (horner cos_coeffs (f64_mul y y)).

Definition powf_ref (x y : float) : float :=
  match x with
  | S754_zero _ => S754_zero false
  | S754_finite false _ _ => f32_of_f64 (exp_ref (f64_mul (f64_of_f32 y) (ln_ref (f64_of_f32 x))))
  | _ => S754_nan
  end.

Definition libm_ref : Libm := {| cosf := cosf_ref; powf := powf_ref |}.

(** *** Named constants of the sources *)

Definition f32_zero : float := S754_zero false.
Definition f32_one : float := f32_of_Z 1.
Definition f32_half : float := f32_lit 1 2.
Definition f64_half : double := f64_lit 1 2.

Example f32_lit_0_1 : f32_lit 1 10 = S754_finite false 13421773 (-27).
Proof. vm_compute; reflexivity. Qed.

Example f32_lit_2_2 : f32_lit 22 10 = S754_finite false 9227469 (-22).
Proof. vm_compute; reflexivity. Qed.

(** Structural equality of two float encodings. *)
Definition sf_eqb (x y : spec_float) : bool :=
  match x, y with
  | S754_zero s1, S754_zero s2 | S754_infinity s1, S754_infinity s2 => Bool.eqb s1 s2
  | S754_nan, S754_nan => true
  | S754_finite s1 m1 e1, S754_finite s2 m2 e2 =>
      Bool.eqb s1 s2 && Pos.eqb m1 m2 && Z.eqb e1 e2
  | _, _ => false
  end.

Lemma sf_eqb_eq x y : sf_eqb x y = true <-> x = y.
Proof.
  split.
  - destruct x, y; simpl; try discriminate; intros H;
      repeat match goal with
             | H : _ && _ = true |- _ => apply andb_true_iff in H as [? ?]
             | H : Bool.eqb _ _ = true |- _ => apply Bool.eqb_prop in H
             | H : Pos.eqb _ _ = true |- _ => apply Pos.eqb_eq in H
             | H : Z.eqb _ _ = true |- _ => apply Z.eqb_eq in H
             end; subst; reflexivity.
  - intros ->; destruct y; simpl; rewrite ?Bool.eqb_reflx, ?Pos.eqb_refl, ?Z.eqb_refl; reflexivity.
Qed.

(** ** Facts on small integers, checked over their whole range *)

Definition small_int_ok (z : Z) : bool :=
  match f32_of_Z z with
  | S754_zero _ => z =? 0
  | S754_finite _ _ _ =>
      match f_trunc (f32_of_Z z), f_trunc (f32_mul (f32_of_Z z) f32_one) with
      | Some t, Some u => (t =? z) && (u =? z)
      | _, _ => false
      end
  | _ => false
  end.

Lemma small_int_ok_range z : -65535 <= z <= 65535 -> small_int_ok z = true.
Proof.
  intros Hz. by_range (-65535) 65536.
Qed.

(** Every [int] in [-65535, 65535] converts to a finite float that
    truncates back to itself, and multiplying it by [1.0f] is exact. *)
Lemma f32_of_Z_finite z : -65535 <= z <= 65535 -> is_finite (f32_of_Z z) = true.
Proof.
  intros Hz; pose proof (small_int_ok_range z Hz) as H; unfold small_int_ok in H.
  destruct (f32_of_Z z); simpl in *; congruence.
Qed.

Lemma f32_of_Z_trunc z : -65535 <= z <= 65535 -> f_trunc (f32_of_Z z) = Some z.
Proof.
  intros Hz; pose proof (small_int_ok_range z Hz) as H; unfold small_int_ok in H.
  destruct (f32_of_Z z) eqn:E; try discriminate.
  - apply Z.eqb_eq in H; subst; reflexivity.
  - rewrite <- E in H. rewrite <- E.
    destruct (f_trunc (f32_of_Z z)), (f_trunc (f32_mul (f32_of_Z z) f32_one)); try discriminate.
    apply andb_true_iff in H as [H _]; apply Z.eqb_eq in H; subst; reflexivity.
Qed.

Lemma f32_mul_one_trunc z :
  -65535 <= z <= 65535 -> f_trunc (f32_mul (f32_of_Z z) f32_one) = Some z.
Proof.
  intros Hz; pose proof (small_int_ok_range z Hz) as H; unfold small_int_ok in H.
  destruct (f32_of_Z z) eqn:E; try discriminate.
  - apply Z.eqb_eq in H; subst; reflexivity.
  - rewrite <- E in H. rewrite <- E.
    destruct (f_trunc (f32_of_Z z)), (f_trunc (f32_mul (f32_of_Z z) f32_one)); try discriminate.
    apply andb_true_iff in H as [_ H]; apply Z.eqb_eq in H; subst; reflexivity.
Qed.

(** A finite value times a zero is a zero. *)
Lemma f32_mul_zero_r x s :
  is_finite x = true -> exists s', f32_mul x (S754_zero s) = S754_zero s'.
Proof. destruct x; simpl; try discriminate; eauto. Qed.

Lemma f32_mul_zero_l x s :
  is_finite x = true -> exists s', f32_mul (S754_zero s) x = S754_zero s'.
Proof. destruct x; simpl; try discriminate; eauto. Qed.

Lemma f32_of_Z_0 : f32_of_Z 0 = S754_zero false.
Proof. reflexivity. Qed.

Lemma float_to_int_zero s : float_to_int (S754_zero s) = Some 0.
Proof. reflexivity. Qed.

#[export] Hint Resolve f32_of_Z_finite : mongujin.
