(* ===== verification/Globals.v ===== *)
(** * Shared state and the calls the animation code makes

    The process-wide variables of [src/src/main_app.c] (lines 34-37) and
    [src/src/buttons.c] (line 10) that the button task writes and the
    animation task reads, the tuning constants of
    [src/src/transitons.c] (lines 13-18), and the two calls through which
    an effect acts on the world: [set_rgb_led] and [vTaskDelay]. *)

From Stdlib Require Import ZArith List Lia Bool.
From S2P Require Import Prelude.
Import ListNotations.
Open Scope Z_scope.

Module Globals.

Definition NUM_LEDS : Z := 5.
Definition FADE_STEPS : Z := 100.
Definition FADE_DELAY_MS : Z := 40.
Definition HOLD_TIME_MIN_MS : Z := 1000.
Definition HOLD_TIME_MAX_MS : Z := 3000.
Definition PWM_RESOLUTION : Z := 4095.

(** The shared variables: [brightness_level] (0 bright, 1 medium,
    2 dark), [led_on], [transition_mode] and the [volatile]
    [mode_changed] flag. *)
Record ctrl := mk_ctrl {
  brightness_level : Z;
  led_on : bool;
  transition_mode : Z;
  mode_changed : bool
}.

Definition ctrl_init : ctrl := mk_ctrl 1 true 0 false.

Definition set_led_on (c : ctrl) (v : bool) : ctrl :=
  mk_ctrl (brightness_level c) v (transition_mode c) (mode_changed c).
Definition set_mode (c : ctrl) (m : Z) : ctrl :=
  mk_ctrl (brightness_level c) (led_on c) m (mode_changed c).
Definition set_mode_changed (c : ctrl) (v : bool) : ctrl :=
  mk_ctrl (brightness_level c) (led_on c) (transition_mode c) v.
Definition set_brightness (c : ctrl) (l : Z) : ctrl :=
  mk_ctrl l (led_on c) (transition_mode c) (mode_changed c).

(** A call of the animation code with an effect outside the task:
    [set_rgb_led(led_index, r, g, b)] with its arguments already
    converted to the parameter types ([uint8_t], [uint16_t]), or
    [vTaskDelay(ms / portTICK_PERIOD_MS)], recorded by its
    millisecond argument. *)
Inductive cmd :=
| SetRgb (led_index r g b : Z)
| Delay (ms : Z).

Definition delay_ms (c : cmd) : Z :=
  match c with Delay ms => ms | SetRgb _ _ _ _ => 0 end.

(** Milliseconds of sleep in a sequence of calls. *)
Definition total_delay (l : list cmd) : Z := fold_right (fun c acc => delay_ms c + acc) 0 l.

Definition is_frame_write (c : cmd) : bool :=
  match c with SetRgb _ _ _ _ => true | Delay _ => false end.

Lemma total_delay_app l1 l2 : total_delay (l1 ++ l2) = total_delay l1 + total_delay l2.
Proof. induction l1; simpl; lia. Qed.

(** The step functions of the tasks are partial: [None] marks a C
    operation whose behaviour is undefined. *)
Definition obind {A B} (o : option A) (f : A -> option B) : option B :=
  match o with Some a => f a | None => None end.

(** [n] steps of a task whose shared inputs stay fixed: [step k] is the
    [k]-th step (its argument chooses, for instance, the random word
    drawn in that step); the outputs are concatenated. *)
Fixpoint run {S} (step : nat -> S -> option (S * list cmd)) (k n : nat) (s : S)
    : option (S * list cmd) :=
  match n with
  | O => Some (s, [])
  | Datatypes.S n' =>
      obind (step k s) (fun x =>
      obind (run step (Datatypes.S k) n' (fst x)) (fun y =>
      Some (fst y, snd x ++ snd y)))
  end.

Lemma run_succ {S} (step : nat -> S -> option (S * list cmd)) k n s s1 o1 :
  step k s = Some (s1, o1) ->
  run step k (Datatypes.S n) s =
    obind (run step (Datatypes.S k) n s1) (fun y => Some (fst y, o1 ++ snd y)).
Proof. intros H; simpl; rewrite H; reflexivity. Qed.

Lemma run_plus {S} (step : nat -> S -> option (S * list cmd)) k n m s s1 o1 :
  run step k n s = Some (s1, o1) ->
  run step k (n + m) s =
    obind (run step (k + n) m s1) (fun y => Some (fst y, o1 ++ snd y)).
Proof.
  revert k s s1 o1; induction n as [|n IH]; intros k s s1 o1 H.
  - simpl in H; injection H as H1 H2; subst s1 o1; rewrite Nat.add_0_r; simpl.
    destruct (run step k m s) as [[? ?]|]; reflexivity.
  - simpl in H |- *.
    destruct (step k s) as [[s0 o0]|] eqn:E; [|discriminate]; simpl in H |- *.
    destruct (run step (Datatypes.S k) n s0) as [[s2 o2]|] eqn:E2; [|discriminate].
    simpl in H; injection H as H1 H2; subst s2 o1.
    rewrite (IH (Datatypes.S k) s0 s1 o2 E2), Nat.add_succ_r; simpl.
    destruct (run step (Datatypes.S (k + n)) m s1) as [[? ?]|]; simpl; rewrite ?app_assoc; reflexivity.
Qed.

Lemma run_app {S} (step : nat -> S -> option (S * list cmd)) k n m s s1 o1 s2 o2 :
  run step k n s = Some (s1, o1) -> run step (k + n) m s1 = Some (s2, o2) ->
  run step k (n + m) s = Some (s2, o1 ++ o2).
Proof. intros H1 H2; rewrite (run_plus step k n m s s1 o1 H1), H2; reflexivity. Qed.

(** ** Termination and divergence of a step function

    The effects are loops whose exit depends on the shared state.  A
    measure [mu] that every step away from the exit lowers by one gives
    the exact number of steps to the exit; an invariant [P] that every
    step keeps, and that excludes the exit, gives a run that never
    leaves the loop. *)
Section Measure.
Context {S : Type} (step : nat -> S -> option (S * list cmd)).
Variables (P : S -> Prop) (done : S -> bool) (mu : S -> nat).

Lemma run_measure :
  (forall s, P s -> mu s = O <-> done s = true) ->
  (forall k s, P s -> done s = false ->
     exists s' o, step k s = Some (s', o) /\ P s' /\ Datatypes.S (mu s') = mu s) ->
  forall s k, P s -> exists s' o, run step k (mu s) s = Some (s', o) /\ P s' /\ done s' = true.
Proof.
  intros Hz Hs s k Hp; remember (mu s) as n eqn:En; revert s k Hp En.
  induction n as [|n IH]; intros s k Hp En.
  - exists s, []; split; [reflexivity|split; [exact Hp|apply Hz; auto]].
  - destruct (done s) eqn:Ed; [apply Hz in Ed; [congruence|exact Hp]|].
    destruct (Hs k s Hp Ed) as (s1 & o1 & E1 & Hp1 & Hm1).
    destruct (IH s1 (Datatypes.S k) Hp1 ltac:(congruence)) as (s2 & o2 & E2 & Hp2 & Hd2).
    exists s2, (o1 ++ o2); split; [simpl; rewrite E1; simpl; rewrite E2; reflexivity|auto].
Qed.

Lemma run_forever :
  (forall k s, P s -> exists s' o, step k s = Some (s', o) /\ P s') ->
  forall n s k, P s -> exists s' o, run step k n s = Some (s', o) /\ P s'.
Proof.
  intros Hs n; induction n as [|n IH]; intros s k Hp.
  - exists s, []; auto.
  - destruct (Hs k s Hp) as (s1 & o1 & E1 & Hp1).
    destruct (IH s1 (Datatypes.S k) Hp1) as (s2 & o2 & E2 & Hp2).
    exists s2, (o1 ++ o2); split; [simpl; rewrite E1; simpl; rewrite E2; reflexivity|exact Hp2].
Qed.
End Measure.

(** A run accounted by three measures of the rest of the loop: the
    steps [mu] (exact), the [set_rgb_led] calls [fr] (exact) and a
    floor [dl] of the sleep to come. *)
Section Accounting.
Context {S : Type} (step : nat -> S -> option (S * list cmd)).
Variables (P : S -> Prop) (done : S -> bool) (mu fr dl : S -> Z).
Hypothesis Hdone : forall s, P s -> done s = true -> mu s = 0 /\ fr s = 0 /\ dl s <= 0.
Hypothesis Hpos : forall s, P s -> done s = false -> 1 <= mu s.
Hypothesis Hstep : forall k s, P s -> done s = false ->
  exists s' o, step k s = Some (s', o) /\ P s' /\ mu s' + 1 = mu s /\
    Z.of_nat (length (filter is_frame_write o)) + fr s' = fr s /\
    total_delay o + dl s' >= dl s.

Lemma run_accounted n :
  forall k s, P s -> Z.of_nat n = mu s ->
  exists s' o, run step k n s = Some (s', o) /\ P s' /\ done s' = true /\
    Z.of_nat (length (filter is_frame_write o)) = fr s /\ total_delay o >= dl s.
Proof.
  induction n as [|n IH]; intros k s Hp Hn.
  - destruct (done s) eqn:Ed; [|pose proof (Hpos s Hp Ed); lia].
    destruct (Hdone s Hp Ed) as (_ & Hf & Hd).
    exists s, []; simpl; repeat split; auto; lia.
  - destruct (done s) eqn:Ed; [destruct (Hdone s Hp Ed); lia|].
    destruct (Hstep k s Hp Ed) as (s1 & o1 & Hs & Hp1 & R & F & D).
    destruct (IH (Datatypes.S k) s1 Hp1 ltac:(lia)) as (s2 & o2 & Hr & Hp2 & Hd2 & F2 & D2).
    exists s2, (o1 ++ o2); split; [simpl; rewrite Hs; simpl; rewrite Hr; reflexivity|].
    repeat split; auto; [rewrite filter_app, length_app; lia | rewrite total_delay_app; lia].
Qed.
End Accounting.

End Globals.

Notation "x <- o ;; k" := (Globals.obind o (fun x => k))
  (at level 61, o at next level, right associativity) : c_scope.
