(* ===== verification/Color.v ===== *)
(** * The colour model of [src/src/transitons.c]

    [rgb_color_t] (transitions.h lines 8-12), the twelve-entry palette
    [base_colors] (lines 27-31), [get_random_color] (lines 33-35) with
    the random word of [esp_random()] as an argument, and
    [interpolate_easeInOut] (lines 37-45) with its float arithmetic
    evaluated bit-exactly.  The theorems: interpolating a colour to
    itself, and the end points of a fade, are exact; on the progress
    values the fades use, every channel stays between its end points and
    no conversion is undefined; a random draw is a palette entry, and the
    draw is not uniform. *)

From Stdlib Require Import ZArith List Lia Bool SpecFloat.
From S2P Require Import Prelude CFloat Globals.
Import ListNotations.
Open Scope Z_scope.
Open Scope c_scope.

Module Color.
Import Globals.

(** [rgb_color_t]: three [uint16_t] channels. *)
Record rgb_color_t := mk_rgb { r : Z; g : Z; b : Z }.

Definition black : rgb_color_t := mk_rgb 0 0 0.
Definition white : rgb_color_t := mk_rgb 4095 4095 4095.

Definition base_colors : list rgb_color_t :=
  [ mk_rgb 4095 0 0; mk_rgb 4095 1650 0; mk_rgb 4095 4095 0; mk_rgb 0 4095 0;
    mk_rgb 0 0 4095; mk_rgb 75 0 130; mk_rgb 148 0 211; mk_rgb 4095 2048 0;
    mk_rgb 4095 0 2048; mk_rgb 2048 4095 0; mk_rgb 0 4095 2048; mk_rgb 0 2048 4095 ].

(** [base_colors[i]] for an index the code guarantees in range. *)
Definition palette_at (i : Z) : rgb_color_t := nth (Z.to_nat i) base_colors black.

(** [base_colors[i]] for an [int] index: outside the array the read is
    undefined. *)
Definition palette_lookup (i : Z) : option rgb_color_t :=
  if (0 <=? i) && (i <? 12) then Some (palette_at i) else None.

(** Equality of colours, channel by channel. *)
Definition rgb_eqb (x y : rgb_color_t) : bool := (r x =? r y) && (g x =? g y) && (b x =? b y).

(** [base_colors[esp_random() % 12]]: the [uint32_t] remainder. *)
Definition get_random_color (rnd : Z) : rgb_color_t := palette_at (rnd mod 12).

(** The easing curve: [progress < 0.5] compares the float with the
    [double] constant [0.5]; the two branches are float expressions
    whose integer constants are converted to float. *)
Definition ease_p (progress : float) : float :=
  if f_lt (f64_of_f32 progress) f64_half
  then f32_mul (f32_mul (f32_of_Z 2) progress) progress
  else f32_add (f32_of_Z (-1))
               (f32_mul (f32_sub (f32_of_Z 4) (f32_mul (f32_of_Z 2) progress)) progress).

(** One channel: [start + (int)((end - start) * p)], an [int] sum
    stored into a [uint16_t] field. *)
Definition ease_channel (s e : Z) (p : float) : option Z :=
  t <- float_to_int (f32_mul (f32_of_Z (e - s)) p) ;;
  if in_int (s + t) then Some ((uint16_t) (s + t)) else None.

Definition interpolate_easeInOut (start end_ : rgb_color_t) (progress : float)
    : option rgb_color_t :=
  let p := ease_p progress in
  cr <- ease_channel (r start) (r end_) p ;;
  cg <- ease_channel (g start) (g end_) p ;;
  cb <- ease_channel (b start) (b end_) p ;;
  Some (mk_rgb cr cg cb).

(** [(float)step / FADE_STEPS], the progress of frame [step] of a fade
    (transitons.c lines 131, 147, 153). *)
Definition fade_progress (step : Z) : float :=
  f32_div (f32_of_Z step) (f32_of_Z FADE_STEPS).

(** A colour whose channels are in a range. *)
Definition color_in (lo hi : Z) (c : rgb_color_t) : Prop :=
  lo <= r c <= hi /\ lo <= g c <= hi /\ lo <= b c <= hi.

Definition valid_color := color_in 0 65535.
Definition pwm_color := color_in 0 PWM_RESOLUTION.

Definition between (x y z : Z) : bool := (Z.min x y <=? z) && (z <=? Z.max x y).

Definition color_between (x y z : rgb_color_t) : Prop :=
  between (r x) (r y) (r z) = true /\ between (g x) (g y) (g z) = true /\
  between (b x) (b y) (b z) = true.

(** ** Helper lemmas *)

Lemma palette_pwm : Forall pwm_color base_colors.
Proof. repeat constructor; unfold pwm_color, color_in, PWM_RESOLUTION; simpl; lia. Qed.

Lemma In_palette_at col : In col base_colors -> exists k, 0 <= k < 12 /\ col = palette_at k.
Proof.
  intros H; apply In_nth with (d := black) in H as (n & Hn & <-).
  exists (Z.of_nat n); change (length base_colors) with 12%nat in Hn; split; [lia|].
  unfold palette_at; rewrite Nat2Z.id; reflexivity.
Qed.

Lemma palette_lookup_ok i : 0 <= i < 12 -> palette_lookup i = Some (palette_at i).
Proof.
  intros H; unfold palette_lookup.
  replace ((0 <=? i) && (i <? 12)) with true by (symmetry; apply andb_true_iff; split; [apply Z.leb_le|apply Z.ltb_lt]; lia).
  reflexivity.
Qed.

Lemma rgb_eqb_eq x y : rgb_eqb x y = true <-> x = y.
Proof.
  destruct x as [r1 g1 b1], y as [r2 g2 b2]; unfold rgb_eqb; cbn.
  rewrite !andb_true_iff, !Z.eqb_eq; split; [intros [[-> ->] ->]; reflexivity|intros H; injection H; auto].
Qed.

(** The twelve palette entries are pairwise distinct (checked over the
    144 pairs). *)
Definition palette_distinct (i : Z) : bool :=
  forall_between (fun j => (i =? j) || negb (rgb_eqb (palette_at i) (palette_at j))) 0 12.

Lemma palette_at_inj i j : 0 <= i < 12 -> 0 <= j < 12 -> palette_at i = palette_at j -> i = j.
Proof.
  intros Hi Hj E.
  assert (Hd : palette_distinct i = true) by by_range 0 12.
  pose proof (forall_between_spec _ 0 12 Hd j Hj) as H; cbn beta in H.
  apply orb_true_iff in H as [H|H]; [apply Z.eqb_eq, H|].
  rewrite (proj2 (rgb_eqb_eq _ _) E) in H; discriminate H.
Qed.

Lemma palette_at_In i : 0 <= i < 12 -> In (palette_at i) base_colors.
Proof.
  intros Hi; unfold palette_at; apply nth_In.
  change (length base_colors) with 12%nat; lia.
Qed.

Lemma palette_at_pwm i : 0 <= i < 12 -> pwm_color (palette_at i).
Proof.
  intros Hi; pose proof palette_pwm as H; rewrite Forall_forall in H.
  apply H, palette_at_In, Hi.
Qed.

Lemma white_pwm : pwm_color white.
Proof. unfold pwm_color, color_in, PWM_RESOLUTION; simpl; lia. Qed.

Lemma pwm_color_valid c : pwm_color c -> valid_color c.
Proof. unfold pwm_color, valid_color, color_in, PWM_RESOLUTION; lia. Qed.

(** A channel whose scaled difference truncates to [0] is unchanged. *)
Lemma ease_channel_zero_step s e p :
  0 <= s <= 65535 -> float_to_int (f32_mul (f32_of_Z (e - s)) p) = Some 0 ->
  ease_channel s e p = Some s.
Proof.
  intros Hs H; unfold ease_channel; rewrite H; simpl.
  rewrite Z.add_0_r.
  replace (in_int s) with true by (symmetry; apply in_int_iff; unfold INT_MIN, INT_MAX; lia).
  rewrite to_u16_small by lia; reflexivity.
Qed.

(** A channel whose scaled difference truncates to [t] with [s + t] a
    [uint16_t] value takes the value [s + t]. *)
Lemma ease_channel_step s e p t :
  0 <= s + t <= 65535 -> float_to_int (f32_mul (f32_of_Z (e - s)) p) = Some t ->
  ease_channel s e p = Some (s + t).
Proof.
  intros Hs H; unfold ease_channel; rewrite H; simpl.
  replace (in_int (s + t)) with true by (symmetry; apply in_int_iff; unfold INT_MIN, INT_MAX; lia).
  rewrite to_u16_small by lia; reflexivity.
Qed.

Lemma interpolate_channels start end_ progress cr cg cb :
  ease_channel (r start) (r end_) (ease_p progress) = Some cr ->
  ease_channel (g start) (g end_) (ease_p progress) = Some cg ->
  ease_channel (b start) (b end_) (ease_p progress) = Some cb ->
  interpolate_easeInOut start end_ progress = Some (mk_rgb cr cg cb).
Proof. intros Hr Hg Hb; unfold interpolate_easeInOut; rewrite Hr, Hg, Hb; reflexivity. Qed.

Lemma float_to_int_of_trunc x t :
  f_trunc x = Some t -> INT_MIN <= t <= INT_MAX -> float_to_int x = Some t.
Proof. intros H Ht; unfold float_to_int; rewrite H; apply in_int_iff in Ht; rewrite Ht; reflexivity. Qed.

Lemma ease_channel_same s p :
  0 <= s <= 65535 -> is_finite p = true -> ease_channel s s p = Some s.
Proof.
  intros Hs Hp; apply ease_channel_zero_step; [exact Hs|].
  rewrite Z.sub_diag, f32_of_Z_0.
  destruct (f32_mul_zero_l p false Hp) as [s' ->]; reflexivity.
Qed.

Lemma ease_p_zero : ease_p f32_zero = S754_zero false.
Proof. vm_compute; reflexivity. Qed.

Lemma ease_p_one : ease_p f32_one = f32_one.
Proof. vm_compute; reflexivity. Qed.

Lemma ease_channel_at_zero s e :
  0 <= s <= 65535 -> 0 <= e <= 65535 -> ease_channel s e (ease_p f32_zero) = Some s.
Proof.
  intros Hs He; apply ease_channel_zero_step; [exact Hs|].
  rewrite ease_p_zero.
  destruct (f32_mul_zero_r (f32_of_Z (e - s)) false) as [s' ->];
    [apply f32_of_Z_finite; lia | reflexivity].
Qed.

Lemma ease_channel_at_one s e :
  0 <= s <= 65535 -> 0 <= e <= 65535 -> ease_channel s e (ease_p f32_one) = Some e.
Proof.
  intros Hs He; rewrite ease_p_one.
  replace e with (s + (e - s)) at 2 by lia.
  apply ease_channel_step; [lia|].
  apply float_to_int_of_trunc; [apply f32_mul_one_trunc; lia | unfold INT_MIN, INT_MAX; lia].
Qed.

(** *** The fades' progress values, checked over every channel difference *)

Definition scaled_ok (p : float) (d : Z) : bool :=
  match float_to_int (f32_mul (f32_of_Z d) p) with
  | Some t => between 0 d t
  | None => false
  end.

Definition fade_step_ok (step : Z) : bool :=
  forall_between (scaled_ok (ease_p (fade_progress step))) (-4095) 4096.

Lemma fade_steps_ok : forall_between fade_step_ok 0 (FADE_STEPS + 1) = true.
Proof. vm_compute; reflexivity. Qed.

Lemma scaled_ok_fade step d :
  0 <= step <= FADE_STEPS -> -4095 <= d <= 4095 ->
  scaled_ok (ease_p (fade_progress step)) d = true.
Proof.
  intros Hs Hd.
  assert (H : fade_step_ok step = true)
    by (apply (forall_between_spec _ 0 (FADE_STEPS + 1) fade_steps_ok); lia).
  apply (forall_between_spec _ _ _ H); lia.
Qed.

Lemma ease_channel_fade s e step :
  0 <= s <= 4095 -> 0 <= e <= 4095 -> 0 <= step <= FADE_STEPS ->
  exists c, ease_channel s e (ease_p (fade_progress step)) = Some c /\ between s e c = true.
Proof.
  intros Hs He Hst.
  pose proof (scaled_ok_fade step (e - s) Hst ltac:(lia)) as H; unfold scaled_ok in H.
  destruct (float_to_int _) as [t|] eqn:Ht; [|discriminate].
  unfold between in *; rewrite andb_true_iff, !Z.leb_le in H.
  exists (s + t); split.
  - apply ease_channel_step; [lia | exact Ht].
  - rewrite andb_true_iff, !Z.leb_le; lia.
Qed.

(** ** Properties of the colour model *)

(** Interpolating a colour to itself gives that colour, for every
    progress whose eased value is finite ([interpolate_easeInOut]
    lines 37-45). *)
Theorem interpolate_easeInOut_same c progress :
  valid_color c -> is_finite (ease_p progress) = true ->
  interpolate_easeInOut c c progress = Some c.
Proof.
  intros (Hr & Hg & Hb) Hp; destruct c as [cr cg cb]; simpl in *.
  apply interpolate_channels; apply ease_channel_same; assumption.
Qed.

Lemma interpolate_easeInOut_same_witness :
  valid_color white /\ is_finite (ease_p (fade_progress 30)) = true /\
  interpolate_easeInOut white white (fade_progress 30) = Some white.
Proof.
  assert (Hw : valid_color white) by (unfold valid_color, color_in; simpl; lia).
  assert (Hf : is_finite (ease_p (fade_progress 30)) = true) by (vm_compute; reflexivity).
  split; [exact Hw | split; [exact Hf | apply (interpolate_easeInOut_same white _ Hw Hf)]].
Defined.

(** A fade starts exactly at its start colour: progress [0.0f]
    gives [start]. *)
Theorem interpolate_easeInOut_start start end_ :
  valid_color start -> valid_color end_ ->
  interpolate_easeInOut start end_ f32_zero = Some start.
Proof.
  intros (Hr & Hg & Hb) (Hr' & Hg' & Hb'); destruct start; simpl in *.
  apply interpolate_channels; apply ease_channel_at_zero; assumption.
Qed.

Lemma interpolate_easeInOut_start_witness :
  interpolate_easeInOut (palette_at 4) white f32_zero = Some (palette_at 4).
Proof.
  apply interpolate_easeInOut_start; [apply pwm_color_valid, palette_at_pwm; lia |
                                      apply pwm_color_valid, white_pwm].
Defined.

(** C23: a fade ends exactly at its end colour: progress [1.0f] gives
    [end]. *)
Theorem interpolate_easeInOut_end start end_ :
  valid_color start -> valid_color end_ ->
  interpolate_easeInOut start end_ f32_one = Some end_.
Proof.
  intros (Hr & Hg & Hb) (Hr' & Hg' & Hb'); destruct end_; simpl in *.
  apply interpolate_channels; apply ease_channel_at_one; assumption.
Qed.

Lemma interpolate_easeInOut_end_witness :
  interpolate_easeInOut (palette_at 4) white f32_one = Some white.
Proof.
  apply interpolate_easeInOut_end; [apply pwm_color_valid, palette_at_pwm; lia |
                                    apply pwm_color_valid, white_pwm].
Defined.


(** The fade lemma shared by the effects. *)
Lemma interpolate_fade_ok start end_ step :
  pwm_color start -> pwm_color end_ -> 0 <= step <= FADE_STEPS ->
  exists c, interpolate_easeInOut start end_ (fade_progress step) = Some c /\
            color_between start end_ c.
Proof.
  intros (Hr & Hg & Hb) (Hr' & Hg' & Hb') Hs; unfold PWM_RESOLUTION in *.
  destruct (ease_channel_fade (r start) (r end_) step) as (cr & Er & Br); try lia.
  destruct (ease_channel_fade (g start) (g end_) step) as (cg & Eg & Bg); try lia.
  destruct (ease_channel_fade (b start) (b end_) step) as (cb & Eb & Bb); try lia.
  exists (mk_rgb cr cg cb); split; [apply interpolate_channels; assumption|].
  repeat split; assumption.
Qed.

Lemma color_between_pwm x y z : pwm_color x -> pwm_color y -> color_between x y z -> pwm_color z.
Proof.
  unfold pwm_color, color_in, color_between, between, PWM_RESOLUTION.
  intros (? & ? & ?) (? & ? & ?) (Hr & Hg & Hb).
  rewrite andb_true_iff, !Z.leb_le in Hr, Hg, Hb; lia.
Qed.

Lemma interpolate_fade_pwm start end_ step :
  pwm_color start -> pwm_color end_ -> 0 <= step <= FADE_STEPS ->
  exists c, interpolate_easeInOut start end_ (fade_progress step) = Some c /\ pwm_color c.
Proof.
  intros Hs He Hst; destruct (interpolate_fade_ok start end_ step Hs He Hst) as (c & Hc & Hb).
  exists c; split; [exact Hc | apply (color_between_pwm start end_ c Hs He Hb)].
Qed.

Lemma get_random_color_pwm rnd : pwm_color (get_random_color rnd).
Proof. apply palette_at_pwm, Z.mod_pos_bound; lia. Qed.

(** C2: on every frame [step] of a [FADE_STEPS] fade between two
    colours whose channels are PWM values, the interpolation is defined
    (no conversion overflows) and every channel lies between the
    start and end channel. *)
Theorem interpolate_easeInOut_fade_between start end_ step :
  pwm_color start -> pwm_color end_ -> 0 <= step <= FADE_STEPS ->
  exists c, interpolate_easeInOut start end_ (fade_progress step) = Some c /\
            color_between start end_ c.
Proof. apply interpolate_fade_ok. Qed.

Lemma interpolate_easeInOut_fade_between_witness :
  exists c, interpolate_easeInOut white (palette_at 5) (fade_progress 37) = Some c /\
            color_between white (palette_at 5) c.
Proof.
  apply interpolate_easeInOut_fade_between;
    [apply white_pwm | apply palette_at_pwm; lia | unfold FADE_STEPS; lia].
Defined.

(** [ease] does not clamp its progress, and at a large progress
    the eased value overflows: even interpolating a colour to itself is
    then undefined ((int) of a NaN). *)
Theorem interpolate_easeInOut_huge_progress :
  interpolate_easeInOut white white (f32_of_Z (2 ^ 100)) = None.
Proof. vm_compute; reflexivity. Qed.

(** A random draw is always an entry of the palette, whatever the
    random word. *)
Theorem get_random_color_in_palette rnd : In (get_random_color rnd) base_colors.
Proof. apply palette_at_In, Z.mod_pos_bound; lia. Qed.

(** The number of [uint32_t] words that draw palette entry [k]. *)
Definition draw_count (k : Z) : Z := if k <? 4 then 357913942 else 357913941.

(** The words [esp_random() % 12] maps to entry [k]: exactly
    [12 q + k] for [q < draw_count k]. *)
Lemma mod12_words k rnd :
  0 <= k < 12 ->
  (is_u32 rnd /\ rnd mod 12 = k) <-> (exists q, 0 <= q < draw_count k /\ rnd = 12 * q + k).
Proof.
  intros Hk; unfold is_u32, draw_count; split.
  - intros [Hr Hm]; exists (rnd / 12).
    pose proof (Z.div_mod rnd 12 ltac:(lia)) as E; rewrite Hm in E.
    destruct (k <? 4) eqn:E4; [apply Z.ltb_lt in E4 | apply Z.ltb_ge in E4]; lia.
  - intros (q & Hq & ->); split.
    + destruct (k <? 4) eqn:E4; [apply Z.ltb_lt in E4 | apply Z.ltb_ge in E4]; lia.
    + rewrite Z.add_comm, Z.mul_comm, Z.mod_add by lia; apply Z.mod_small; lia.
Qed.

(** C32: [get_random_color] is not uniform: the [uint32_t] words that
    draw palette entry [k] are exactly [12 q + k] for
    [q < draw_count k] (the entries being distinct colours), so the
    first four colours (red, orange, yellow, green) each have one word
    more than the other eight. *)
Theorem get_random_color_bias k rnd :
  0 <= k < 12 -> is_u32 rnd ->
  get_random_color rnd = palette_at k <-> (exists q, 0 <= q < draw_count k /\ rnd = 12 * q + k).
Proof.
  intros Hk Hr; rewrite <- (mod12_words k rnd Hk); unfold get_random_color.
  split; [intros E; split; [exact Hr|apply palette_at_inj; [apply Z.mod_pos_bound; lia|exact Hk|exact E]]|].
  intros [_ ->]; reflexivity.
Qed.

Lemma get_random_color_bias_witness :
  (0 <= 3 < 12 /\ is_u32 4294967295) /\
  (get_random_color 4294967295 = palette_at 3 <-> (exists q, 0 <= q < draw_count 3 /\ 4294967295 = 12 * q + 3)).
Proof.
  assert (H : 0 <= 3 < 12 /\ is_u32 4294967295) by (unfold is_u32; lia).
  split; [exact H|exact (get_random_color_bias 3 4294967295 (proj1 H) (proj2 H))].
Defined.

End Color.
