(* ===== verification/Pwm.v ===== *)
(** * The PWM transport of [src/src/main_app.c]

    The PCA9685 driver: [pca9685_write_byte] (lines 62-65),
    [pca9685_set_pwm] (lines 68-79), the brightness scaling and
    common-anode inversion [set_pwm_duty] (lines 82-94), [set_rgb_led]
    (lines 97-107), [turn_off_all_leds] (lines 110-114) and
    [pca9685_init] (lines 117-135).  An I2C write is recorded as the
    transaction the code hands to [i2c_master_write_to_device]; its
    result is only logged by the code, so it is not modelled.

    The abstract specification [drive_value] is the spec's
    [driveValue(logical, tier)]; [set_pwm_duty_refines] shows that the
    register writes implement it on the PWM range.  [last_pwm] and
    [dev_write] are the device's side: the last value written to a
    channel, and the PCA9685's rule that [PRE_SCALE] is written only
    while [MODE1]'s SLEEP bit is set (a model of the controller from
    its datasheet, not of the firmware). *)

From Stdlib Require Import ZArith List Lia Bool.
From S2P Require Import Prelude Globals.
Import ListNotations.
Open Scope Z_scope.
Open Scope c_scope.

Module Pwm.
Import Globals.

Definition PCA9685_ADDR : Z := 64.
Definition PCA9685_MODE1 : Z := 0.
Definition PCA9685_MODE2 : Z := 1.
Definition PCA9685_PRESCALE : Z := 254.
Definition CHANNELS_PER_LED : Z := 3.

(** One [i2c_master_write_to_device(port, addr, buf, len, timeout)]. *)
Record txn := mk_txn { t_addr : Z; t_bytes : list Z }.

(** What the firmware does to the outside world, in order. *)
Inductive io :=
| IoWrite (t : txn)
| IoDelay (ms : Z).

(** [brightness_vals[3]]: the duty ceiling of each brightness level. *)
Definition brightness_vals : list Z := [4000; 2000; 800].

(** [brightness_vals[brightness_level]]; an index outside the array is
    an undefined read. *)
Definition brightness_val (level : Z) : option Z :=
  if (0 <=? level) && (level <? 3) then nth_error brightness_vals (Z.to_nat level) else None.

Definition pca9685_write_byte (reg_addr data : Z) : txn :=
  mk_txn PCA9685_ADDR [reg_addr; data].

Definition pca9685_set_pwm (channel on off : Z) : txn :=
  mk_txn PCA9685_ADDR
    [ (uint8_t) (6 + 4 * channel);
      Z.land on 255; Z.land (Z.shiftr on 8) 255;
      Z.land off 255; Z.land (Z.shiftr off 8) 255 ].

(** [adjusted_duty = duty * brightness_vals[level] / 4095] in [int]
    arithmetic, stored in a [uint16_t]; zero selects the full-off
    encoding, anything else is inverted around 4095. *)
Definition set_pwm_duty (level channel duty : Z) : option txn :=
  bv <- brightness_val level ;;
  let adjusted_duty := (uint16_t) (duty * bv / 4095) in
  if adjusted_duty =? 0 then Some (pca9685_set_pwm channel 4096 0)
  else Some (pca9685_set_pwm channel 0 ((uint16_t) (4095 - adjusted_duty))).

Definition set_rgb_led (level led_index r g b : Z) : option (list txn) :=
  if led_index >=? NUM_LEDS then Some []
  else
    let base_channel := (uint8_t) (led_index * CHANNELS_PER_LED) in
    t1 <- set_pwm_duty level base_channel r ;;
    t2 <- set_pwm_duty level ((uint8_t) (base_channel + 1)) g ;;
    t3 <- set_pwm_duty level ((uint8_t) (base_channel + 2)) b ;;
    Some [t1; t2; t3].

(** [turn_off_all_leds]: the calls it makes. *)
Definition turn_off_all_leds : list cmd :=
  map (fun i => SetRgb ((uint8_t) (Z.of_nat i)) 0 0 0) (seq 0 (Z.to_nat NUM_LEDS)).

(** A call of the animation code, executed at the brightness level the
    driver reads. *)
Definition exec_cmd (level : Z) (c : cmd) : option (list io) :=
  match c with
  | SetRgb i r g b => ts <- set_rgb_led level i r g b ;; Some (map IoWrite ts)
  | Delay ms => Some [IoDelay ms]
  end.

Fixpoint exec_cmds (level : Z) (l : list cmd) : option (list io) :=
  match l with
  | [] => Some []
  | c :: l' => x <- exec_cmd level c ;; y <- exec_cmds level l' ;; Some (x ++ y)
  end.

(** [pca9685_init]: sleep, totem-pole outputs, prescale 6, wake with
    auto-increment and restart. *)
Definition pca9685_init : list io :=
  [ IoWrite (pca9685_write_byte PCA9685_MODE1 16);
    IoWrite (pca9685_write_byte PCA9685_MODE2 4);
    IoWrite (pca9685_write_byte PCA9685_PRESCALE 6);
    IoDelay 10;
    IoWrite (pca9685_write_byte PCA9685_MODE1 160);
    IoDelay 10 ].

(** ** The abstract drive specification (spec section 4.2) *)

Inductive drive := FullOff | Inverted (off : Z).

Definition scaled (bv duty : Z) : Z := duty * bv / 4095.

Definition drive_value (bv duty : Z) : drive :=
  if scaled bv duty =? 0 then FullOff else Inverted (4095 - scaled bv duty).

Definition encode_drive (channel : Z) (d : drive) : txn :=
  match d with
  | FullOff => pca9685_set_pwm channel 4096 0
  | Inverted off => pca9685_set_pwm channel 0 off
  end.

(** Counts of the 4096-count period during which the (common-anode)
    LED is dark: the full-off encoding keeps it dark all period. *)
Definition dark_counts (d : drive) : Z :=
  match d with FullOff => 4096 | Inverted off => off end.

(** What a PWM register write means to the device: the channel and
    the 13-bit ON and OFF counts (auto-increment over
    [LEDn_ON_L .. LEDn_OFF_H]). *)
Definition decode_set_pwm (t : txn) : option (Z * Z * Z) :=
  match t_bytes t with
  | [reg; onl; onh; offl; offh] =>
      if (t_addr t =? PCA9685_ADDR) && (6 <=? reg) && ((reg - 6) mod 4 =? 0)
      then Some ((reg - 6) / 4, onl + 256 * onh, offl + 256 * offh)
      else None
  | _ => None
  end.

(** The device's view of a bus trace: the ON and OFF counts last
    written to channel [ch] (the PCA9685 keeps the last value written
    to each channel's registers). *)
Fixpoint last_pwm (bus : list io) (ch : Z) : option (Z * Z) :=
  match bus with
  | [] => None
  | o :: rest =>
      match last_pwm rest ch with
      | Some x => Some x
      | None =>
          match o with
          | IoWrite t =>
              match decode_set_pwm t with
              | Some (c', on, off) => if c' =? ch then Some (on, off) else None
              | None => None
              end
          | IoDelay _ => None
          end
      end
  end.

(** Every one of the 15 wired channels holds the encoding [(4096, 0)]
    that [set_pwm_duty] writes for a zero duty ([FullOff]), which keeps
    the common-anode LED dark for the whole period. *)
Definition all_dark (bus : list io) : Prop :=
  forall ch, 0 <= ch < 15 -> last_pwm bus ch = Some (4096, 0).

(** [app_main]'s writes to the controller after the I2C driver is up
    (lines 200-202): the initialisation, then a second prescale write
    meant to select about 1 kHz. *)
Definition app_main_io : list io :=
  pca9685_init ++ [IoWrite (pca9685_write_byte PCA9685_PRESCALE 25)].

(** The controller's side of the bus, for the registers [app_main]
    configures (PCA9685 datasheet, MODE1 and PRE_SCALE): [MODE1] takes
    every write; [PRE_SCALE] takes a write only while the SLEEP bit
    (bit 4) of [MODE1] is set and ignores it otherwise.  A model of the
    device, not of the firmware. *)
Record pca_regs := mk_regs { reg_mode1 : Z; reg_prescale : Z }.

Definition dev_write (d : pca_regs) (o : io) : pca_regs :=
  match o with
  | IoWrite (mk_txn a [reg; v]) =>
      if negb (a =? PCA9685_ADDR) then d
      else if reg =? PCA9685_MODE1 then mk_regs v (reg_prescale d)
      else if (reg =? PCA9685_PRESCALE) && Z.testbit (reg_mode1 d) 4 then mk_regs (reg_mode1 d) v
      else d
  | _ => d
  end.

Definition dev_run (d : pca_regs) (l : list io) : pca_regs := fold_left dev_write l d.

(** ** Helper lemmas *)

Definition bv_of (level : Z) : Z := nth (Z.to_nat level) brightness_vals 0.

Lemma brightness_val_ok level :
  0 <= level < 3 -> brightness_val level = Some (bv_of level) /\ 800 <= bv_of level <= 4000.
Proof.
  intros H; assert (level = 0 \/ level = 1 \/ level = 2) as [->|[->| ->]] by lia;
    split; try reflexivity; unfold bv_of; simpl; lia.
Qed.

Lemma bv_of_antitone l1 l2 : 0 <= l1 <= l2 -> l2 < 3 -> bv_of l2 <= bv_of l1.
Proof.
  intros H1 H2.
  assert (E1 : l1 = 0 \/ l1 = 1 \/ l1 = 2) by lia.
  assert (E2 : l2 = 0 \/ l2 = 1 \/ l2 = 2) by lia.
  destruct E1 as [->|[->| ->]]; destruct E2 as [->|[->| ->]]; unfold bv_of; simpl; lia.
Qed.

Lemma scaled_range bv duty :
  0 <= bv <= 4000 -> 0 <= duty <= 4095 -> 0 <= scaled bv duty <= bv.
Proof.
  intros Hb Hd; unfold scaled; split; [apply Z.div_pos; lia|].
  apply Z.div_le_upper_bound; nia.
Qed.

Lemma byte_split x : 0 <= x < 65536 -> Z.land x 255 + 256 * Z.land (Z.shiftr x 8) 255 = x.
Proof.
  intros Hx.
  change 255 with (Z.ones 8); rewrite !Z.land_ones, Z.shiftr_div_pow2 by lia.
  change (2 ^ 8) with 256.
  rewrite (Z.mod_small (x / 256)) by (split; [apply Z.div_pos|apply Z.div_lt_upper_bound]; lia).
  pose proof (Z.div_mod x 256 ltac:(lia)); lia.
Qed.

Lemma last_pwm_app bus l ch :
  last_pwm (bus ++ l) ch = match last_pwm l ch with Some x => Some x | None => last_pwm bus ch end.
Proof.
  induction bus as [|o bus IH]; simpl; [destruct (last_pwm l ch); reflexivity|].
  rewrite IH; destruct (last_pwm l ch); reflexivity.
Qed.

Lemma exec_cmds_app level l1 l2 :
  exec_cmds level (l1 ++ l2) =
    Globals.obind (exec_cmds level l1) (fun i1 =>
    Globals.obind (exec_cmds level l2) (fun i2 => Some (i1 ++ i2))).
Proof.
  induction l1 as [|c l1 IH]; simpl.
  - destruct (exec_cmds level l2); reflexivity.
  - rewrite IH; destruct (exec_cmd level c) as [x|]; simpl; [|reflexivity].
    destruct (exec_cmds level l1) as [y|]; simpl; [|reflexivity].
    destruct (exec_cmds level l2) as [z|]; simpl; [|reflexivity].
    rewrite app_assoc; reflexivity.
Qed.

(** Whatever was written before, the calls of a pass of the main loop
    with the LEDs off leave every channel dark. *)
Lemma off_pass_dark level bus :
  0 <= level < 3 ->
  exists ios, exec_cmds level (turn_off_all_leds ++ [Delay 500]) = Some ios /\ all_dark (bus ++ ios).
Proof.
  intros Hl; assert (level = 0 \/ level = 1 \/ level = 2) as [->|[->| ->]] by lia;
    (eexists; split; [reflexivity|]); intros ch Hch; rewrite last_pwm_app;
    assert (ch = 0 \/ ch = 1 \/ ch = 2 \/ ch = 3 \/ ch = 4 \/ ch = 5 \/ ch = 6 \/ ch = 7 \/ ch = 8 \/
            ch = 9 \/ ch = 10 \/ ch = 11 \/ ch = 12 \/ ch = 13 \/ ch = 14) by lia;
    repeat match goal with H : _ \/ _ |- _ => destruct H as [->|H] end; subst; reflexivity.
Qed.

(** At a valid brightness level every call executes: no write reads
    [brightness_vals] out of bounds. *)
Lemma exec_cmds_ok level l : 0 <= level < 3 -> exists ios, exec_cmds level l = Some ios.
Proof.
  intros Hl; destruct (brightness_val_ok level Hl) as [Hb _].
  assert (Hd : forall ch duty, exists t, set_pwm_duty level ch duty = Some t)
    by (intros ch duty; unfold set_pwm_duty; rewrite Hb; cbn [Globals.obind]; case_ifs; now eexists).
  induction l as [|c l [ios Hios]]; [now eexists|].
  simpl; rewrite Hios.
  destruct c as [i r g b|ms]; simpl; [|now eexists].
  unfold set_rgb_led; case_ifs;
    repeat match goal with
    | |- context [set_pwm_duty level ?ch ?d] => destruct (Hd ch d) as [? ->]; cbn [Globals.obind]
    end; simpl; now eexists.
Qed.

(** ** Properties of the PWM transport *)

Lemma set_pwm_duty_drive level channel duty :
  0 <= level < 3 -> 0 <= duty <= 4095 ->
  set_pwm_duty level channel duty = Some (encode_drive channel (drive_value (bv_of level) duty)).
Proof.
  intros Hl Hd; destruct (brightness_val_ok level Hl) as [Hb Hbv].
  pose proof (scaled_range (bv_of level) duty ltac:(lia) Hd) as Hs; unfold scaled in Hs.
  unfold set_pwm_duty, drive_value, scaled; rewrite Hb; cbn [Globals.obind].
  rewrite (to_u16_small (duty * bv_of level / 4095)) by lia.
  destruct (duty * bv_of level / 4095 =? 0); [reflexivity|].
  rewrite to_u16_small by lia; reflexivity.
Qed.

(** C1: on the PWM range [0, 4095] and at every brightness level,
    [set_pwm_duty] writes exactly the encoding of the specified drive
    value: full-off when the scaled duty is zero, the inverted duty
    otherwise, with no [uint16_t] wrap-around. *)
Theorem set_pwm_duty_refines level channel duty :
  0 <= level < 3 -> 0 <= duty <= 4095 ->
  set_pwm_duty level channel duty = Some (encode_drive channel (drive_value (bv_of level) duty)).
Proof. apply set_pwm_duty_drive. Qed.

Lemma set_pwm_duty_refines_witness :
  set_pwm_duty 2 0 4095 = Some (encode_drive 0 (Inverted 3295)).
Proof. apply (set_pwm_duty_refines 2 0 4095); lia. Defined.

(** C24: the full-off encoding is selected exactly when the scaled duty
    is zero, i.e. when [duty * brightness_vals[level] < 4095]: in
    particular always for a logical zero, and at the dark level for
    every logical value up to 5. *)
Theorem set_pwm_duty_full_off_iff level channel duty :
  0 <= level < 3 -> 0 <= duty <= 4095 ->
  (set_pwm_duty level channel duty = Some (pca9685_set_pwm channel 4096 0) <->
   duty * bv_of level < 4095).
Proof.
  intros Hl Hd; rewrite (set_pwm_duty_drive level channel duty Hl Hd).
  destruct (brightness_val_ok level Hl) as [_ Hbv].
  pose proof (scaled_range (bv_of level) duty ltac:(lia) Hd) as Hs.
  unfold drive_value, encode_drive, scaled in *.
  destruct (duty * bv_of level / 4095 =? 0) eqn:E; [apply Z.eqb_eq in E | apply Z.eqb_neq in E].
  - split; [intros _ | reflexivity].
    destruct (Z.lt_ge_cases (duty * bv_of level) 4095) as [?|Hge]; [assumption|].
    exfalso; pose proof (Z.div_le_mono 4095 _ 4095 ltac:(lia) Hge); rewrite Z.div_same in *; lia.
  - split; intros H.
    + inversion H.
    + exfalso; apply E, Z.div_small; lia.
Qed.

Lemma set_pwm_duty_full_off_iff_witness :
  set_pwm_duty 2 7 5 = Some (pca9685_set_pwm 7 4096 0).
Proof. apply (proj2 (set_pwm_duty_full_off_iff 2 7 5 ltac:(lia) ltac:(lia))); unfold bv_of; simpl; lia. Defined.

(** A darker brightness level never makes an LED brighter: for
    the same logical value, the dark part of the PWM period is
    non-decreasing from level 0 (bright) to level 2 (dark). *)
Theorem drive_value_dark_monotone l1 l2 duty :
  0 <= l1 <= l2 -> l2 < 3 -> 0 <= duty <= 4095 ->
  dark_counts (drive_value (bv_of l1) duty) <= dark_counts (drive_value (bv_of l2) duty).
Proof.
  intros H1 H2 Hd; pose proof (bv_of_antitone l1 l2 H1 H2) as Hb.
  destruct (brightness_val_ok l1 ltac:(lia)) as [_ B1]; destruct (brightness_val_ok l2 ltac:(lia)) as [_ B2].
  pose proof (scaled_range (bv_of l1) duty ltac:(lia) Hd) as S1.
  pose proof (scaled_range (bv_of l2) duty ltac:(lia) Hd) as S2.
  assert (scaled (bv_of l2) duty <= scaled (bv_of l1) duty)
    by (unfold scaled; apply Z.div_le_mono; nia).
  unfold drive_value, dark_counts.
  destruct (scaled (bv_of l1) duty =? 0) eqn:E1, (scaled (bv_of l2) duty =? 0) eqn:E2;
    rewrite ?Z.eqb_eq, ?Z.eqb_neq in *; lia.
Qed.

Lemma drive_value_dark_monotone_witness :
  dark_counts (drive_value (bv_of 0) 4095) <= dark_counts (drive_value (bv_of 2) 4095).
Proof. apply (drive_value_dark_monotone 0 2 4095); lia. Defined.

(** C35: a PWM register write decodes back to its channel and its ON
    and OFF counts, for every channel whose register address fits the
    byte and every [uint16_t] count. *)
Theorem decode_set_pwm_roundtrip channel on off :
  0 <= channel <= 62 -> 0 <= on < 65536 -> 0 <= off < 65536 ->
  decode_set_pwm (pca9685_set_pwm channel on off) = Some (channel, on, off).
Proof.
  intros Hc Hon Hoff; unfold decode_set_pwm, pca9685_set_pwm; cbn [t_bytes t_addr].
  rewrite to_u8_small by lia.
  replace (6 + 4 * channel - 6) with (channel * 4) by lia.
  rewrite Z.mod_mul, Z.div_mul by lia.
  replace (6 <=? 6 + 4 * channel) with true by (symmetry; apply Z.leb_le; lia).
  rewrite !byte_split by lia; reflexivity.
Qed.

Lemma decode_set_pwm_roundtrip_witness :
  decode_set_pwm (pca9685_set_pwm 14 4096 0) = Some (14, 4096, 0).
Proof. apply decode_set_pwm_roundtrip; lia. Defined.

(** C9: [set_rgb_led] drives the three adjacent channels of an LED
    index below [NUM_LEDS] with the drive values of its three
    channels, and writes nothing for any other [uint8_t] index. *)
Theorem set_rgb_led_spec level idx r g b :
  0 <= level < 3 -> 0 <= idx < 256 -> 0 <= r <= 4095 -> 0 <= g <= 4095 -> 0 <= b <= 4095 ->
  set_rgb_led level idx r g b =
    Some (if idx <? NUM_LEDS then
            [encode_drive (3 * idx) (drive_value (bv_of level) r);
             encode_drive (3 * idx + 1) (drive_value (bv_of level) g);
             encode_drive (3 * idx + 2) (drive_value (bv_of level) b)]
          else []).
Proof.
  intros Hl Hi Hr Hg Hb; unfold set_rgb_led, NUM_LEDS, CHANNELS_PER_LED.
  destruct (idx >=? 5) eqn:E; [replace (idx <? 5) with false by (symmetry; apply Z.ltb_ge; apply Z.geb_le in E; lia); reflexivity|].
  replace (idx <? 5) with true by (symmetry; apply Z.ltb_lt; rewrite Z.geb_leb, Z.leb_gt in E; lia).
  rewrite Z.geb_leb, Z.leb_gt in E.
  rewrite !to_u8_small by lia; rewrite Z.mul_comm.
  rewrite !set_pwm_duty_drive by lia; reflexivity.
Qed.

Lemma set_rgb_led_spec_witness :
  set_rgb_led 1 7 4095 0 0 = Some [].
Proof. apply (set_rgb_led_spec 1 7 4095 0 0); lia. Defined.

(** [turn_off_all_leds] writes the full-off encoding to each of
    the fifteen channels 0..14, in order, at every brightness level. *)
Theorem turn_off_all_leds_io level :
  0 <= level < 3 ->
  exec_cmds level turn_off_all_leds =
    Some (map (fun ch => IoWrite (pca9685_set_pwm (Z.of_nat ch) 4096 0)) (seq 0 15)).
Proof. intros H; assert (level = 0 \/ level = 1 \/ level = 2) as [->|[->| ->]] by lia; reflexivity. Qed.

Lemma turn_off_all_leds_io_witness :
  exec_cmds 2 turn_off_all_leds =
    Some (map (fun ch => IoWrite (pca9685_set_pwm (Z.of_nat ch) 4096 0)) (seq 0 15)).
Proof. apply turn_off_all_leds_io; lia. Defined.

(** C36: whatever state the controller is in when [app_main] starts,
    after [app_main]'s writes its prescale is 6, the value
    [pca9685_init] wrote while asleep, and [MODE1] is [0xA0]: the
    prescale-25 write meant to select "about 1000 Hz" comes after
    [MODE1 = 0xA0] cleared SLEEP and is ignored.  The same write issued
    while the controller still sleeps (right after the prescale-6
    write) would have been taken. *)
Theorem app_main_prescale_while_awake d :
  reg_prescale (dev_run d app_main_io) = 6 /\ reg_mode1 (dev_run d app_main_io) = 160 /\
  In (IoWrite (pca9685_write_byte PCA9685_PRESCALE 25)) app_main_io /\
  reg_prescale (dev_run d (firstn 3 pca9685_init ++ [IoWrite (pca9685_write_byte PCA9685_PRESCALE 25)])) = 25.
Proof.
  destruct d as [m p]; split; [reflexivity|split; [reflexivity|split; [|reflexivity]]].
  apply in_or_app; right; left; reflexivity.
Qed.

End Pwm.
