(* ===== verification/Rainbow.v ===== *)
(** * Mode 1: the synchronised rainbow ([rainbow_transition_mode])

    [src/src/transitons.c] lines 98-121.  The [static float hue] is kept
    in the effect state and survives across invocations, as in C.  One
    step of [rainbow_step] does one shared-variable read: [RWhile] reads
    [led_on], [RMode] reads [transition_mode] and, when the loop
    continues, computes and writes one frame (five [set_rgb_led] calls),
    advances the hue by 3 degrees with its wrap at 360, and sleeps
    50 ms.

    The theorems: the hue only takes the 120 values [3k], and returns to
    itself after 120 frames; every frame is defined and its channels are
    PWM values; each pixel is within one count below the exact 6-sector
    HSV conversion; a mode change or a power-off ends the effect before
    any further frame. *)

From Stdlib Require Import ZArith List Lia Bool SpecFloat.
From S2P Require Import Prelude CFloat Globals.
Import ListNotations.
Open Scope Z_scope.
Open Scope c_scope.

Module Rainbow.
Import Globals.

(** The pixel of LED [i] at a hue: lines 103-115. *)
Definition hsv_pixel (hue : float) (i : Z) : option cmd :=
  hi <- float_to_int (f32_add hue (f32_of_Z (i * 60))) ;;
  let h := Z.rem hi 360 in
  let s := f32_one in
  let v := f32_one in
  let c := f32_mul v s in
  let x := f32_mul c (f32_sub (f32_of_Z 1)
             (fabsf (f32_sub (fmodf (f32_div (f32_of_Z h) (f32_of_Z 60)) (f32_of_Z 2))
                             (f32_of_Z 1)))) in
  let m := f32_sub v c in
  let '(r, g, b) :=
    if h <? 60 then (c, x, f32_zero)
    else if h <? 120 then (x, c, f32_zero)
    else if h <? 180 then (f32_zero, c, x)
    else if h <? 240 then (f32_zero, x, c)
    else if h <? 300 then (x, f32_zero, c)
    else (c, f32_zero, x) in
  r16 <- float_to_u16 (f32_mul (f32_add r m) (f32_of_Z 4095)) ;;
  g16 <- float_to_u16 (f32_mul (f32_add g m) (f32_of_Z 4095)) ;;
  b16 <- float_to_u16 (f32_mul (f32_add b m) (f32_of_Z 4095)) ;;
  Some (SetRgb ((uint8_t) i) r16 g16 b16).

(** The [for (i = 0; i < NUM_LEDS; i++)] loop of one frame. *)
Fixpoint frame_from (hue : float) (i : Z) (n : nat) : option (list cmd) :=
  match n with
  | O => Some []
  | S n' => p <- hsv_pixel hue i ;; rest <- frame_from hue (i + 1) n' ;; Some (p :: rest)
  end.

Definition rainbow_frame (hue : float) : option (list cmd) :=
  frame_from hue 0 (Z.to_nat NUM_LEDS).

(** [hue += 3; if (hue >= 360) hue -= 360;] *)
Definition hue_next (hue : float) : float :=
  let h := f32_add hue (f32_of_Z 3) in
  if f_ge h (f32_of_Z 360) then f32_sub h (f32_of_Z 360) else h.

(** [static float hue = 0;] *)
Definition hue_init : float := f32_zero.

Inductive rpc := RWhile | RMode | RRet.

Record rstate := mk_rstate { r_pc : rpc; hue : float }.

Definition rainbow_step (c : ctrl) (s : rstate) : option (rstate * list cmd) :=
  match r_pc s with
  | RWhile => Some (mk_rstate (if led_on c then RMode else RRet) (hue s), [])
  | RMode =>
      if transition_mode c =? 1 then
        frame <- rainbow_frame (hue s) ;;
        Some (mk_rstate RWhile (hue_next (hue s)), frame ++ [Delay 50])
      else Some (mk_rstate RRet (hue s), [])
  | RRet => Some (s, [])
  end.

(** Entry of [rainbow_transition_mode()] with the static's value. *)
Definition rainbow_start (h : float) : rstate := mk_rstate RWhile h.

(** ** The exact 6-sector conversion the spec names *)

Definition exact_x (h : Z) : Z := 4095 * (60 - Z.abs (h mod 120 - 60)) / 60.

Definition exact_hsv (h : Z) : Z * Z * Z :=
  if h <? 60 then (4095, exact_x h, 0)
  else if h <? 120 then (exact_x h, 4095, 0)
  else if h <? 180 then (0, 4095, exact_x h)
  else if h <? 240 then (0, exact_x h, 4095)
  else if h <? 300 then (exact_x h, 0, 4095)
  else (4095, 0, exact_x h).

(** The hues the static can hold: [3k] for [k < 120]. *)
Definition reachable_hue (h : float) : Prop := exists k, 0 <= k < 120 /\ h = f32_of_Z (3 * k).

(** A pixel of LED [i] within one count below the exact conversion of
    the integer hue [h]. *)
Definition pixel_spec (h i : Z) (p : cmd) : Prop :=
  exists r g b, p = SetRgb i r g b /\
    let '(er, eg, eb) := exact_hsv h in
    er - 1 <= r <= er /\ eg - 1 <= g <= eg /\ eb - 1 <= b <= eb.

(** ** Checkers evaluated over the 120 hues *)

Definition hue_step_ok (k : Z) : bool :=
  sf_eqb (hue_next (f32_of_Z (3 * k))) (f32_of_Z (3 * ((k + 1) mod 120))).

Definition in1 (e v : Z) : bool := (e - 1 <=? v) && (v <=? e).

Definition pix_ok (k i : Z) (p : cmd) : bool :=
  match p with
  | SetRgb j r g b =>
      let '(er, eg, eb) := exact_hsv ((3 * k + 60 * i) mod 360) in
      (j =? i) && in1 er r && in1 eg g && in1 eb b
  | Delay _ => false
  end.

Definition frame_ok (k : Z) : bool :=
  match rainbow_frame (f32_of_Z (3 * k)) with
  | Some [p0; p1; p2; p3; p4] =>
      pix_ok k 0 p0 && pix_ok k 1 p1 && pix_ok k 2 p2 && pix_ok k 3 p3 && pix_ok k 4 p4
  | _ => false
  end.

(** ** Helper lemmas *)

Lemma hue_next_3k k : 0 <= k < 120 -> hue_next (f32_of_Z (3 * k)) = f32_of_Z (3 * ((k + 1) mod 120)).
Proof. intros Hk; apply sf_eqb_eq; change (hue_step_ok k = true); by_range 0 120. Qed.

Lemma hue_iter k n :
  0 <= k < 120 ->
  Nat.iter n hue_next (f32_of_Z (3 * k)) = f32_of_Z (3 * ((k + Z.of_nat n) mod 120)).
Proof.
  intros Hk; induction n as [|n IH].
  - simpl; rewrite Z.add_0_r, Z.mod_small by lia; reflexivity.
  - rewrite Nat.iter_succ, IH, hue_next_3k by (apply Z.mod_pos_bound; lia).
    rewrite Z.add_mod_idemp_l by lia; f_equal; f_equal; f_equal; lia.
Qed.

Lemma pix_ok_spec k i p : pix_ok k i p = true -> pixel_spec ((3 * k + 60 * i) mod 360) i p.
Proof.
  unfold pix_ok, pixel_spec, in1; destruct p as [j r g b|]; [|discriminate].
  destruct (exact_hsv _) as [[er eg] eb]; intros H.
  repeat rewrite andb_true_iff in H; rewrite !Z.leb_le, Z.eqb_eq in H.
  exists r, g, b; split; [f_equal; lia | lia].
Qed.

Lemma frames_ok : forall_between frame_ok 0 120 = true.
Proof. vm_compute; reflexivity. Qed.

Lemma exact_hsv_range h :
  let '(er, eg, eb) := exact_hsv h in
  0 <= er <= 4095 /\ 0 <= eg <= 4095 /\ 0 <= eb <= 4095.
Proof.
  assert (0 <= exact_x h <= 4095).
  { unfold exact_x; pose proof (Z.mod_pos_bound h 120 ltac:(lia)).
    split; [apply Z.div_pos; lia | apply Z.div_le_upper_bound; lia]. }
  unfold exact_hsv; repeat destruct (_ <? _); lia.
Qed.

(** ** Properties of the rainbow effect *)

Lemma rainbow_frame_pixels k :
  0 <= k < 120 ->
  exists p0 p1 p2 p3 p4,
    rainbow_frame (f32_of_Z (3 * k)) = Some [p0; p1; p2; p3; p4] /\
    pixel_spec ((3 * k + 60 * 0) mod 360) 0 p0 /\ pixel_spec ((3 * k + 60 * 1) mod 360) 1 p1 /\
    pixel_spec ((3 * k + 60 * 2) mod 360) 2 p2 /\ pixel_spec ((3 * k + 60 * 3) mod 360) 3 p3 /\
    pixel_spec ((3 * k + 60 * 4) mod 360) 4 p4.
Proof.
  intros Hk.
  assert (H : frame_ok k = true) by (apply (forall_between_spec _ 0 120 frames_ok); lia).
  unfold frame_ok in H.
  destruct (rainbow_frame _) as [[|p0 [|p1 [|p2 [|p3 [|p4 [|]]]]]]|]; try discriminate.
  repeat rewrite andb_true_iff in H; destruct H as [[[[H0 H1] H2] H3] H4].
  exists p0, p1, p2, p3, p4; split; [reflexivity|].
  repeat split; apply pix_ok_spec; assumption.
Qed.

(** The static hue only ever holds one of the 120 values
    [0, 3, ..., 357]: started at 0 and advanced by [hue_next] any number
    of times, it is [3k] for some [k < 120] (no float drift). *)
Theorem hue_always_reachable n : reachable_hue (Nat.iter n hue_next hue_init).
Proof.
  exists ((0 + Z.of_nat n) mod 120); split; [apply Z.mod_pos_bound; lia|].
  change hue_init with (f32_of_Z (3 * 0)); apply hue_iter; lia.
Qed.

(** C22: the float hue is the integer hue: after [n] frames the
    static [float hue], advanced by [hue += 3; if (hue >= 360) hue -= 360]
    in binary32, holds exactly the float of the integer reference
    [(3 * n) mod 360], so the float arithmetic never drifts. *)
Theorem hue_float_equiv n :
  Nat.iter n hue_next hue_init = f32_of_Z ((3 * Z.of_nat n) mod 360).
Proof.
  change hue_init with (f32_of_Z (3 * 0)); rewrite hue_iter by lia.
  f_equal; change 360 with (3 * 120); rewrite Z.mul_mod_distr_l by lia; f_equal; f_equal; lia.
Qed.

(** C3: after 120 frame advances ([120 * 3 = 360] degrees) the hue is
    back to its value. *)
Theorem hue_returns_after_120 h : reachable_hue h -> Nat.iter 120 hue_next h = h.
Proof.
  intros (k & Hk & ->); rewrite hue_iter by lia; f_equal; f_equal.
  replace (k + Z.of_nat 120) with (k + 1 * 120) by lia.
  rewrite Z.mod_add, Z.mod_small by lia; reflexivity.
Qed.

Lemma hue_returns_after_120_witness :
  Nat.iter 120 hue_next (f32_of_Z (3 * 17)) = f32_of_Z (3 * 17).
Proof. apply hue_returns_after_120; exists 17; split; [lia | reflexivity]. Defined.

(** C25: at every hue the static can hold, the frame is defined (no
    float-to-[uint16_t] conversion is undefined) and LED [i] shows the
    hue [(hue + 60 i) mod 360]: each channel is within one count below
    the exact 6-sector HSV value, so within [0, 4095]. *)
Theorem rainbow_frame_spec k :
  0 <= k < 120 ->
  exists p0 p1 p2 p3 p4,
    rainbow_frame (f32_of_Z (3 * k)) = Some [p0; p1; p2; p3; p4] /\
    pixel_spec ((3 * k + 60 * 0) mod 360) 0 p0 /\ pixel_spec ((3 * k + 60 * 1) mod 360) 1 p1 /\
    pixel_spec ((3 * k + 60 * 2) mod 360) 2 p2 /\ pixel_spec ((3 * k + 60 * 3) mod 360) 3 p3 /\
    pixel_spec ((3 * k + 60 * 4) mod 360) 4 p4.
Proof. apply rainbow_frame_pixels. Qed.

Lemma rainbow_frame_spec_witness :
  exists p0 p1 p2 p3 p4,
    rainbow_frame (f32_of_Z (3 * 4)) = Some [p0; p1; p2; p3; p4] /\
    pixel_spec ((3 * 4 + 60 * 0) mod 360) 0 p0 /\ pixel_spec ((3 * 4 + 60 * 1) mod 360) 1 p1 /\
    pixel_spec ((3 * 4 + 60 * 2) mod 360) 2 p2 /\ pixel_spec ((3 * 4 + 60 * 3) mod 360) 3 p3 /\
    pixel_spec ((3 * 4 + 60 * 4) mod 360) 4 p4.
Proof. apply rainbow_frame_spec; lia. Defined.

(** The conversion is not exact: at hue 12 the green channel is one
    count below [4095 * 12 / 60 = 819]. *)
Example rainbow_pixel_hue_12 :
  hsv_pixel (f32_of_Z 12) 0 = Some (SetRgb 0 4095 818 0) /\ exact_hsv 12 = (4095, 819, 0).
Proof. split; vm_compute; reflexivity. Qed.

(** C27: once the mode is no longer 1, the effect returns within two
    steps and writes no further frame, from any point of its loop. *)
Theorem rainbow_mode_change_returns c s :
  transition_mode c <> 1 ->
  exists s', run (fun _ => rainbow_step c) 0 2 s = Some (s', []) /\ r_pc s' = RRet.
Proof.
  intros Hm; apply Z.eqb_neq in Hm.
  destruct s as [[| |] h]; unfold run, rainbow_step; simpl;
    try rewrite Hm; try destruct (led_on c); simpl; try rewrite Hm; simpl; eauto.
Qed.

Lemma rainbow_mode_change_returns_witness :
  exists s', run (fun _ => rainbow_step (mk_ctrl 1 true 2 true)) 0 2 (rainbow_start hue_init)
             = Some (s', []) /\ r_pc s' = RRet.
Proof. apply rainbow_mode_change_returns; simpl; lia. Defined.

(** C28: once the LEDs are switched off, the effect returns within two
    steps, having written at most the one frame it was about to write. *)
Theorem rainbow_power_off_returns c s :
  led_on c = false -> reachable_hue (hue s) ->
  exists s' out, run (fun _ => rainbow_step c) 0 2 s = Some (s', out) /\ r_pc s' = RRet /\
                 (length (filter is_frame_write out) <= 5)%nat.
Proof.
  intros Hoff (k & Hk & Hh).
  destruct (rainbow_frame_pixels k Hk) as (p0 & p1 & p2 & p3 & p4 & Hf & Hp0 & Hp1 & Hp2 & Hp3 & Hp4).
  destruct s as [pc h]; cbn [hue] in Hh; rewrite <- Hh in Hf; clear Hh Hp0 Hp1 Hp2 Hp3 Hp4.
  destruct pc; unfold run, rainbow_step; simpl; rewrite ?Hoff; simpl;
    try (destruct (transition_mode c =? 1); simpl; try (rewrite Hf; simpl; rewrite ?Hoff; simpl));
    eexists _, _; (split; [reflexivity | split; [reflexivity | simpl; repeat destruct (is_frame_write _); simpl; lia]]).
Qed.

Lemma rainbow_power_off_returns_witness :
  exists s' out, run (fun _ => rainbow_step (mk_ctrl 1 false 1 false)) 0 2
                   (mk_rstate RMode (f32_of_Z (3 * 5))) = Some (s', out) /\ r_pc s' = RRet /\
                 (length (filter is_frame_write out) <= 5)%nat.
Proof. apply rainbow_power_off_returns; [reflexivity | exists 5; split; [lia | reflexivity]]. Defined.

(** One iteration of the loop while the LEDs are on in mode 1: the
    [while] test and the frame, five [set_rgb_led] calls and 50 ms. *)
Lemma rainbow_iteration c j h :
  led_on c = true -> transition_mode c = 1 -> reachable_hue h ->
  exists f, run (fun _ => rainbow_step c) j 2 (rainbow_start h) = Some (rainbow_start (hue_next h), f) /\
    Z.of_nat (length (filter is_frame_write f)) = 5 /\ total_delay f = 50 /\ reachable_hue (hue_next h).
Proof.
  intros Hon Hm (k & Hk & ->); apply Z.eqb_eq in Hm.
  destruct (rainbow_frame_pixels k Hk)
    as (p0 & p1 & p2 & p3 & p4 & E & (r0 & g0 & b0 & -> & _) & (r1 & g1 & b1 & -> & _) &
        (r2 & g2 & b2 & -> & _) & (r3 & g3 & b3 & -> & _) & (r4 & g4 & b4 & -> & _)).
  unfold rainbow_start; cbn [run obind rainbow_step r_pc hue fst snd]; rewrite Hon.
  cbn [run obind rainbow_step r_pc hue fst snd]; rewrite Hm, E.
  eexists; split; [reflexivity|split; [reflexivity|split; [reflexivity|]]].
  rewrite hue_next_3k by exact Hk; exists ((k + 1) mod 120); split; [apply Z.mod_pos_bound; lia|reflexivity].
Qed.

(** C20: divergence with progress: while the LEDs are on and the
    mode is 1 the effect never returns; after [2 n] steps from the top
    of its loop it is back at the top with the hue advanced [n] times,
    having written exactly [5 n] [set_rgb_led] calls and slept
    [50 n] ms (with [hue_returns_after_120], the animation repeats
    every 240 steps, 6 s). *)
Theorem rainbow_runs_forever c h n :
  led_on c = true -> transition_mode c = 1 -> reachable_hue h ->
  exists out, run (fun _ => rainbow_step c) 0 (2 * n) (rainbow_start h) =
      Some (rainbow_start (Nat.iter n hue_next h), out) /\
    Z.of_nat (length (filter is_frame_write out)) = 5 * Z.of_nat n /\ total_delay out = 50 * Z.of_nat n.
Proof.
  intros Hon Hm Hh0.
  enough (G : forall j h, reachable_hue h ->
            exists out, run (fun _ => rainbow_step c) j (2 * n) (rainbow_start h) =
                Some (rainbow_start (Nat.iter n hue_next h), out) /\
              Z.of_nat (length (filter is_frame_write out)) = 5 * Z.of_nat n /\
              total_delay out = 50 * Z.of_nat n) by exact (G 0%nat h Hh0).
  clear h Hh0; induction n as [|n IH]; intros j h Hh.
  - exists []; split; [reflexivity|split; reflexivity].
  - destruct (rainbow_iteration c j h Hon Hm Hh) as (f & E1 & F1 & D1 & H1).
    destruct (IH (j + 2)%nat (hue_next h) H1) as (o & E2 & F2 & D2).
    exists (f ++ o); replace (2 * S n)%nat with (2 + 2 * n)%nat by lia.
    rewrite (run_app _ j 2 (2 * n) _ _ _ _ _ E1 E2), Nat.iter_succ_r, filter_app, length_app, total_delay_app.
    split; [reflexivity|split; lia].
Qed.

Lemma rainbow_runs_forever_witness :
  led_on (mk_ctrl 1 true 1 false) = true /\ transition_mode (mk_ctrl 1 true 1 false) = 1 /\
  reachable_hue hue_init /\
  exists out, run (fun _ => rainbow_step (mk_ctrl 1 true 1 false)) 0 (2 * 120) (rainbow_start hue_init) =
      Some (rainbow_start (Nat.iter 120 hue_next hue_init), out) /\
    Z.of_nat (length (filter is_frame_write out)) = 5 * Z.of_nat 120 /\ total_delay out = 50 * Z.of_nat 120.
Proof.
  assert (Hh : reachable_hue hue_init) by (exists 0; split; [lia|reflexivity]).
  split; [reflexivity|split; [reflexivity|split; [exact Hh|]]].
  exact (rainbow_runs_forever (mk_ctrl 1 true 1 false) hue_init 120 eq_refl eq_refl Hh).
Defined.

End Rainbow.
