(* ===== verification/Breathing.v ===== *)
(** * Mode 2: the breathing pulse ([breathing_loop_transition])

    [src/src/transitons.c] lines 48-95.  The [static int color_idx]
    survives across invocations and is part of the effect state, as is
    the local [color].  One step does one shared-variable read:
    [BWhile]/[BWhileMode] are the two reads of the [while] condition,
    [BGuardOn]/[BGuardChanged]/[BGuardMode] the three of the early-return
    test on line 55, [BRise s]/[BFall s] the [mode_changed] test at the
    top of each frame followed by the frame (five [set_rgb_led] calls and
    a 40 ms sleep), and [BEnd] the 300 ms pause and the palette advance.

    The brightness curve goes through [cosf] and the rise phase through
    [powf]; the theorems that depend on their values say what they
    assume of the [Libm].  The theorems: a raised [mode_changed] ends the
    effect before any further frame; a power-off is not observed until
    the end of the whole rise-and-fall cycle, so up to 202 frames are
    written after the LEDs were switched off; the envelope starts at
    [0.1f] and peaks at [1.0f]; the rise is gamma-corrected and the fall
    is not, so the brightness jumps at every colour change; the effect
    returns after exactly [dist] steps unless the LEDs are on, the mode
    is 2 and no change is flagged ([breathing_runs]), in which case it
    never returns. *)

From Stdlib Require Import ZArith List Lia Bool SpecFloat.
From S2P Require Import Prelude CFloat Globals Color.
Import ListNotations.
Open Scope Z_scope.
Open Scope c_scope.

Module Breathing.
Import Globals Color.

Section WithLibm.
Context {L : Libm}.

Definition min_brightness : float := f32_lit 1 10.
Definition range : float := f32_lit 9 10.

(** [b = min_brightness + range * (0.5f - 0.5f * cosf(M_PI * step / FADE_STEPS))]
    with the argument computed in double and converted to float. *)
Definition envelope (step : Z) : float :=
  f32_add min_brightness
    (f32_mul range
       (f32_sub f32_half
          (f32_mul f32_half
             (cosf (f32_of_f64 (f64_div (f64_mul M_PI (f64_of_Z step)) (f64_of_Z FADE_STEPS))))))).

(** Rise channel: [(uint16_t)(powf((c * b) / 4095.0f, 2.2f) * 4095)]. *)
Definition rise_channel (ch : Z) (bb : float) : option Z :=
  float_to_u16 (f32_mul (powf (f32_div (f32_mul (f32_of_Z ch) bb) (f32_of_Z 4095)) (f32_lit 22 10))
                        (f32_of_Z 4095)).

(** Fall channel: [(uint16_t)(c * b)]. *)
Definition fall_channel (ch : Z) (bb : float) : option Z :=
  float_to_u16 (f32_mul (f32_of_Z ch) bb).

(** The same colour on every LED, then the frame's sleep. *)
Definition all_leds (r g b : Z) : list cmd :=
  map (fun i => SetRgb ((uint8_t) (Z.of_nat i)) r g b) (seq 0 (Z.to_nat NUM_LEDS)) ++ [Delay FADE_DELAY_MS].

Definition rise_frame (c : rgb_color_t) (step : Z) : option (list cmd) :=
  let bb := envelope step in
  r' <- rise_channel (r c) bb ;; g' <- rise_channel (g c) bb ;; b' <- rise_channel (b c) bb ;;
  Some (all_leds r' g' b').

Definition fall_frame (c : rgb_color_t) (step : Z) : option (list cmd) :=
  let bb := envelope step in
  r' <- fall_channel (r c) bb ;; g' <- fall_channel (g c) bb ;; b' <- fall_channel (b c) bb ;;
  Some (all_leds r' g' b').

Inductive bpc :=
| BWhile | BWhileMode | BGuardOn | BGuardChanged | BGuardMode
| BRise (step : Z) | BFall (step : Z) | BEnd | BRet.

Record bstate := mk_bstate { b_pc : bpc; color : rgb_color_t; color_idx : Z }.

Definition goto (s : bstate) (pc : bpc) : bstate := mk_bstate pc (color s) (color_idx s).

Definition breathing_step (c : ctrl) (s : bstate) : option (bstate * list cmd) :=
  match b_pc s with
  | BWhile => Some (goto s (if led_on c then BWhileMode else BRet), [])
  | BWhileMode => Some (goto s (if transition_mode c =? 2 then BGuardOn else BRet), [])
  | BGuardOn => Some (goto s (if led_on c then BGuardChanged else BRet), [])
  | BGuardChanged => Some (goto s (if mode_changed c then BRet else BGuardMode), [])
  | BGuardMode =>
      if transition_mode c =? 2 then
        col <- palette_lookup (color_idx s) ;;
        Some (mk_bstate (BRise 0) col (color_idx s), [])
      else Some (goto s BRet, [])
  | BRise st =>
      if mode_changed c then Some (goto s BRet, [])
      else frame <- rise_frame (color s) st ;;
           Some (goto s (if st + 1 <=? FADE_STEPS then BRise (st + 1) else BFall FADE_STEPS), frame)
  | BFall st =>
      if mode_changed c then Some (goto s BRet, [])
      else frame <- fall_frame (color s) st ;;
           Some (goto s (if st - 1 >=? 0 then BFall (st - 1) else BEnd), frame)
  | BEnd => Some (mk_bstate BWhile (color s) (Z.rem (color_idx s + 1) 12), [Delay 300])
  | BRet => Some (s, [])
  end.

(** Entry of [breathing_loop_transition()] with the static's value; the
    local [color] is not read before it is assigned. *)
Definition breathing_start (idx : Z) : bstate := mk_bstate BWhile black idx.

(** [static int color_idx = 0;] *)
Definition color_idx_init : Z := 0.

(** Every frame of the cycle of a colour is defined (no undefined
    float-to-[uint16_t] conversion): a property of the [Libm]. *)
Definition frames_defined (c : rgb_color_t) : Prop :=
  forall st, 0 <= st <= FADE_STEPS -> rise_frame c st <> None /\ fall_frame c st <> None.

End WithLibm.

(** [M_PI] rounded to float: [0x40490FDB]. *)
Definition pi_f : float := f32_of_f64 M_PI.
Definition two_point_two : float := f32_lit 22 10.

Definition frames_ok {L : Libm} (c : rgb_color_t) : bool :=
  forall_between (fun st => match rise_frame c st, fall_frame c st with
                            | Some _, Some _ => true | _, _ => false end) 0 (FADE_STEPS + 1).

(** ** Helper lemmas *)

Lemma frames_ok_defined {L : Libm} c : frames_ok c = true -> frames_defined c.
Proof.
  intros H st Hst; pose proof (forall_between_spec _ _ _ H st ltac:(lia)) as E; simpl in E.
  destruct (rise_frame c st), (fall_frame c st); split; congruence.
Qed.

Lemma goto_goto s p q : goto (goto s p) q = goto s q.
Proof. reflexivity. Qed.

Lemma color_goto s p : color (goto s p) = color s.
Proof. reflexivity. Qed.

Lemma envelope_arg_0 : f32_of_f64 (f64_div (f64_mul M_PI (f64_of_Z 0)) (f64_of_Z FADE_STEPS)) = f32_zero.
Proof. vm_compute; reflexivity. Qed.

Lemma envelope_arg_100 :
  f32_of_f64 (f64_div (f64_mul M_PI (f64_of_Z FADE_STEPS)) (f64_of_Z FADE_STEPS)) = pi_f.
Proof. vm_compute; reflexivity. Qed.

Lemma envelope_0 {L : Libm} : cosf f32_zero = f32_one -> envelope 0 = min_brightness.
Proof. intros H; unfold envelope; rewrite envelope_arg_0, H; vm_compute; reflexivity. Qed.

Lemma envelope_100 {L : Libm} : cosf pi_f = f32_of_Z (-1) -> envelope FADE_STEPS = f32_one.
Proof. intros H; unfold envelope; rewrite envelope_arg_100, H; vm_compute; reflexivity. Qed.

Lemma rise_channel_at {L : Libm} ch bb a y :
  f32_div (f32_mul (f32_of_Z ch) bb) (f32_of_Z 4095) = a -> powf a two_point_two = y ->
  rise_channel ch bb = float_to_u16 (f32_mul y (f32_of_Z 4095)).
Proof. unfold rise_channel, two_point_two; intros -> ->; reflexivity. Qed.

Lemma frame_writes {L : Libm} c st frame :
  (rise_frame c st = Some frame \/ fall_frame c st = Some frame) ->
  length (filter is_frame_write frame) = 5%nat.
Proof.
  unfold rise_frame, fall_frame; intros [H|H];
    repeat match goal with
           | H : Globals.obind ?o _ = Some _ |- _ => destruct o; simpl in H; [|discriminate]
           end; injection H as <-; reflexivity.
Qed.

Lemma filter_frames_app l1 l2 :
  length (filter is_frame_write (l1 ++ l2)) =
  (length (filter is_frame_write l1) + length (filter is_frame_write l2))%nat.
Proof. rewrite filter_app, length_app; reflexivity. Qed.

(** The fall phase from [BFall st]: [st + 1] frames, then [BEnd]. *)
Lemma fall_run {L : Libm} c n :
  mode_changed c = false ->
  forall k s st, b_pc s = BFall st -> 0 <= st <= FADE_STEPS -> Z.of_nat n = st + 1 ->
  frames_defined (color s) ->
  exists out, run (fun _ => breathing_step c) k n s = Some (goto s BEnd, out) /\
              length (filter is_frame_write out) = (5 * n)%nat.
Proof.
  intros Hm; induction n as [|n IH]; intros k s st Hpc Hst Hn Hd; [lia|].
  destruct (fall_frame (color s) st) as [frame|] eqn:Hf; [|exfalso; apply (proj2 (Hd st Hst)), Hf].
  assert (Hs : breathing_step c s = Some (goto s (if st - 1 >=? 0 then BFall (st - 1) else BEnd), frame))
    by (unfold breathing_step; rewrite Hpc, Hm, Hf; reflexivity).
  rewrite (run_succ _ _ _ _ _ _ Hs).
  pose proof (frame_writes (color s) st frame (or_intror Hf)) as Hw.
  destruct (st - 1 >=? 0) eqn:E.
  - apply Z.geb_le in E.
    destruct (IH (S k) (goto s (BFall (st - 1))) (st - 1) eq_refl ltac:(lia) ltac:(lia) Hd)
      as (out & Hr & Hl).
    rewrite Hr; simpl; eexists; split; [reflexivity|]; rewrite filter_frames_app; lia.
  - assert (n = O) by lia; subst n; simpl.
    eexists; split; [reflexivity|]; rewrite app_nil_r; lia.
Qed.

(** The rise phase from [BRise st]: [101 - st] frames, then [BFall 100]. *)
Lemma rise_run {L : Libm} c n :
  mode_changed c = false ->
  forall k s st, b_pc s = BRise st -> 0 <= st <= FADE_STEPS -> Z.of_nat n = FADE_STEPS + 1 - st ->
  frames_defined (color s) ->
  exists out, run (fun _ => breathing_step c) k n s = Some (goto s (BFall FADE_STEPS), out) /\
              length (filter is_frame_write out) = (5 * n)%nat.
Proof.
  intros Hm; induction n as [|n IH]; intros k s st Hpc Hst Hn Hd; [lia|].
  destruct (rise_frame (color s) st) as [frame|] eqn:Hf; [|exfalso; apply (proj1 (Hd st Hst)), Hf].
  assert (Hs : breathing_step c s =
     Some (goto s (if st + 1 <=? FADE_STEPS then BRise (st + 1) else BFall FADE_STEPS), frame))
    by (unfold breathing_step; rewrite Hpc, Hm, Hf; reflexivity).
  rewrite (run_succ _ _ _ _ _ _ Hs).
  pose proof (frame_writes (color s) st frame (or_introl Hf)) as Hw.
  destruct (st + 1 <=? FADE_STEPS) eqn:E.
  - apply Z.leb_le in E.
    destruct (IH (S k) (goto s (BRise (st + 1))) (st + 1) eq_refl ltac:(lia) ltac:(lia) Hd)
      as (out & Hr & Hl).
    rewrite Hr; simpl; eexists; split; [reflexivity|]; rewrite filter_frames_app; lia.
  - assert (n = O) by (unfold FADE_STEPS in *; lia); subst n; simpl.
    eexists; split; [reflexivity|]; rewrite app_nil_r; lia.
Qed.

(** ** Termination measure

    The loop of [breathing_loop_transition] is left only by a [return];
    with the shared state fixed it runs for ever exactly when the LEDs
    are on, the mode is 2 and [mode_changed] is clear
    ([breathing_runs]).  Otherwise [dist c pc] is the number of steps
    from control point [pc] to the return: at most one rise, one fall
    and one pass through the guards. *)
Definition breathing_runs (c : ctrl) : bool :=
  led_on c && (transition_mode c =? 2) && negb (mode_changed c).

Definition dist_while (c : ctrl) : Z :=
  if negb (led_on c) then 1 else if negb (transition_mode c =? 2) then 2 else 4.

Definition dist (c : ctrl) (p : bpc) : Z :=
  let mc := mode_changed c in
  let d_end := 1 + dist_while c in
  let d_fall st := if mc then 1 else st + 1 + d_end in
  let d_rise st := if mc then 1 else FADE_STEPS - st + 1 + d_fall FADE_STEPS in
  let d_gmode := if transition_mode c =? 2 then 1 + d_rise 0 else 1 in
  let d_gchanged := if mc then 1 else 1 + d_gmode in
  let d_gon := if led_on c then 1 + d_gchanged else 1 in
  match p with
  | BRet => 0
  | BWhile => dist_while c
  | BWhileMode => if transition_mode c =? 2 then 1 + d_gon else 1
  | BGuardOn => d_gon
  | BGuardChanged => d_gchanged
  | BGuardMode => d_gmode
  | BRise st => d_rise st
  | BFall st => d_fall st
  | BEnd => d_end
  end.

(** A state the loop can be in: the static index in range, and inside
    a phase, the step in range and the colour one of the palette. *)
Definition bvalid (s : bstate) : Prop :=
  0 <= color_idx s < 12 /\
  match b_pc s with
  | BRise st | BFall st => 0 <= st <= FADE_STEPS /\ In (color s) base_colors
  | _ => True
  end.

Section Loop.
Context {L : Libm}.
Hypothesis Hpal : forall k, 0 <= k < 12 -> frames_defined (palette_at k).

Lemma frames_of_valid col st :
  In col base_colors -> 0 <= st <= FADE_STEPS ->
  (exists f, rise_frame col st = Some f) /\ (exists f, fall_frame col st = Some f).
Proof.
  intros Hc Hs; destruct (In_palette_at col Hc) as (k & Hk & ->).
  destruct (Hpal k Hk st Hs) as [H1 H2]; split; apply not_None_Some; assumption.
Qed.

(** One step from a valid state that has not returned: defined, valid,
    and (away from [breathing_runs]) one closer to the return. *)
Lemma breathing_step_valid c s :
  bvalid s -> b_pc s <> BRet ->
  exists s' o, breathing_step c s = Some (s', o) /\ bvalid s' /\
    (breathing_runs c = false -> dist c (b_pc s') + 1 = dist c (b_pc s)) /\
    (breathing_runs c = true -> b_pc s' <> BRet).
Proof.
  intros [Hi Hp] Hr; destruct s as [pc col idx]; cbn [b_pc color color_idx] in *.
  destruct c as [bl on tm mc]; unfold breathing_runs, dist, dist_while, bvalid;
    cbn [led_on transition_mode mode_changed] in *.
  destruct pc as [| | | | |st|st| |]; try congruence; unfold breathing_step; cbn [b_pc color color_idx].
  all: try (match goal with Hp : 0 <= ?st <= _ /\ In ?c base_colors |- _ =>
              destruct Hp as [Hst Hc];
              destruct (frames_of_valid c st Hc Hst) as [[fr Er] [ff Ef]]; rewrite ?Er, ?Ef end).
  all: try rewrite (palette_lookup_ok idx Hi).
  all: pose proof (Z.rem_bound_pos (idx + 1) 12 ltac:(lia) ltac:(lia)).
  all: destruct on, mc, (tm =? 2) eqn:E2;
       cbn [negb andb Globals.obind led_on transition_mode mode_changed]; rewrite ?E2, ?Z.geb_leb;
       repeat match goal with |- context [if (?a <=? ?b) then _ else _] => destruct (Z.leb_spec a b) end;
       eexists _, _; (split; [reflexivity|]); cbn [goto b_pc color color_idx]; rewrite ?E2;
       unfold FADE_STEPS in *; repeat split; try lia; try (intros; discriminate);
       try (apply palette_at_In; lia); try assumption.
Qed.

End Loop.

(** The reference [libm] of [CFloat] defines every frame of every
    palette colour (checked by evaluation, colour by colour). *)
Lemma libm_ref_frames_ok : forall k, 0 <= k < 12 -> @frames_defined libm_ref (palette_at k).
Proof.
  intros k Hk; apply frames_ok_defined.
  change (frames_ok (palette_at k)) with ((fun k => @frames_ok libm_ref (palette_at k)) k).
  by_range 0 12.
Qed.

Lemma dist_bounds c s :
  bvalid s -> breathing_runs c = false ->
  0 <= dist c (b_pc s) <= 2 * FADE_STEPS + 6 /\ (dist c (b_pc s) = 0 <-> b_pc s = BRet).
Proof.
  intros [_ Hp] Hr; destruct c as [bl on tm mc]; unfold breathing_runs, dist, dist_while in *;
    cbn [led_on transition_mode mode_changed] in *.
  destruct (b_pc s) as [| | | | |st|st| |]; unfold FADE_STEPS in *;
    destruct on, mc, (tm =? 2); cbn [negb andb] in Hr |- *; try discriminate;
    repeat match goal with H : _ /\ _ |- _ => destruct H end; (split; [lia|split; intros; solve [reflexivity|lia|discriminate]]).
Qed.

(** ** Properties of the breathing effect *)

(** C26: a raised [mode_changed] ends the effect within five steps from
    any point of its loop, before any further frame is written and after
    at most the 300 ms pause of a finished cycle. *)
Theorem breathing_mode_changed_returns {L : Libm} c s :
  mode_changed c = true -> 0 <= color_idx s < 12 ->
  exists s' out, run (fun _ => breathing_step c) 0 5 s = Some (s', out) /\ b_pc s' = BRet /\
                 filter is_frame_write out = [] /\ total_delay out <= 300.
Proof.
  intros Hm Hi; destruct s as [pc col idx]; simpl in Hi.
  assert (Hl : palette_lookup idx = Some (palette_at idx))
    by (unfold palette_lookup; replace ((0 <=? idx) && (idx <? 12)) with true
          by (symmetry; apply andb_true_iff; rewrite Z.leb_le, Z.ltb_lt; lia); reflexivity).
  destruct (led_on c) eqn:E1, (transition_mode c =? 2) eqn:E2;
    destruct pc; unfold run; repeat (unfold breathing_step; simpl; rewrite ?Hm, ?Hl, ?E1, ?E2); eexists _, _; (split; [reflexivity | split; [reflexivity | split; [reflexivity | simpl; lia]]]).
Qed.

Lemma breathing_mode_changed_returns_witness :
  exists s' out, run (fun _ => @breathing_step libm_ref (mk_ctrl 1 true 0 true)) 0 5
                   (mk_bstate (BRise 37) (palette_at 3) 3) = Some (s', out) /\ b_pc s' = BRet /\
                 filter is_frame_write out = [] /\ total_delay out <= 300.
Proof. apply breathing_mode_changed_returns; simpl; [reflexivity | lia]. Defined.

(** C6: a power-off is not observed by the rise and fall loops, which
    test only [mode_changed]: switched off at frame [st] of the rise,
    the effect still writes the [202 - st] remaining frames of the cycle
    ([5 * (202 - st)] [set_rgb_led] calls, lighting the LEDs the button
    task has just turned off) before it returns. *)
Theorem breathing_power_off_latency {L : Libm} c s st :
  led_on c = false -> mode_changed c = false -> b_pc s = BRise st -> 0 <= st <= FADE_STEPS ->
  frames_defined (color s) ->
  exists s' out,
    run (fun _ => breathing_step c) 0 (Z.to_nat (2 * FADE_STEPS + 4 - st)) s = Some (s', out) /\
    b_pc s' = BRet /\
    length (filter is_frame_write out) = (5 * Z.to_nat (2 * FADE_STEPS + 2 - st))%nat.
Proof.
  intros Hoff Hm Hpc Hst Hd.
  destruct (rise_run c (Z.to_nat (FADE_STEPS + 1 - st)) Hm 0 s st Hpc Hst ltac:(lia) Hd) as (o1 & R1 & L1).
  destruct (fall_run c (Z.to_nat (FADE_STEPS + 1)) Hm (0 + Z.to_nat (FADE_STEPS + 1 - st))
              (goto s (BFall FADE_STEPS)) FADE_STEPS eq_refl ltac:(unfold FADE_STEPS; lia)
              ltac:(lia) Hd) as (o2 & R2 & L2).
  replace (Z.to_nat (2 * FADE_STEPS + 4 - st))
    with (Z.to_nat (FADE_STEPS + 1 - st) + (Z.to_nat (FADE_STEPS + 1) + 2))%nat
    by (unfold FADE_STEPS in *; lia).
  assert (HN : Z.to_nat (2 * FADE_STEPS + 2 - st) =
                (Z.to_nat (FADE_STEPS + 1 - st) + Z.to_nat (FADE_STEPS + 1))%nat)
    by (unfold FADE_STEPS in *; lia).
  rewrite HN; clear HN.
  rewrite (run_plus _ _ _ _ _ _ _ R1), Nat.add_0_l.
  rewrite (run_plus _ _ _ _ _ _ _ R2); simpl; rewrite Hoff; simpl.
  eexists _, _; split; [reflexivity | split; [reflexivity|]].
  rewrite !filter_frames_app, L1, L2; simpl; lia.
Qed.

Lemma breathing_power_off_latency_witness :
  exists s' out,
    run (fun _ => @breathing_step libm_ref (mk_ctrl 1 false 2 false)) 0 (Z.to_nat (2 * FADE_STEPS + 4 - 0))
        (mk_bstate (BRise 0) (palette_at 0) 0) = Some (s', out) /\
    b_pc s' = BRet /\ length (filter is_frame_write out) = (5 * Z.to_nat (2 * FADE_STEPS + 2 - 0))%nat.
Proof.
  apply (@breathing_power_off_latency libm_ref); try reflexivity; [unfold FADE_STEPS; lia|].
  apply frames_ok_defined; vm_compute; reflexivity.
Defined.

(** With a [cosf] exact at [0] ([cos 0 = 1], C Annex F) and at
    the float nearest to pi ([-1]), the brightness envelope starts at
    [min_brightness = 0.1f] and peaks at exactly [1.0f]
    ([0.1f + 0.9f] rounds to 1). *)
Theorem breathing_envelope_bounds {L : Libm} :
  cosf f32_zero = f32_one -> cosf pi_f = f32_of_Z (-1) ->
  envelope 0 = min_brightness /\ envelope FADE_STEPS = f32_one /\ f32_add min_brightness range = f32_one.
Proof. intros H0 H1; split; [apply envelope_0, H0 | split; [apply envelope_100, H1 | vm_compute; reflexivity]]. Qed.

Lemma breathing_envelope_bounds_witness :
  @envelope libm_ref 0 = min_brightness /\ @envelope libm_ref FADE_STEPS = f32_one /\
  f32_add min_brightness range = f32_one.
Proof. apply (@breathing_envelope_bounds libm_ref); vm_compute; reflexivity. Defined.


(** C30: the rise phase is gamma-corrected on the colour value and the
    fall phase is not.  With a [Libm] exact at the points involved
    ([cos 0 = 1], [cos pi_f = -1], [pow(+0, y) = +0], and [powf]
    correctly rounded at the three arguments below), the red cycle starts
    its rise at 25 but ends its fall at 409, and indigo [(75, 0, 130)]
    peaks at [(0, 0, 2)] on the last rise frame and jumps to
    [(75, 0, 130)] on the next frame, the first of the fall. *)
Theorem breathing_gamma_asymmetry {L : Libm} :
  cosf f32_zero = f32_one -> cosf pi_f = f32_of_Z (-1) ->
  powf f32_zero two_point_two = f32_zero ->
  powf (S754_finite false 13421773 (-27)) two_point_two = S754_finite false 13549705 (-31) ->
  powf (S754_finite false 9832801 (-29)) two_point_two = S754_finite false 10357525 (-36) ->
  powf (S754_finite false 8521761 (-28)) two_point_two = S754_finite false 8684336 (-34) ->
  rise_frame (palette_at 0) 0 = Some (all_leds 25 0 0) /\
  fall_frame (palette_at 0) 0 = Some (all_leds 409 0 0) /\
  rise_frame (palette_at 5) FADE_STEPS = Some (all_leds 0 0 2) /\
  fall_frame (palette_at 5) FADE_STEPS = Some (all_leds 75 0 130).
Proof.
  intros Hc0 Hcpi Hp0 Hpr Hp75 Hp130.
  unfold rise_frame, fall_frame; rewrite (envelope_0 Hc0), (envelope_100 Hcpi).
  change (palette_at 0) with (mk_rgb 4095 0 0); change (palette_at 5) with (mk_rgb 75 0 130);
    cbn [r g b].
  rewrite (rise_channel_at 4095 min_brightness _ _ ltac:(vm_compute; reflexivity) Hpr).
  rewrite (rise_channel_at 0 min_brightness _ _ ltac:(vm_compute; reflexivity) Hp0).
  rewrite (rise_channel_at 75 f32_one _ _ ltac:(vm_compute; reflexivity) Hp75).
  rewrite (rise_channel_at 130 f32_one _ _ ltac:(vm_compute; reflexivity) Hp130).
  rewrite (rise_channel_at 0 f32_one _ _ ltac:(vm_compute; reflexivity) Hp0).
  vm_compute; repeat split.
Qed.

Lemma breathing_gamma_asymmetry_witness :
  @rise_frame libm_ref (palette_at 0) 0 = Some (all_leds 25 0 0) /\
  @fall_frame libm_ref (palette_at 0) 0 = Some (all_leds 409 0 0) /\
  @rise_frame libm_ref (palette_at 5) FADE_STEPS = Some (all_leds 0 0 2) /\
  @fall_frame libm_ref (palette_at 5) FADE_STEPS = Some (all_leds 75 0 130).
Proof. apply (@breathing_gamma_asymmetry libm_ref); vm_compute; reflexivity. Defined.

(** Every step keeps [color_idx] a valid index of [base_colors]. *)
Lemma breathing_step_idx {L : Libm} c s s' out :
  0 <= color_idx s < 12 -> breathing_step c s = Some (s', out) -> 0 <= color_idx s' < 12.
Proof.
  intros Hi H; unfold breathing_step in H.
  destruct (b_pc s); repeat match goal with
    | H : context [if ?b then _ else _] |- _ => destruct b
    | H : Globals.obind ?o _ = Some _ |- _ => destruct o; simpl in H; [|discriminate]
    end; injection H as <- <-; simpl; try lia.
  pose proof (Z.rem_bound_pos (color_idx s + 1) 12 ltac:(lia) ltac:(lia)); lia.
Qed.

(** C16: termination: unless the LEDs are on, the mode is 2 and
    [mode_changed] is clear, the effect returns from every state of its
    loop after exactly [dist] steps, at most [2 * FADE_STEPS + 6]
    (one rise, one fall and the guards), with a [libm] that defines
    the frames of the palette. *)
Theorem breathing_terminates {L : Libm} c s :
  (forall k, 0 <= k < 12 -> frames_defined (palette_at k)) ->
  breathing_runs c = false -> bvalid s ->
  dist c (b_pc s) <= 2 * FADE_STEPS + 6 /\
  exists s' out, run (fun _ => breathing_step c) 0 (Z.to_nat (dist c (b_pc s))) s = Some (s', out) /\
                 b_pc s' = BRet.
Proof.
  intros Hpal Hr Hv; split; [apply (dist_bounds c s Hv Hr)|].
  set (done := fun s => match b_pc s with BRet => true | _ => false end).
  destruct (run_measure (fun _ => breathing_step c) bvalid done (fun s => Z.to_nat (dist c (b_pc s))))
    with (s := s) (k := 0%nat) as (s' & o & E & _ & Hd); auto.
  - intros s0 Hv0; destruct (dist_bounds c s0 Hv0 Hr) as [Hb Hz]; unfold done; split; intros H.
    + rewrite (proj1 Hz ltac:(lia)); reflexivity.
    + destruct (b_pc s0); try discriminate; reflexivity.
  - intros _ s0 Hv0 Hd0.
    assert (Hn : b_pc s0 <> BRet) by (unfold done in Hd0; destruct (b_pc s0); congruence).
    destruct (breathing_step_valid Hpal c s0 Hv0 Hn) as (s1 & o1 & E1 & Hv1 & Hm & _).
    exists s1, o1; split; [exact E1|split; [exact Hv1|]].
    specialize (Hm Hr); pose proof (proj1 (dist_bounds c s1 Hv1 Hr)); lia.
  - exists s', o; split; [exact E|unfold done in Hd; destruct (b_pc s'); congruence].
Qed.

Lemma breathing_terminates_witness :
  (forall k, 0 <= k < 12 -> @frames_defined libm_ref (palette_at k)) /\
  breathing_runs (mk_ctrl 1 false 2 false) = false /\
  bvalid (mk_bstate (BRise 0) (palette_at 3) 3) /\
  dist (mk_ctrl 1 false 2 false) (BRise 0) <= 2 * FADE_STEPS + 6 /\
  exists s' out, run (fun _ => @breathing_step libm_ref (mk_ctrl 1 false 2 false)) 0
                     (Z.to_nat (dist (mk_ctrl 1 false 2 false) (BRise 0)))
                     (mk_bstate (BRise 0) (palette_at 3) 3) = Some (s', out) /\ b_pc s' = BRet.
Proof.
  assert (Hv : bvalid (mk_bstate (BRise 0) (palette_at 3) 3))
    by (split; [cbn; lia|split; [unfold FADE_STEPS; cbn; lia|apply palette_at_In; lia]]).
  split; [exact libm_ref_frames_ok|]; split; [reflexivity|]; split; [exact Hv|].
  exact (@breathing_terminates libm_ref (mk_ctrl 1 false 2 false) _ libm_ref_frames_ok eq_refl Hv).
Defined.

(** C17: divergence: while the LEDs are on, the mode is 2 and
    [mode_changed] is clear, the effect never returns: after any number
    of steps from a state of its loop it is still in the loop, and
    every step is defined. *)
Theorem breathing_never_returns {L : Libm} c s :
  (forall k, 0 <= k < 12 -> frames_defined (palette_at k)) ->
  breathing_runs c = true -> bvalid s -> b_pc s <> BRet ->
  forall n, exists s' out, run (fun _ => breathing_step c) 0 n s = Some (s', out) /\
                           bvalid s' /\ b_pc s' <> BRet.
Proof.
  intros Hpal Hr Hv Hn n.
  destruct (run_forever (fun _ => breathing_step c) (fun s => bvalid s /\ b_pc s <> BRet))
    with (n := n) (s := s) (k := 0%nat) as (s' & o & E & Hv' & Hn').
  - intros _ s0 [Hv0 Hn0].
    destruct (breathing_step_valid Hpal c s0 Hv0 Hn0) as (s1 & o1 & E1 & Hv1 & _ & Hm).
    exists s1, o1; auto.
  - split; assumption.
  - exists s', o; auto.
Qed.

Lemma breathing_never_returns_witness :
  (forall k, 0 <= k < 12 -> @frames_defined libm_ref (palette_at k)) /\
  breathing_runs (mk_ctrl 1 true 2 false) = true /\
  bvalid (mk_bstate BWhile black 0) /\ BWhile <> BRet /\
  exists s' out, run (fun _ => @breathing_step libm_ref (mk_ctrl 1 true 2 false)) 0 1000
                     (mk_bstate BWhile black 0) = Some (s', out) /\ bvalid s' /\ b_pc s' <> BRet.
Proof.
  assert (Hv : bvalid (mk_bstate BWhile black 0)) by (split; [cbn; lia|exact I]).
  split; [exact libm_ref_frames_ok|]; split; [reflexivity|]; split; [exact Hv|]; split; [discriminate|].
  exact (@breathing_never_returns libm_ref (mk_ctrl 1 true 2 false) _ libm_ref_frames_ok eq_refl Hv
           ltac:(discriminate) 1000).
Defined.

End Breathing.
