(* ===== verification/Dissolve.v ===== *)
(** * Mode 0: the per-LED dissolve ([individual_dissolve_transition])

    [src/src/transitons.c] lines 124-163.  The locals [shared_color],
    [current_color[NUM_LEDS]] and [next_color[NUM_LEDS]] are the effect
    state; the random words of [esp_random()] are the step's argument.
    One step does at most one shared-variable read: [DStart] draws the
    shared colour, [DInit s] is frame [s] of the opening fade from white
    (five [set_rgb_led] calls and a 40 ms sleep; the last one also fills
    [current_color]), [DWhile]/[DWhileMode] the two reads of the [while]
    condition, [DFix i] the [led_on] test of fixture [i] and its random
    target, [DOut i s]/[DIn i s] frame [s] of its fade to white and from
    white, and [DHold i] its random hold.

    The theorems: every step from a well-formed state is defined and
    keeps it well-formed (every colour a PWM colour); the opening fade is
    written whatever the shared state; after a mode change the effect
    still completes the whole pass over the five LEDs, up to 1010 frames
    and over 45 s, before it returns; after a power-off it returns only
    at the next test of [led_on], after up to 505 more calls; while the
    LEDs are on and the mode is 0 it never returns; the hold time never
    reaches [HOLD_TIME_MAX_MS].  The latency proofs share the generic
    [Globals.run_accounted]. *)

From Stdlib Require Import ZArith List Lia Bool SpecFloat.
From S2P Require Import Prelude CFloat Globals Color.
Import ListNotations.
Open Scope Z_scope.
Open Scope c_scope.

Module Dissolve.
Import Globals Color.

Inductive dpc :=
| DStart | DInit (step : Z) | DWhile | DWhileMode
| DFix (i : Z) | DOut (i step : Z) | DIn (i step : Z) | DHold (i : Z) | DRet.

Record dstate := mk_dstate {
  d_pc : dpc;
  shared_color : rgb_color_t;
  current_color : list rgb_color_t;
  next_color : list rgb_color_t
}.

Definition goto (s : dstate) (pc : dpc) : dstate :=
  mk_dstate pc (shared_color s) (current_color s) (next_color s).

Definition led_at (l : list rgb_color_t) (i : Z) : rgb_color_t := nth (Z.to_nat i) l black.

(** [int hold = HOLD_TIME_MIN_MS + (esp_random() % (HOLD_TIME_MAX_MS - HOLD_TIME_MIN_MS));]
    in [unsigned] arithmetic. *)
Definition hold_time (rnd : Z) : Z :=
  HOLD_TIME_MIN_MS + rnd mod (HOLD_TIME_MAX_MS - HOLD_TIME_MIN_MS).

(** One frame of the opening fade: the same colour on all five LEDs. *)
Definition init_frame (c : rgb_color_t) : list cmd :=
  map (fun i => SetRgb ((uint8_t) (Z.of_nat i)) (r c) (g c) (b c)) (seq 0 (Z.to_nat NUM_LEDS))
  ++ [Delay FADE_DELAY_MS].

Definition led_frame (i : Z) (c : rgb_color_t) : list cmd :=
  [SetRgb ((uint8_t) i) (r c) (g c) (b c); Delay FADE_DELAY_MS].

Definition dissolve_step (c : ctrl) (rnd : Z) (s : dstate) : option (dstate * list cmd) :=
  match d_pc s with
  | DStart =>
      Some (mk_dstate (DInit 0) (get_random_color rnd) (current_color s) (next_color s), [])
  | DInit st =>
      col <- interpolate_easeInOut white (shared_color s) (fade_progress st) ;;
      if st + 1 <=? FADE_STEPS then Some (goto s (DInit (st + 1)), init_frame col)
      else Some (mk_dstate DWhile (shared_color s)
                   (repeat (shared_color s) (Z.to_nat NUM_LEDS)) (next_color s), init_frame col)
  | DWhile => Some (goto s (if led_on c then DWhileMode else DRet), [])
  | DWhileMode => Some (goto s (if transition_mode c =? 0 then DFix 0 else DRet), [])
  | DFix i =>
      if negb (led_on c) then Some (goto s DRet, [])
      else Some (mk_dstate (DOut i 0) (shared_color s) (current_color s)
                   (list_set (next_color s) (Z.to_nat i) (get_random_color rnd)), [])
  | DOut i st =>
      col <- interpolate_easeInOut (led_at (current_color s) i) white (fade_progress st) ;;
      Some (goto s (if st + 1 <=? FADE_STEPS then DOut i (st + 1) else DIn i 0), led_frame i col)
  | DIn i st =>
      col <- interpolate_easeInOut white (led_at (next_color s) i) (fade_progress st) ;;
      if st + 1 <=? FADE_STEPS then Some (goto s (DIn i (st + 1)), led_frame i col)
      else Some (mk_dstate (DHold i) (shared_color s)
                   (list_set (current_color s) (Z.to_nat i) (led_at (next_color s) i))
                   (next_color s), led_frame i col)
  | DHold i =>
      Some (goto s (if i + 1 <? NUM_LEDS then DFix (i + 1) else DWhile), [Delay (hold_time rnd)])
  | DRet => Some (s, [])
  end.

(** Entry of [individual_dissolve_transition()]: the arrays are not yet
    written (their contents are never read before they are). *)
Definition dissolve_start : dstate :=
  mk_dstate DStart black (repeat black (Z.to_nat NUM_LEDS)) (repeat black (Z.to_nat NUM_LEDS)).

(** ** Well-formed states *)

Definition pc_ok (pc : dpc) : Prop :=
  match pc with
  | DInit st => 0 <= st <= FADE_STEPS
  | DFix i | DHold i => 0 <= i < NUM_LEDS
  | DOut i st | DIn i st => 0 <= i < NUM_LEDS /\ 0 <= st <= FADE_STEPS
  | _ => True
  end.

Definition dissolve_inv (s : dstate) : Prop :=
  pc_ok (d_pc s) /\ pwm_color (shared_color s) /\
  Forall pwm_color (current_color s) /\ Forall pwm_color (next_color s) /\
  length (current_color s) = 5%nat /\ length (next_color s) = 5%nat.

(** ** Measures of the rest of a pass

    With the LEDs on and the mode changed, the effect runs to the end of
    its pass over the LEDs: [remaining] counts the steps until it
    returns, [frames_left] the [set_rgb_led] calls still to come, and
    [delay_floor] the least sleep (in ms) still to come. *)

Definition fixture_steps : Z := 2 * (FADE_STEPS + 1) + 2.
Definition fixture_frames : Z := 2 * (FADE_STEPS + 1).
Definition fixture_delay : Z := FADE_DELAY_MS * fixture_frames + HOLD_TIME_MIN_MS.

Definition remaining (pc : dpc) : Z :=
  match pc with
  | DStart => 1 + (FADE_STEPS + 1) + 2
  | DInit st => (FADE_STEPS + 1 - st) + 2
  | DWhile => 2
  | DWhileMode => 1
  | DFix i => fixture_steps * (NUM_LEDS - i) + 2
  | DOut i st => (FADE_STEPS + 1 - st) + (FADE_STEPS + 1) + 1 + fixture_steps * (NUM_LEDS - 1 - i) + 2
  | DIn i st => (FADE_STEPS + 1 - st) + 1 + fixture_steps * (NUM_LEDS - 1 - i) + 2
  | DHold i => 1 + fixture_steps * (NUM_LEDS - 1 - i) + 2
  | DRet => 0
  end.

Definition frames_left (pc : dpc) : Z :=
  match pc with
  | DStart => NUM_LEDS * (FADE_STEPS + 1)
  | DInit st => NUM_LEDS * (FADE_STEPS + 1 - st)
  | DWhile | DWhileMode | DRet => 0
  | DFix i => fixture_frames * (NUM_LEDS - i)
  | DOut i st => (FADE_STEPS + 1 - st) + (FADE_STEPS + 1) + fixture_frames * (NUM_LEDS - 1 - i)
  | DIn i st => (FADE_STEPS + 1 - st) + fixture_frames * (NUM_LEDS - 1 - i)
  | DHold i => fixture_frames * (NUM_LEDS - 1 - i)
  end.

Definition delay_floor (pc : dpc) : Z :=
  match pc with
  | DStart => FADE_DELAY_MS * (FADE_STEPS + 1)
  | DInit st => FADE_DELAY_MS * (FADE_STEPS + 1 - st)
  | DWhile | DWhileMode | DRet => 0
  | DFix i => fixture_delay * (NUM_LEDS - i)
  | DOut i st => FADE_DELAY_MS * ((FADE_STEPS + 1 - st) + (FADE_STEPS + 1)) + HOLD_TIME_MIN_MS
                 + fixture_delay * (NUM_LEDS - 1 - i)
  | DIn i st => FADE_DELAY_MS * (FADE_STEPS + 1 - st) + HOLD_TIME_MIN_MS
                + fixture_delay * (NUM_LEDS - 1 - i)
  | DHold i => HOLD_TIME_MIN_MS + fixture_delay * (NUM_LEDS - 1 - i)
  end.

(** With the LEDs off, the effect still finishes what it is doing: the
    initial fade of every LED, or the fade out, fade in and hold of the
    current LED, and returns at the next test of [led_on]:
    [off_remaining] steps, [off_frames] calls and at least [off_delay]
    ms of sleep ([m] is the mode, read once by the [while]). *)
Definition off_remaining (m : Z) (pc : dpc) : Z :=
  match pc with
  | DStart => 1 + (FADE_STEPS + 1) + 1
  | DInit st => (FADE_STEPS + 1 - st) + 1
  | DWhile | DFix _ => 1
  | DWhileMode => if m =? 0 then 2 else 1
  | DOut _ st => (FADE_STEPS + 1 - st) + (FADE_STEPS + 1) + 2
  | DIn _ st => (FADE_STEPS + 1 - st) + 2
  | DHold _ => 2
  | DRet => 0
  end.

Definition off_frames (pc : dpc) : Z :=
  match pc with
  | DStart => NUM_LEDS * (FADE_STEPS + 1)
  | DInit st => NUM_LEDS * (FADE_STEPS + 1 - st)
  | DOut _ st => (FADE_STEPS + 1 - st) + (FADE_STEPS + 1)
  | DIn _ st => FADE_STEPS + 1 - st
  | _ => 0
  end.

Definition off_delay (pc : dpc) : Z :=
  match pc with
  | DStart => FADE_DELAY_MS * (FADE_STEPS + 1)
  | DInit st => FADE_DELAY_MS * (FADE_STEPS + 1 - st)
  | DOut _ st => FADE_DELAY_MS * ((FADE_STEPS + 1 - st) + (FADE_STEPS + 1)) + HOLD_TIME_MIN_MS
  | DIn _ st => FADE_DELAY_MS * (FADE_STEPS + 1 - st) + HOLD_TIME_MIN_MS
  | DHold _ => HOLD_TIME_MIN_MS
  | _ => 0
  end.

(** ** Helper lemmas *)

Lemma led_at_pwm l i : Forall pwm_color l -> length l = 5%nat -> 0 <= i < NUM_LEDS -> pwm_color (led_at l i).
Proof.
  intros H Hl Hi; rewrite Forall_forall in H; apply H, nth_In; unfold NUM_LEDS in Hi; lia.
Qed.

Lemma hold_time_range rnd : HOLD_TIME_MIN_MS <= hold_time rnd < HOLD_TIME_MAX_MS.
Proof.
  unfold hold_time, HOLD_TIME_MIN_MS, HOLD_TIME_MAX_MS; change (3000 - 1000) with 2000.
  pose proof (Z.mod_pos_bound rnd 2000 ltac:(lia)); lia.
Qed.

Lemma repeat_pwm c n : pwm_color c -> Forall pwm_color (repeat c n).
Proof. intros H; induction n; constructor; auto. Qed.

Lemma frames_init_frame c : length (filter is_frame_write (init_frame c)) = 5%nat.
Proof. reflexivity. Qed.

Lemma frames_led_frame i c : length (filter is_frame_write (led_frame i c)) = 1%nat.
Proof. reflexivity. Qed.

Lemma delay_init_frame c : total_delay (init_frame c) = FADE_DELAY_MS.
Proof. reflexivity. Qed.

Lemma delay_led_frame i c : total_delay (led_frame i c) = FADE_DELAY_MS.
Proof. reflexivity. Qed.

Ltac dissolve_arith :=
  unfold remaining, frames_left, delay_floor, off_remaining, off_frames, off_delay, pc_ok in *;
  cbv beta iota zeta;
  unfold fixture_delay, fixture_steps, fixture_frames,
    NUM_LEDS, FADE_STEPS, FADE_DELAY_MS, HOLD_TIME_MIN_MS in *; lia.

Lemma mk_inv pc sh cur nxt :
  pc_ok pc -> pwm_color sh -> Forall pwm_color cur -> Forall pwm_color nxt ->
  length cur = 5%nat -> length nxt = 5%nat -> dissolve_inv (mk_dstate pc sh cur nxt).
Proof. unfold dissolve_inv; simpl; tauto. Qed.

Ltac inv_solve :=
  match goal with
  | |- pwm_color (get_random_color _) => apply get_random_color_pwm
  | |- Forall _ (repeat _ _) => apply repeat_pwm; assumption
  | |- Forall _ (list_set _ _ _) =>
      apply In_list_set; [assumption | first [apply get_random_color_pwm | apply led_at_pwm; auto; lia]]
  | |- length (list_set _ _ _) = _ => rewrite length_list_set; assumption
  | |- length (repeat _ _) = _ => apply repeat_length
  | |- Forall _ (_ :: _) => repeat (apply Forall_cons; [assumption|]); apply Forall_nil
  | |- length (_ :: _) = _ => reflexivity
  | |- _ => first [assumption | exact I | (unfold pc_ok, NUM_LEDS, FADE_STEPS in *; lia)]
  end.

Ltac if_cases :=
  repeat match goal with
  | |- context [if ?b then _ else _] =>
      let E := fresh "E" in
      destruct b eqn:E; rewrite ?Z.leb_le, ?Z.leb_gt, ?Z.ltb_lt, ?Z.ltb_ge, ?Z.eqb_eq, ?Z.eqb_neq in E
  end.

(** Every step from a well-formed state is defined and keeps the state
    well-formed. *)
Lemma dissolve_step_ok c rnd s :
  dissolve_inv s ->
  exists s' out, dissolve_step c rnd s = Some (s', out) /\ dissolve_inv s'.
Proof.
  intros (Hpc & Hsh & Hcur & Hnext & Lc & Ln); destruct s as [pc sh cur nxt]; simpl in *.
  unfold dissolve_step; destruct pc; simpl in Hpc |- *;
    try (destruct (interpolate_fade_pwm white sh step white_pwm Hsh Hpc) as (col & -> & _); simpl);
    try (destruct (interpolate_fade_pwm (led_at cur i) white step (led_at_pwm cur i Hcur Lc ltac:(lia))
                    white_pwm ltac:(lia)) as (col & -> & _); simpl);
    try (destruct (interpolate_fade_pwm white (led_at nxt i) step white_pwm
                    (led_at_pwm nxt i Hnext Ln ltac:(lia)) ltac:(lia)) as (col & -> & _); simpl);
    if_cases; simpl; eexists _, _; (split; [reflexivity|]); apply mk_inv; inv_solve.
Qed.


Ltac if_cases_in H :=
  repeat match type of H with
  | context [if ?b then _ else _] =>
      let E := fresh "E" in
      destruct b eqn:E; rewrite ?Z.leb_le, ?Z.leb_gt, ?Z.ltb_lt, ?Z.ltb_ge, ?Z.eqb_eq, ?Z.eqb_neq in E
  end.

Lemma remaining_pos pc : pc_ok pc -> pc <> DRet -> 1 <= remaining pc.
Proof. destruct pc; intros H Hne; try congruence; dissolve_arith. Qed.

(** One step with the LEDs on and the mode changed: one step less to
    go, the frames written are accounted for, and the sleep is at least
    the floor's decrease. *)
Lemma step_mode_changed c rnd s :
  dissolve_inv s -> led_on c = true -> transition_mode c <> 0 -> d_pc s <> DRet ->
  exists s' out, dissolve_step c rnd s = Some (s', out) /\ dissolve_inv s' /\
    remaining (d_pc s') + 1 = remaining (d_pc s) /\
    Z.of_nat (length (filter is_frame_write out)) + frames_left (d_pc s') = frames_left (d_pc s) /\
    total_delay out + delay_floor (d_pc s') >= delay_floor (d_pc s).
Proof.
  intros Hinv Hon Hm Hne.
  destruct (dissolve_step_ok c rnd s Hinv) as (s' & out & Hs & Hinv').
  exists s', out; split; [exact Hs | split; [exact Hinv'|]].
  apply Z.eqb_neq in Hm; pose proof (hold_time_range rnd) as Hh.
  destruct Hinv as (Hpc & _); destruct s as [pc sh cur nxt]; simpl in *; unfold dissolve_step in Hs.
  destruct pc; simpl in Hs; try congruence;
    try (destruct (interpolate_easeInOut _ _ _); simpl in Hs; [|discriminate]);
    rewrite ?Hon, ?Hm in Hs; simpl in Hs; if_cases_in Hs; injection Hs as <- <-;
    rewrite ?frames_init_frame, ?frames_led_frame, ?delay_init_frame, ?delay_led_frame;
    cbn [d_pc goto filter is_frame_write length total_delay fold_right delay_ms Z.of_nat];
    unfold HOLD_TIME_MIN_MS, HOLD_TIME_MAX_MS in Hh; dissolve_arith.
Qed.

(** One step with the LEDs off: one step less to go, the frames written
    are accounted for, and the sleep is at least the floor's decrease. *)
Lemma step_power_off c rnd s :
  dissolve_inv s -> led_on c = false -> d_pc s <> DRet ->
  exists s' out, dissolve_step c rnd s = Some (s', out) /\ dissolve_inv s' /\
    off_remaining (transition_mode c) (d_pc s') + 1 = off_remaining (transition_mode c) (d_pc s) /\
    Z.of_nat (length (filter is_frame_write out)) + off_frames (d_pc s') = off_frames (d_pc s) /\
    total_delay out + off_delay (d_pc s') >= off_delay (d_pc s).
Proof.
  intros Hinv Hoff Hne.
  destruct (dissolve_step_ok c rnd s Hinv) as (s' & out & Hs & Hinv').
  exists s', out; split; [exact Hs | split; [exact Hinv'|]].
  pose proof (hold_time_range rnd) as Hh.
  destruct Hinv as (Hpc & _); destruct s as [pc sh cur nxt]; simpl in *; unfold dissolve_step in Hs.
  destruct pc; simpl in Hs; try congruence;
    try (destruct (interpolate_easeInOut _ _ _); simpl in Hs; [|discriminate]);
    rewrite ?Hoff in Hs; simpl in Hs; if_cases_in Hs; injection Hs as <- <-;
    rewrite ?frames_init_frame, ?frames_led_frame, ?delay_init_frame, ?delay_led_frame;
    cbn [d_pc goto filter is_frame_write length total_delay fold_right delay_ms Z.of_nat];
    unfold off_remaining; if_cases;
    unfold HOLD_TIME_MIN_MS, HOLD_TIME_MAX_MS in Hh; dissolve_arith.
Qed.

Definition is_ret (s : dstate) : bool := match d_pc s with DRet => true | _ => false end.

Lemma is_ret_false s : is_ret s = false -> d_pc s <> DRet.
Proof. unfold is_ret; destruct (d_pc s); congruence. Qed.

Lemma run_mode_changed c (rs : nat -> Z) n :
  forall k s, dissolve_inv s -> led_on c = true -> transition_mode c <> 0 ->
  Z.of_nat n = remaining (d_pc s) ->
  exists s' out, run (fun k => dissolve_step c (rs k)) k n s = Some (s', out) /\ d_pc s' = DRet /\
    Z.of_nat (length (filter is_frame_write out)) = frames_left (d_pc s) /\
    total_delay out >= delay_floor (d_pc s).
Proof.
  intros k s Hinv Hon Hm Hn.
  destruct (run_accounted (fun k => dissolve_step c (rs k)) dissolve_inv is_ret
              (fun s => remaining (d_pc s)) (fun s => frames_left (d_pc s)) (fun s => delay_floor (d_pc s)))
    with (n := n) (k := k) (s := s) as (s' & o & Hr & _ & Hd & F & D); auto.
  - intros s0 _; unfold is_ret; destruct (d_pc s0); try discriminate; simpl; lia.
  - intros s0 Hi0 Hd0; apply remaining_pos; [apply Hi0|apply is_ret_false, Hd0].
  - intros k0 s0 Hi0 Hd0; apply step_mode_changed; auto; apply is_ret_false, Hd0.
  - exists s', o; split; [exact Hr|split; [|auto]]; unfold is_ret in Hd; destruct (d_pc s'); congruence.
Qed.

Lemma dissolve_start_inv : dissolve_inv dissolve_start.
Proof.
  unfold dissolve_start; apply mk_inv; try exact I; try (apply repeat_pwm); try reflexivity;
    unfold pwm_color, color_in, PWM_RESOLUTION; simpl; lia.
Qed.

(** With the LEDs on and the mode 0, no step from the loop returns. *)
Lemma step_running c rnd s :
  dissolve_inv s -> led_on c = true -> transition_mode c = 0 -> d_pc s <> DRet ->
  exists s' out, dissolve_step c rnd s = Some (s', out) /\ dissolve_inv s' /\ d_pc s' <> DRet.
Proof.
  intros Hinv Hon Hm Hne.
  destruct (dissolve_step_ok c rnd s Hinv) as (s' & out & Hs & Hinv').
  exists s', out; split; [exact Hs | split; [exact Hinv'|]].
  destruct s as [pc sh cur nxt]; simpl in *; unfold dissolve_step in Hs.
  destruct pc; simpl in Hs; try congruence;
    try (destruct (interpolate_easeInOut _ _ _); simpl in Hs; [|discriminate]);
    rewrite ?Hon, ?Hm in Hs; simpl in Hs; if_cases_in Hs; injection Hs as <- <-; discriminate.
Qed.

(** ** Properties of the dissolve effect *)

(** C21: every step of the dissolve from a well-formed state is defined
    (no interpolation overflows, no array index leaves [0, 5)) and the
    state stays well-formed: the shared, current and next colours are
    PWM colours; the entry state is well-formed. *)
Theorem dissolve_step_safe c rnd s :
  dissolve_inv s ->
  dissolve_inv dissolve_start /\
  exists s' out, dissolve_step c rnd s = Some (s', out) /\ dissolve_inv s'.
Proof.
  intros H; split; [apply dissolve_start_inv | apply dissolve_step_ok, H].
Qed.

Lemma dissolve_step_safe_witness :
  dissolve_inv (mk_dstate (DIn 2 50) (palette_at 1) (repeat (palette_at 3) 5) (repeat (palette_at 6) 5)) /\
  (dissolve_inv dissolve_start /\
   exists s' out, dissolve_step (mk_ctrl 0 true 0 false) 123456
                    (mk_dstate (DIn 2 50) (palette_at 1) (repeat (palette_at 3) 5) (repeat (palette_at 6) 5))
                  = Some (s', out) /\ dissolve_inv s').
Proof.
  assert (H : dissolve_inv (mk_dstate (DIn 2 50) (palette_at 1) (repeat (palette_at 3) 5)
                                      (repeat (palette_at 6) 5)))
    by (apply mk_inv; try (apply repeat_pwm); try (apply palette_at_pwm); try reflexivity;
        unfold pc_ok, NUM_LEDS, FADE_STEPS; lia).
  split; [exact H | apply (dissolve_step_safe _ _ _ H)].
Defined.

(** C7: the dissolve never looks at [mode_changed], and tests the mode
    only between passes: after a mode change with the LEDs on, from any
    well-formed state the effect still runs to the end of its pass and
    returns after exactly [remaining] steps, having written
    [frames_left] more [set_rgb_led] calls and slept at least
    [delay_floor] ms (from the start of a pass: 1022 steps, 1010 calls,
    45.4 s), whatever the random words. *)
Theorem dissolve_mode_change_latency c (rs : nat -> Z) s :
  dissolve_inv s -> led_on c = true -> transition_mode c <> 0 ->
  exists s' out,
    run (fun k => dissolve_step c (rs k)) 0 (Z.to_nat (remaining (d_pc s))) s = Some (s', out) /\
    d_pc s' = DRet /\
    Z.of_nat (length (filter is_frame_write out)) = frames_left (d_pc s) /\
    total_delay out >= delay_floor (d_pc s).
Proof.
  intros Hinv Hon Hm.
  assert (0 <= remaining (d_pc s)) by (destruct Hinv as [Hpc _]; destruct (d_pc s); dissolve_arith).
  apply run_mode_changed; auto; lia.
Qed.

Lemma dissolve_mode_change_latency_witness :
  remaining (DFix 0) = 1022 /\ frames_left (DFix 0) = 1010 /\ delay_floor (DFix 0) = 45400 /\
  exists s' out,
    run (fun k => dissolve_step (mk_ctrl 1 true 1 true) ((fun _ => 7) k)) 0 (Z.to_nat (remaining (DFix 0)))
        (mk_dstate (DFix 0) (palette_at 0) (repeat (palette_at 1) 5) (repeat (palette_at 2) 5))
      = Some (s', out) /\ d_pc s' = DRet /\
    Z.of_nat (length (filter is_frame_write out)) = frames_left (DFix 0) /\
    total_delay out >= delay_floor (DFix 0).
Proof.
  split; [reflexivity | split; [reflexivity | split; [reflexivity|]]].
  apply (dissolve_mode_change_latency (mk_ctrl 1 true 1 true) (fun _ => 7)
           (mk_dstate (DFix 0) (palette_at 0) (repeat (palette_at 1) 5) (repeat (palette_at 2) 5)));
    [|reflexivity|simpl; lia].
  apply mk_inv; try (apply repeat_pwm); try (apply palette_at_pwm); try reflexivity;
    unfold pc_ok, NUM_LEDS; lia.
Defined.

(** C31: the hold after each LED's fade lasts [1000 + r % 2000] ms:
    always at least [HOLD_TIME_MIN_MS] and never [HOLD_TIME_MAX_MS], so
    the draw is over [1000, 2999], not the inclusive range the constant
    names suggest; every value of it is drawn by some random word. *)
Theorem hold_time_bounds rnd :
  is_u32 rnd ->
  HOLD_TIME_MIN_MS <= hold_time rnd <= HOLD_TIME_MAX_MS - 1 /\
  (forall h, HOLD_TIME_MIN_MS <= h < HOLD_TIME_MAX_MS -> hold_time (h - HOLD_TIME_MIN_MS) = h).
Proof.
  intros _; split; [pose proof (hold_time_range rnd); lia|].
  intros h Hh; unfold hold_time, HOLD_TIME_MIN_MS, HOLD_TIME_MAX_MS in *; change (3000 - 1000) with 2000.
  rewrite Z.mod_small by lia; lia.
Qed.

Lemma hold_time_bounds_witness :
  HOLD_TIME_MIN_MS <= hold_time 4294967295 <= HOLD_TIME_MAX_MS - 1 /\
  (forall h, HOLD_TIME_MIN_MS <= h < HOLD_TIME_MAX_MS -> hold_time (h - HOLD_TIME_MIN_MS) = h).
Proof. apply hold_time_bounds; unfold is_u32; lia. Defined.

(** C18: a power-off is observed only at the next test of [led_on]
    (before each LED's fade, and at the [while]): from every state of
    the effect, with the LEDs off it returns after exactly
    [off_remaining] steps, having made [off_frames] more [set_rgb_led]
    calls, relighting the LEDs the button task has just turned off, and
    slept at least [off_delay] ms.  At worst that is the initial fade of
    all five LEDs (505 calls, which never reads [led_on]) or one LED's
    fade out and in (202 calls, at least 9.08 s with its hold). *)
Theorem dissolve_power_off_latency c (rs : nat -> Z) s :
  dissolve_inv s -> led_on c = false ->
  off_remaining (transition_mode c) (d_pc s) <= 2 * FADE_STEPS + 4 /\
  off_frames (d_pc s) <= NUM_LEDS * (FADE_STEPS + 1) /\
  exists s' out,
    run (fun k => dissolve_step c (rs k)) 0 (Z.to_nat (off_remaining (transition_mode c) (d_pc s))) s
      = Some (s', out) /\ d_pc s' = DRet /\
    Z.of_nat (length (filter is_frame_write out)) = off_frames (d_pc s) /\
    total_delay out >= off_delay (d_pc s).
Proof.
  intros Hinv Hoff.
  assert (Hb : forall s0, dissolve_inv s0 -> 0 <= off_remaining (transition_mode c) (d_pc s0) <= 2 * FADE_STEPS + 4 /\
                 0 <= off_frames (d_pc s0) <= NUM_LEDS * (FADE_STEPS + 1))
    by (intros s0 [Hp _]; destruct (d_pc s0); unfold off_remaining; if_cases; dissolve_arith).
  split; [apply Hb, Hinv|split; [apply Hb, Hinv|]].
  destruct (run_accounted (fun k => dissolve_step c (rs k)) dissolve_inv is_ret
              (fun s => off_remaining (transition_mode c) (d_pc s)) (fun s => off_frames (d_pc s))
              (fun s => off_delay (d_pc s)))
    with (n := Z.to_nat (off_remaining (transition_mode c) (d_pc s))) (k := 0%nat) (s := s)
    as (s' & o & Hr & _ & Hd & F & D); auto.
  - intros s0 _; unfold is_ret; destruct (d_pc s0); try discriminate; simpl; lia.
  - intros s0 [Hp _] Hd0; apply is_ret_false in Hd0; destruct (d_pc s0); try congruence;
      unfold off_remaining; if_cases; dissolve_arith.
  - intros k0 s0 Hi0 Hd0; apply step_power_off; auto; apply is_ret_false, Hd0.
  - rewrite Z2Nat.id; [reflexivity|apply Hb, Hinv].
  - exists s', o; split; [exact Hr|split; [|auto]]; unfold is_ret in Hd; destruct (d_pc s'); congruence.
Qed.

Lemma dissolve_power_off_latency_witness :
  dissolve_inv (mk_dstate (DOut 2 0) (palette_at 0) (repeat (palette_at 1) 5) (repeat (palette_at 2) 5)) /\
  off_remaining 0 (DOut 2 0) = 204 /\ off_frames (DOut 2 0) = 202 /\ off_delay (DOut 2 0) = 9080 /\
  exists s' out,
    run (fun k => dissolve_step (mk_ctrl 1 false 0 false) ((fun _ => 7) k)) 0
        (Z.to_nat (off_remaining 0 (DOut 2 0)))
        (mk_dstate (DOut 2 0) (palette_at 0) (repeat (palette_at 1) 5) (repeat (palette_at 2) 5))
      = Some (s', out) /\ d_pc s' = DRet /\
    Z.of_nat (length (filter is_frame_write out)) = off_frames (DOut 2 0) /\
    total_delay out >= off_delay (DOut 2 0).
Proof.
  assert (Hi : dissolve_inv (mk_dstate (DOut 2 0) (palette_at 0) (repeat (palette_at 1) 5)
                                       (repeat (palette_at 2) 5)))
    by (apply mk_inv; try (apply repeat_pwm); try (apply palette_at_pwm); try reflexivity;
        unfold pc_ok, NUM_LEDS, FADE_STEPS; lia).
  split; [exact Hi|split; [reflexivity|split; [reflexivity|split; [reflexivity|]]]].
  exact (proj2 (proj2 (dissolve_power_off_latency (mk_ctrl 1 false 0 false) (fun _ => 7) _ Hi eq_refl))).
Defined.

(** C19: divergence: while the LEDs are on and the mode is 0, the
    dissolve never returns: after any number of steps from a state of
    the effect it is still running, and every step is defined. *)
Theorem dissolve_never_returns c (rs : nat -> Z) s :
  dissolve_inv s -> led_on c = true -> transition_mode c = 0 -> d_pc s <> DRet ->
  forall n, exists s' out, run (fun k => dissolve_step c (rs k)) 0 n s = Some (s', out) /\
                           dissolve_inv s' /\ d_pc s' <> DRet.
Proof.
  intros Hinv Hon Hm Hne n.
  destruct (run_forever (fun k => dissolve_step c (rs k)) (fun s => dissolve_inv s /\ d_pc s <> DRet))
    with (n := n) (s := s) (k := 0%nat) as (s' & o & E & Hi' & Hn').
  - intros k s0 [Hi0 Hn0]; destruct (step_running c (rs k) s0 Hi0 Hon Hm Hn0) as (s1 & o1 & ?); eauto.
  - split; assumption.
  - exists s', o; auto.
Qed.

Lemma dissolve_never_returns_witness :
  dissolve_inv dissolve_start /\ DStart <> DRet /\
  exists s' out, run (fun k => dissolve_step (mk_ctrl 1 true 0 false) ((fun _ => 5) k)) 0 5000 dissolve_start
                   = Some (s', out) /\ dissolve_inv s' /\ d_pc s' <> DRet.
Proof.
  split; [exact dissolve_start_inv|split; [discriminate|]].
  exact (dissolve_never_returns (mk_ctrl 1 true 0 false) (fun _ => 5) dissolve_start dissolve_start_inv
           eq_refl eq_refl ltac:(discriminate) 5000).
Defined.

End Dissolve.
