(* ===== verification/Buttons.v ===== *)
(** * The input path of [src/src/buttons.c]

    The interrupt handler [button_isr_handler] (lines 27-37) debounces
    each of the three buttons with its own [last_btn_press_time] (line
    23) and posts the button's index, cast to [button_event_t]
    ([buttons.h] lines 16-20), into the ten-entry FreeRTOS queue created
    by [app_main] ([main_app.c] line 206); [xQueueSendFromISR] drops the
    event when the queue is full.  [button_task] (lines 56-92) takes one
    event at a time and updates the shared state of [Globals]; a
    power-off also calls [turn_off_all_leds].

    The theorems: the queue never holds more than ten events and only
    valid indices; two events the handler posts for one button (read
    off the queue by [isr_run]) come from interrupts more than
    [DEBOUNCE_TIME] apart; presses in the first 400 ms after boot
    are ignored, and a press dropped by a full queue still restarts its
    button's debounce window; each handler of [button_task] changes
    exactly its own value (the toggle also turning the LEDs off when it
    switches them off), keeps it in range, reaches every value within
    two events and cycles with period three. *)

From Stdlib Require Import ZArith List Lia Bool.
From S2P Require Import Prelude Globals Pwm.
Import ListNotations.
Open Scope Z_scope.

Module Buttons.
Import Globals.

(** [button_event_t]: the enum's values. *)
Definition BTN_EVENT_MODE : Z := 0.
Definition BTN_EVENT_TOGGLE : Z := 1.
Definition BTN_EVENT_BRIGHT : Z := 2.

Definition DEBOUNCE_TIME : Z := 400.
Definition QUEUE_LENGTH : nat := 10.

(** The input path's own state: the debounce timestamps (ms) and the
    contents of [button_evt_queue], oldest first. *)
Record input := mk_input { last_btn_press_time : list Z; queue : list Z }.

Definition input_init : input := mk_input [0; 0; 0] [].

(** [xQueueSendFromISR]: appended when there is room, dropped otherwise. *)
Definition queue_send (q : list Z) (evt : Z) : list Z :=
  if (length q <? QUEUE_LENGTH)%nat then q ++ [evt] else q.

(** The ISR of button [btn_idx] at [esp_timer_get_time()] = [now_us]. *)
Definition button_isr_handler (btn_idx now_us : Z) (s : input) : input :=
  let current_time := Z.quot now_us 1000 in
  if current_time - nth (Z.to_nat btn_idx) (last_btn_press_time s) 0 >? DEBOUNCE_TIME then
    mk_input (list_set (last_btn_press_time s) (Z.to_nat btn_idx) current_time)
             (queue_send (queue s) btn_idx)
  else s.

(** The body of the [switch] for one received event: the new shared
    state and the calls made. *)
Definition handle_event (evt : Z) (c : ctrl) : ctrl * list cmd :=
  if evt =? BTN_EVENT_MODE then
    (set_mode_changed (set_mode c (Z.rem (transition_mode c + 1) 3)) true, [])
  else if evt =? BTN_EVENT_TOGGLE then
    let c' := set_led_on c (negb (led_on c)) in
    (c', if negb (led_on c') then Pwm.turn_off_all_leds else [])
  else if evt =? BTN_EVENT_BRIGHT then
    (set_brightness c (Z.rem (brightness_level c + 1) 3), [])
  else (c, []).

(** One iteration of [button_task]: [None] while the queue is empty
    ([xQueueReceive] blocks). *)
Definition button_task_step (c : ctrl) (s : input) : option (ctrl * input * list cmd) :=
  match queue s with
  | [] => None
  | evt :: rest =>
      let '(c', out) := handle_event evt c in
      Some (c', mk_input (last_btn_press_time s) rest, out)
  end.

(** The control state after one mode or brightness event. *)
Definition mode_press (c : ctrl) : ctrl := fst (handle_event BTN_EVENT_MODE c).
Definition bright_press (c : ctrl) : ctrl := fst (handle_event BTN_EVENT_BRIGHT c).

(** Well-formed input state: three timestamps, a bounded queue of valid
    events. *)
Definition input_ok (s : input) : Prop :=
  length (last_btn_press_time s) = 3%nat /\ (length (queue s) <= QUEUE_LENGTH)%nat /\
  Forall (fun e => 0 <= e < 3) (queue s).

(** The control values the handlers keep in range. *)
Definition ctrl_ok (c : ctrl) : Prop :=
  0 <= transition_mode c < 3 /\ 0 <= brightness_level c < 3.

(** A sequence of interrupts [(button, esp_timer_get_time())] handled
    by [button_isr_handler]: the final input state and the events the
    handler posted, read off the queue (the event appended, with the
    time of its interrupt in ms). *)
Fixpoint isr_run (presses : list (Z * Z)) (s : input) : input * list (Z * Z) :=
  match presses with
  | [] => (s, [])
  | (b, t) :: rest =>
      let s1 := button_isr_handler b t s in
      let posted := (length (queue s) <? length (queue s1))%nat in
      let '(s', acc) := isr_run rest s1 in
      (s', if posted then (last (queue s1) 0, Z.quot t 1000) :: acc else acc)
  end.

(** Successive accepted press times of one button, each more than
    [DEBOUNCE_TIME] after the one before (the first after [prev]). *)
Fixpoint spaced (prev : Z) (ts : list Z) : Prop :=
  match ts with
  | [] => True
  | t :: rest => t - prev > DEBOUNCE_TIME /\ spaced t rest
  end.

Definition times_of (b : Z) (acc : list (Z * Z)) : list Z :=
  map snd (filter (fun x => fst x =? b) acc).

(** ** Helper lemmas *)

(** [exists k, k < 3 /\ f (Nat.iter k step c) = v] for a closed [c],
    by trying [k = 0, 1, 2] for each of the three values of [v]. *)
(** Case on the debounce test of [button_isr_handler], with the
    comparison it made as a hypothesis [G] in [Z]. *)
Ltac guard_cases G :=
  match goal with |- context [if ?c then _ else _] => destruct c eqn:G end;
  rewrite ?Z.gtb_ltb, ?Z.geb_leb, ?Z.ltb_lt, ?Z.leb_le, ?Z.ltb_ge, ?Z.leb_gt in G.

Ltac cycle_hit :=
  let v := fresh "v" in let Hv := fresh "Hv" in
  intros v Hv; assert (v = 0 \/ v = 1 \/ v = 2) as [-> | [-> | ->]] by lia;
  first [ exists 0%nat; split; [lia|reflexivity]
        | exists 1%nat; split; [lia|reflexivity]
        | exists 2%nat; split; [lia|reflexivity] ].

Lemma queue_send_length q e : (length q <= QUEUE_LENGTH)%nat -> (length (queue_send q e) <= QUEUE_LENGTH)%nat.
Proof.
  unfold queue_send; destruct (length q <? QUEUE_LENGTH)%nat eqn:E; [|auto].
  apply Nat.ltb_lt in E; rewrite length_app; simpl; lia.
Qed.

Lemma queue_send_valid q e : Forall (fun e => 0 <= e < 3) q -> 0 <= e < 3 -> Forall (fun e => 0 <= e < 3) (queue_send q e).
Proof.
  unfold queue_send; intros H He; destruct (length q <? QUEUE_LENGTH)%nat; [|auto].
  apply Forall_app; auto.
Qed.

Lemma isr_input_ok b t s : input_ok s -> 0 <= b < 3 -> input_ok (button_isr_handler b t s).
Proof.
  intros (H1 & H2 & H3) Hb; unfold button_isr_handler.
  guard_cases G; [|split; auto]; repeat split; simpl.
  - rewrite ?length_list_set; auto.
  - apply queue_send_length; auto.
  - apply queue_send_valid; auto.
Qed.

Lemma isr_last_other b b' t s :
  b <> b' -> 0 <= b -> 0 <= b' ->
  nth (Z.to_nat b) (last_btn_press_time (button_isr_handler b' t s)) 0 =
  nth (Z.to_nat b) (last_btn_press_time s) 0.
Proof.
  intros Hne Hb Hb'; unfold button_isr_handler; guard_cases G; [|reflexivity]; simpl.
  rewrite ?nth_list_set_ne by lia; reflexivity.
Qed.

Lemma isr_last_same b t s :
  length (last_btn_press_time s) = 3%nat -> 0 <= b < 3 ->
  Z.quot t 1000 - nth (Z.to_nat b) (last_btn_press_time s) 0 > DEBOUNCE_TIME ->
  nth (Z.to_nat b) (last_btn_press_time (button_isr_handler b t s)) 0 = Z.quot t 1000.
Proof.
  intros Hl Hb Ht; unfold button_isr_handler; guard_cases G; [|unfold DEBOUNCE_TIME in *; lia].
  simpl; apply nth_list_set_eq; lia.
Qed.

Lemma spaced_weaken p p' ts : p' <= p -> spaced p ts -> spaced p' ts.
Proof. destruct ts as [|t ts]; simpl; [auto|intros Hp [Ht Hs]; split; [lia|exact Hs]]. Qed.

(** The handler posts only when its debounce test passes, and what it
    posts is its button. *)
Lemma isr_posted b t s :
  (length (queue s) <? length (queue (button_isr_handler b t s)))%nat = true ->
  (Z.quot t 1000 - nth (Z.to_nat b) (last_btn_press_time s) 0 > DEBOUNCE_TIME) /\
  (last (queue (button_isr_handler b t s)) 0 = b).
Proof.
  unfold button_isr_handler; guard_cases G; cbn [queue]; intros H.
  - split; [lia|]; unfold queue_send in *.
    destruct (length (queue s) <? QUEUE_LENGTH)%nat; [apply last_last|apply Nat.ltb_lt in H; lia].
  - apply Nat.ltb_lt in H; lia.
Qed.

(** A stored timestamp never decreases. *)
Lemma isr_last_ge b b' t s :
  length (last_btn_press_time s) = 3%nat -> 0 <= b < 3 -> 0 <= b' < 3 ->
  nth (Z.to_nat b) (last_btn_press_time s) 0 <= nth (Z.to_nat b) (last_btn_press_time (button_isr_handler b' t s)) 0.
Proof.
  intros Hl Hb Hb'; destruct (Z.eq_dec b' b) as [->|Hne]; [|rewrite isr_last_other by lia; lia].
  unfold button_isr_handler; guard_cases G; [|lia].
  simpl; rewrite nth_list_set_eq by lia; unfold DEBOUNCE_TIME in G; lia.
Qed.

Lemma handle_event_ctrl_ok e c : ctrl_ok c -> ctrl_ok (fst (handle_event e c)).
Proof.
  unfold ctrl_ok, handle_event; intros [Hm Hb].
  pose proof (Z.rem_bound_pos (transition_mode c + 1) 3 ltac:(lia) ltac:(lia)).
  pose proof (Z.rem_bound_pos (brightness_level c + 1) 3 ltac:(lia) ltac:(lia)).
  repeat (destruct (_ =? _)); simpl; lia.
Qed.

(** ** Properties of the input path *)

(** C4: the debounce: for every sequence of interrupts on valid
    buttons, the accepted presses of each button are more than
    [DEBOUNCE_TIME] ms apart, and the first is more than [DEBOUNCE_TIME]
    after the button's stored timestamp (0 at boot); the input state
    stays well-formed (at most ten queued events, all valid). *)
Theorem isr_run_debounced presses s b :
  input_ok s -> Forall (fun x => 0 <= fst x < 3) presses -> 0 <= b < 3 ->
  spaced (nth (Z.to_nat b) (last_btn_press_time s) 0) (times_of b (snd (isr_run presses s))) /\
  input_ok (fst (isr_run presses s)).
Proof.
  revert s; induction presses as [|[b' t] rest IH]; intros s Hs Hp Hb; [split; [exact I | exact Hs]|].
  inversion Hp as [|? ? Hb' Hrest]; subst; simpl in Hb'.
  pose proof (isr_input_ok b' t s Hs Hb') as Hs'.
  destruct (IH (button_isr_handler b' t s) Hs' Hrest Hb) as [Hsp Hok].
  cbn [isr_run]; destruct (isr_run rest (button_isr_handler b' t s)) as [s' acc] eqn:E; cbn [fst snd] in *.
  split; [|exact Hok].
  pose proof (isr_last_ge b b' t s (proj1 Hs) Hb Hb') as Hge.
  destruct (length (queue s) <? length (queue (button_isr_handler b' t s)))%nat eqn:P;
    [|exact (spaced_weaken _ _ _ Hge Hsp)].
  destruct (isr_posted b' t s P) as [G ->]; unfold times_of in *; cbn [filter fst snd map].
  destruct (Z.eq_dec b' b) as [->|Hne].
  - rewrite Z.eqb_refl; cbn [map]; split; [exact G|].
    rewrite (isr_last_same b t s (proj1 Hs) Hb G) in Hsp; exact Hsp.
  - replace (b' =? b) with false by (symmetry; apply Z.eqb_neq; auto); exact (spaced_weaken _ _ _ Hge Hsp).
Qed.

Lemma isr_run_debounced_witness :
  spaced (nth (Z.to_nat 0) (last_btn_press_time input_init) 0)
         (times_of 0 (snd (isr_run [(0, 500000); (0, 700000); (0, 950000)] input_init))) /\
  input_ok (fst (isr_run [(0, 500000); (0, 700000); (0, 950000)] input_init)).
Proof.
  apply isr_run_debounced; [| repeat (apply Forall_cons; [simpl; lia|]); apply Forall_nil | lia].
  split; [reflexivity | split; [unfold QUEUE_LENGTH; simpl; lia | apply Forall_nil]].
Defined.

(** C33: every press during the first [DEBOUNCE_TIME] ms after boot is
    ignored, because the timestamps start at 0. *)
Theorem isr_ignores_boot_window b t :
  0 <= b < 3 -> 0 <= t < (DEBOUNCE_TIME + 1) * 1000 ->
  button_isr_handler b t input_init = input_init.
Proof.
  intros Hb Ht; unfold button_isr_handler, DEBOUNCE_TIME in *.
  assert (Hn : nth (Z.to_nat b) (last_btn_press_time input_init) 0 = 0)
    by (simpl; assert (b = 0 \/ b = 1 \/ b = 2) as [-> | [-> | ->]] by lia; reflexivity).
  rewrite Hn; replace (_ >? 400) with false; [reflexivity|].
  symmetry; rewrite Z.gtb_ltb; apply Z.ltb_ge; rewrite Z.quot_div_nonneg by lia; zlia.
Qed.

Lemma isr_ignores_boot_window_witness : button_isr_handler 1 400999 input_init = input_init.
Proof. apply isr_ignores_boot_window; unfold DEBOUNCE_TIME; lia. Defined.

(** C34: a press that passes the debounce test while the queue is full
    is lost, yet it still restarts its button's debounce window. *)
Theorem isr_full_queue_drops b t s :
  input_ok s -> 0 <= b < 3 -> length (queue s) = QUEUE_LENGTH ->
  Z.quot t 1000 - nth (Z.to_nat b) (last_btn_press_time s) 0 > DEBOUNCE_TIME ->
  queue (button_isr_handler b t s) = queue s /\
  nth (Z.to_nat b) (last_btn_press_time (button_isr_handler b t s)) 0 = Z.quot t 1000.
Proof.
  intros Hs Hb Hq Ht; split.
  - unfold button_isr_handler; replace (_ >? _) with true by (symmetry; apply Z.gtb_lt; lia).
    simpl; unfold queue_send; rewrite Hq; reflexivity.
  - apply isr_last_same; [apply Hs | exact Hb | exact Ht].
Qed.

Lemma isr_full_queue_drops_witness :
  let s := mk_input [0; 0; 0] [0; 0; 0; 0; 0; 0; 0; 0; 0; 0] in
  queue (button_isr_handler 2 5000000 s) = queue s /\
  nth (Z.to_nat 2) (last_btn_press_time (button_isr_handler 2 5000000 s)) 0 = Z.quot 5000000 1000.
Proof.
  apply isr_full_queue_drops; [| lia | reflexivity | vm_compute; reflexivity].
  split; [reflexivity | split; [unfold QUEUE_LENGTH; simpl; lia | repeat (apply Forall_cons; [lia|]); apply Forall_nil]].
Defined.

(** C8: the three handlers, from any in-range state: a mode event
    raises [mode_changed], a brightness event does not, and each steps
    its value so that every mode and every level is reached within two
    events and three events bring it back, changing nothing else; a
    toggle event flips [led_on], changes nothing else, and calls
    [turn_off_all_leds] exactly when it switches the LEDs off; the
    values stay in [0, 3). *)
Theorem handle_event_cycles c :
  ctrl_ok c ->
  (forall e, ctrl_ok (fst (handle_event e c))) /\
  (forall m, 0 <= m < 3 -> exists k, (k < 3)%nat /\ transition_mode (Nat.iter k mode_press c) = m) /\
  transition_mode (Nat.iter 3 mode_press c) = transition_mode c /\
  handle_event BTN_EVENT_MODE c =
    (mk_ctrl (brightness_level c) (led_on c) (transition_mode (mode_press c)) true, []) /\
  (forall l, 0 <= l < 3 -> exists k, (k < 3)%nat /\ brightness_level (Nat.iter k bright_press c) = l) /\
  brightness_level (Nat.iter 3 bright_press c) = brightness_level c /\
  handle_event BTN_EVENT_BRIGHT c =
    (mk_ctrl (brightness_level (bright_press c)) (led_on c) (transition_mode c) (mode_changed c), []) /\
  handle_event BTN_EVENT_TOGGLE c =
    (mk_ctrl (brightness_level c) (negb (led_on c)) (transition_mode c) (mode_changed c),
     if led_on c then Pwm.turn_off_all_leds else []).
Proof.
  intros H; split; [intros e; apply handle_event_ctrl_ok, H|].
  destruct H as [Hm Hb]; destruct c as [bl on m ch]; cbn [transition_mode brightness_level] in *.
  assert (m = 0 \/ m = 1 \/ m = 2) as [-> | [-> | ->]] by lia;
  assert (bl = 0 \/ bl = 1 \/ bl = 2) as [-> | [-> | ->]] by lia;
    (split; [cycle_hit|split; [reflexivity|split; [reflexivity|split; [cycle_hit|]]]]);
    (split; [reflexivity|split; [reflexivity|destruct on; reflexivity]]).
Qed.

Lemma handle_event_cycles_witness :
  ctrl_ok ctrl_init /\
  (forall e, ctrl_ok (fst (handle_event e ctrl_init))) /\
  (forall m, 0 <= m < 3 -> exists k, (k < 3)%nat /\ transition_mode (Nat.iter k mode_press ctrl_init) = m) /\
  transition_mode (Nat.iter 3 mode_press ctrl_init) = transition_mode ctrl_init /\
  handle_event BTN_EVENT_MODE ctrl_init =
    (mk_ctrl (brightness_level ctrl_init) (led_on ctrl_init) (transition_mode (mode_press ctrl_init)) true, []) /\
  (forall l, 0 <= l < 3 -> exists k, (k < 3)%nat /\ brightness_level (Nat.iter k bright_press ctrl_init) = l) /\
  brightness_level (Nat.iter 3 bright_press ctrl_init) = brightness_level ctrl_init /\
  handle_event BTN_EVENT_BRIGHT ctrl_init =
    (mk_ctrl (brightness_level (bright_press ctrl_init)) (led_on ctrl_init) (transition_mode ctrl_init)
       (mode_changed ctrl_init), []) /\
  handle_event BTN_EVENT_TOGGLE ctrl_init =
    (mk_ctrl (brightness_level ctrl_init) (negb (led_on ctrl_init)) (transition_mode ctrl_init)
       (mode_changed ctrl_init), if led_on ctrl_init then Pwm.turn_off_all_leds else []).
Proof.
  assert (H : ctrl_ok ctrl_init) by (unfold ctrl_ok; simpl; lia).
  split; [exact H|exact (handle_event_cycles ctrl_init H)].
Defined.

End Buttons.
