(* ===== verification/Boot.v ===== *)
(** * Bring-up: [i2c_master_init], [setup_button_interrupt], [app_main]

    [src/src/main_app.c] lines 21-25 and 44-59 ([i2c_master_init]) and
    190-224 ([app_main]); [src/src/buttons.c] lines 14-17, 39-54
    ([setup_button_interrupt]) and 94-101 ([buttons_init]);
    [src/src/buttons.h] lines 6-9.

    The driver calls are recorded, in order, as [boot_call]s; the
    results of the ESP-IDF calls the code tests ([i2c_param_config],
    [i2c_driver_install], [xQueueCreate]) are inputs, so every error
    path is a value of the model: [ESP_ERROR_CHECK] aborts, a failed
    queue creation returns from [app_main] before any interrupt or task
    exists.  The results the code ignores ([gpio_config],
    [gpio_install_isr_service], [gpio_isr_handler_add], the controller
    writes) do not change what it does next and are not inputs.

    The theorems: every failure of the bus bring-up aborts before any
    controller write, a failed queue creation leaves the controller
    configured with no interrupt and no task; on success the three
    buttons are registered on GPIO 3, 1 and 10 as falling-edge inputs
    with pull-up and with the indices 0, 1, 2 of [button_event_t], which
    is the only argument the interrupt handler is ever given. *)

From Stdlib Require Import ZArith List Lia Bool String.
From S2P Require Import Prelude Globals Pwm Buttons.
Import ListNotations.
Open Scope Z_scope.

Module Boot.

(** [esp_err_t]: [ESP_OK] is 0. *)
Definition ESP_OK : Z := 0.

(** [main_app.c] lines 22-25. *)
Definition I2C_MASTER_SCL_IO : Z := 9.
Definition I2C_MASTER_SDA_IO : Z := 8.
Definition I2C_MASTER_NUM : Z := 0.
Definition I2C_MASTER_FREQ_HZ : Z := 100000.

(** [buttons.c] lines 15-17 (and [buttons.h] lines 7-9): the GPIO pin
    of each button. *)
Definition BTN_MODE : Z := 3.
Definition BTN_TOGGLE : Z := 1.
Definition BTN_BRIGHT : Z := 10.

(** [i2c_config_t] as [i2c_master_init] fills it. *)
Record i2c_config := mk_i2c_config {
  i2c_master_mode : bool;
  sda_io_num : Z;
  scl_io_num : Z;
  sda_pullup_en : bool;
  scl_pullup_en : bool;
  clk_speed : Z
}.

Definition i2c_conf : i2c_config :=
  mk_i2c_config true I2C_MASTER_SDA_IO I2C_MASTER_SCL_IO true true I2C_MASTER_FREQ_HZ.

(** [gpio_config_t] as [setup_button_interrupt] fills it. *)
Inductive intr_type := GPIO_INTR_NEGEDGE.
Record gpio_config := mk_gpio_config {
  intr : intr_type;
  mode_input : bool;
  pin_bit_mask : Z;
  pull_up_en : bool;
  pull_down_en : bool
}.

(** A driver or kernel call of the bring-up, with its arguments. *)
Inductive boot_call :=
| I2cParamConfig (port : Z) (conf : i2c_config)
| I2cDriverInstall (port : Z)
| Controller (op : Pwm.io)
| QueueCreate (length : nat)
| GpioConfig (conf : gpio_config)
| GpioInstallIsrService (flags : Z)
| GpioIsrHandlerAdd (gpio : Z) (arg : Z)
| TaskCreate (name : string) (stack : Z) (priority : Z).

(** [i2c_master_init] given the results of [i2c_param_config] and
    [i2c_driver_install]: the calls made and the result returned. *)
Definition i2c_master_init (r_param r_install : Z) : list boot_call * Z :=
  let c1 := [I2cParamConfig I2C_MASTER_NUM i2c_conf] in
  if negb (r_param =? ESP_OK) then (c1, r_param)
  else (c1 ++ [I2cDriverInstall I2C_MASTER_NUM], r_install).

(** [setup_button_interrupt(gpio, btn_idx)]: the handler is registered
    with [(void* )btn_idx] as its argument; the three results are
    ignored. *)
Definition setup_button_interrupt (gpio btn_idx : Z) : list boot_call :=
  [GpioConfig (mk_gpio_config GPIO_INTR_NEGEDGE true (Z.shiftl 1 gpio) true false);
   GpioInstallIsrService 0;
   GpioIsrHandlerAdd gpio btn_idx].

(** [buttons_init] (never called: [app_main] repeats its body). *)
Definition buttons_init : list boot_call :=
  setup_button_interrupt BTN_MODE 0 ++ setup_button_interrupt BTN_TOGGLE 1 ++
  setup_button_interrupt BTN_BRIGHT 2.

(** How [app_main] ends: [ESP_ERROR_CHECK] aborts, [return] after a
    failed [xQueueCreate], or the end of its body with the tasks
    running. *)
Inductive outcome := Aborted (err : Z) | Returned | Started.

(** [app_main] given the results of the calls it tests: the calls made,
    in order, and how it ends. *)
Definition app_main (r_param r_install : Z) (queue_ok : bool) : list boot_call * outcome :=
  let '(c1, err) := i2c_master_init r_param r_install in
  if negb (err =? ESP_OK) then (c1, Aborted err)
  else
    let c2 := c1 ++ map Controller Pwm.app_main_io ++ [QueueCreate Buttons.QUEUE_LENGTH] in
    if negb queue_ok then (c2, Returned)
    else (c2 ++ setup_button_interrupt BTN_MODE 0 ++ setup_button_interrupt BTN_TOGGLE 1 ++
          setup_button_interrupt BTN_BRIGHT 2 ++
          [TaskCreate "button_task" 2048 10; TaskCreate "led_animation_task" 4096 5], Started).

(** The arguments the interrupt handler is registered with. *)
Definition isr_args (l : list boot_call) : list Z :=
  flat_map (fun c => match c with GpioIsrHandlerAdd _ a => [a] | _ => [] end) l.

(** The controller operations in a sequence of calls. *)
Definition controller_ops (l : list boot_call) : list Pwm.io :=
  flat_map (fun c => match c with Controller op => [op] | _ => [] end) l.

Definition is_task (c : boot_call) : bool :=
  match c with TaskCreate _ _ _ => true | _ => false end.

(** ** Helper lemmas *)

Lemma i2c_master_init_calls r1 r2 :
  controller_ops (fst (i2c_master_init r1 r2)) = [] /\
  isr_args (fst (i2c_master_init r1 r2)) = [] /\
  filter is_task (fst (i2c_master_init r1 r2)) = [].
Proof. unfold i2c_master_init; case_ifs; repeat split. Qed.

Lemma i2c_master_init_ok r1 r2 :
  snd (i2c_master_init r1 r2) = ESP_OK <-> r1 = ESP_OK /\ r2 = ESP_OK.
Proof. unfold i2c_master_init, ESP_OK; destruct (Z.eqb_spec r1 0); simpl; lia. Qed.

(** ** Properties of the bring-up *)

(** C10: the error paths of [app_main]: a failure of
    [i2c_param_config] or else of [i2c_driver_install] aborts with that
    error, before any controller write; a failed [xQueueCreate] returns
    after configuring the controller; unless [app_main] reaches its end
    no interrupt is registered and no task started, so the LEDs never
    animate and the buttons are dead. *)
Theorem app_main_error_paths r1 r2 q :
  snd (app_main r1 r2 q) =
    (if negb (r1 =? ESP_OK) then Aborted r1
     else if negb (r2 =? ESP_OK) then Aborted r2
     else if q then Started else Returned) /\
  controller_ops (fst (app_main r1 r2 q)) =
    (if (r1 =? ESP_OK) && (r2 =? ESP_OK) then Pwm.app_main_io else []) /\
  (snd (app_main r1 r2 q) <> Started ->
     isr_args (fst (app_main r1 r2 q)) = [] /\ filter is_task (fst (app_main r1 r2 q)) = []).
Proof.
  unfold app_main, i2c_master_init.
  destruct (r1 =? ESP_OK) eqn:E1, (r2 =? ESP_OK) eqn:E2, q; cbn; rewrite ?E1, ?E2; cbn;
    (split; [reflexivity|split; [reflexivity|]]); intros Hs; (congruence || (split; reflexivity)).
Qed.

(** When the bus and the queue come up, [app_main] writes the
    controller's initialisation, creates the ten-event queue, registers
    the three buttons on GPIO 3, 1 and 10 as falling-edge inputs with
    pull-up and pin masks [1 << gpio], with the handler arguments 0, 1
    and 2 (the [button_event_t] values of mode, toggle and brightness,
    so the handler is only ever called on a valid index), and starts
    the button task (priority 10) and the animation task (priority 5). *)
Theorem app_main_registers_buttons :
  let calls := fst (app_main ESP_OK ESP_OK true) in
  snd (app_main ESP_OK ESP_OK true) = Started /\
  controller_ops calls = Pwm.app_main_io /\
  In (QueueCreate Buttons.QUEUE_LENGTH) calls /\
  isr_args calls = [Buttons.BTN_EVENT_MODE; Buttons.BTN_EVENT_TOGGLE; Buttons.BTN_EVENT_BRIGHT] /\
  Forall (fun a => 0 <= a < 3) (isr_args calls) /\
  (forall gpio, In gpio [BTN_MODE; BTN_TOGGLE; BTN_BRIGHT] ->
     In (GpioConfig (mk_gpio_config GPIO_INTR_NEGEDGE true (2 ^ gpio) true false)) calls) /\
  filter is_task calls = [TaskCreate "button_task" 2048 10; TaskCreate "led_animation_task" 4096 5].
Proof.
  cbv zeta; repeat split; try reflexivity.
  - simpl; tauto.
  - repeat constructor; simpl; lia.
  - intros gpio Hg; simpl in Hg; destruct Hg as [<-|[<-|[<-|[]]]]; simpl; tauto.
Qed.

End Boot.
