(* ===== verification/Dispatcher.v ===== *)
(** * The animation task: [led_animation_task] and [apply_transition_by_mode]

    [src/src/main_app.c] lines 138-187 and [src/src/transitons.c] lines
    165-173.  The task first runs its power-on test pattern, then loops:
    with the LEDs off it turns them off and sleeps 500 ms; otherwise it
    calls [apply_transition_by_mode(transition_mode)], which runs the
    effect of the mode (dissolve for any mode other than 1 and 2) and
    clears [mode_changed] when the effect returns.

    The task state [astate] holds where the task is ([apc]: which effect
    runs and its control point) and the two [static] variables of the
    effects ([hue], [color_idx]), which outlive the calls.  [anim_step]
    is one step: it reads the shared state [ctrl] at most once, and
    returns the new task state, the shared state (only the clear of
    [mode_changed] writes it) and the calls made. *)

From Stdlib Require Import ZArith List Lia Bool SpecFloat.
From S2P Require Import Prelude CFloat Globals Color Pwm Rainbow Breathing Dissolve.
Import ListNotations.
Open Scope Z_scope.
Open Scope c_scope.

Module Dispatcher.
Import Globals Color.

Inductive apc :=
| ABoot
| AMain
| ADispatch
| ADissolve (d : Dissolve.dstate)
| ARainbow (p : Rainbow.rpc)
| ABreathing (p : Breathing.bpc) (col : rgb_color_t)
| AClear.

Record astate := mk_astate { a_pc : apc; a_hue : float; a_color_idx : Z }.

Definition set_pc (a : astate) (p : apc) : astate := mk_astate p (a_hue a) (a_color_idx a).

(** The statics start at [hue = 0] and [color_idx = 0]. *)
Definition anim_init : astate := mk_astate ABoot Rainbow.hue_init Breathing.color_idx_init.

Definition leds : list Z := map Z.of_nat (seq 0 (Z.to_nat NUM_LEDS)).

(** The power-on test (lines 142-168): all off, each LED red, green,
    blue and off in turn, all white for a second, all off. *)
Definition boot_cmds : list cmd :=
  Pwm.turn_off_all_leds ++
  concat (map (fun i => [SetRgb ((uint8_t) i) 4095 0 0; Delay 300; SetRgb ((uint8_t) i) 0 4095 0; Delay 300;
                         SetRgb ((uint8_t) i) 0 0 4095; Delay 300; SetRgb ((uint8_t) i) 0 0 0; Delay 100])
              leds) ++
  map (fun i => SetRgb ((uint8_t) i) 4095 4095 4095) leds ++ [Delay 1000] ++
  Pwm.turn_off_all_leds ++ [Delay 500].

(** [switch (mode)] of [apply_transition_by_mode]: the effect entered. *)
Definition apply_transition_by_mode (mode : Z) : apc :=
  if mode =? 1 then ARainbow Rainbow.RWhile
  else if mode =? 2 then ABreathing Breathing.BWhile black
  else ADissolve Dissolve.dissolve_start.

Section WithLibm.
Context {L : Libm}.

Definition anim_step (c : ctrl) (rnd : Z) (a : astate) : option (astate * ctrl * list cmd) :=
  match a_pc a with
  | ABoot => Some (set_pc a AMain, c, boot_cmds)
  | AMain =>
      if led_on c then Some (set_pc a ADispatch, c, [])
      else Some (set_pc a AMain, c, Pwm.turn_off_all_leds ++ [Delay 500])
  | ADispatch => Some (set_pc a (apply_transition_by_mode (transition_mode c)), c, [])
  | ADissolve d =>
      x <- Dissolve.dissolve_step c rnd d ;;
      Some (set_pc a (match Dissolve.d_pc (fst x) with
                      | Dissolve.DRet => AClear
                      | _ => ADissolve (fst x) end), c, snd x)
  | ARainbow p =>
      x <- Rainbow.rainbow_step c (Rainbow.mk_rstate p (a_hue a)) ;;
      Some (mk_astate (match Rainbow.r_pc (fst x) with
                       | Rainbow.RRet => AClear
                       | p' => ARainbow p' end) (Rainbow.hue (fst x)) (a_color_idx a), c, snd x)
  | ABreathing p col =>
      x <- Breathing.breathing_step c (Breathing.mk_bstate p col (a_color_idx a)) ;;
      Some (mk_astate (match Breathing.b_pc (fst x) with
                       | Breathing.BRet => AClear
                       | p' => ABreathing p' (Breathing.color (fst x)) end)
                      (a_hue a) (Breathing.color_idx (fst x)), c, snd x)
  | AClear => Some (set_pc a AMain, set_mode_changed c false, [])
  end.

(** The task running alone (no interrupt, no button event in between):
    its steps thread the shared state it writes; [rnd k] is the word
    [esp_random()] returns at step [k]. *)
Definition anim_task_step (rnd : nat -> Z) (k : nat) (x : astate * ctrl)
    : option ((astate * ctrl) * list cmd) :=
  y <- anim_step (snd x) (rnd k) (fst x) ;;
  let '(a', c', out) := y in Some ((a', c'), out).

End WithLibm.

(** ** Well-formed task states *)

Definition bpc_ok (p : Breathing.bpc) (col : rgb_color_t) : Prop :=
  match p with
  | Breathing.BRise st | Breathing.BFall st => 0 <= st <= FADE_STEPS /\ In col base_colors
  | Breathing.BRet => False
  | _ => True
  end.

Definition anim_inv (a : astate) : Prop :=
  0 <= a_color_idx a < 12 /\ Rainbow.reachable_hue (a_hue a) /\
  match a_pc a with
  | ADissolve d => Dissolve.dissolve_inv d /\ Dissolve.d_pc d <> Dissolve.DRet
  | ARainbow p => p <> Rainbow.RRet
  | ABreathing p col => bpc_ok p col
  | _ => True
  end.

(** The [Libm] makes every frame of every palette colour defined. *)
Definition libm_frames_ok {L : Libm} : Prop :=
  forall k, 0 <= k < 12 -> Breathing.frames_defined (palette_at k).

(** ** Helper lemmas *)

(** A breathing step from a well-formed control point reaches one, or
    returns. *)
Lemma breathing_bpc_ok {L : Libm} c p col idx s' out :
  bpc_ok p col -> 0 <= idx < 12 ->
  Breathing.breathing_step c (Breathing.mk_bstate p col idx) = Some (s', out) ->
  Breathing.b_pc s' = Breathing.BRet \/ bpc_ok (Breathing.b_pc s') (Breathing.color s').
Proof.
  intros Hp Hi H; unfold Breathing.breathing_step in H; simpl in H.
  destruct p; simpl in Hp; try contradiction;
    repeat match type of H with
    | context [if ?b then _ else _] =>
        let E := fresh "E" in destruct b eqn:E; rewrite ?Z.leb_le, ?Z.leb_gt, ?Z.geb_le, ?Z.geb_leb, ?Z.leb_gt in E
    | Globals.obind ?o _ = Some _ =>
        let E := fresh "E" in destruct o eqn:E; simpl in H; [|discriminate]
    end; injection H as <- <-; simpl; auto; right; try exact I; try (split; [lia | tauto]).
  all: match goal with
       | E : palette_lookup _ = Some _ |- _ =>
           rewrite palette_lookup_ok in E by lia; injection E as <-;
           split; [unfold FADE_STEPS; lia | apply palette_at_In, Hi]
       end.
Qed.

(** Every step of the task keeps its state well-formed. *)
Lemma anim_inv_intro pc h idx :
  0 <= idx < 12 -> Rainbow.reachable_hue h ->
  match pc with
  | ADissolve d => Dissolve.dissolve_inv d /\ Dissolve.d_pc d <> Dissolve.DRet
  | ARainbow p => p <> Rainbow.RRet
  | ABreathing p col => bpc_ok p col
  | _ => True
  end -> anim_inv (mk_astate pc h idx).
Proof. unfold anim_inv; simpl; tauto. Qed.

Lemma anim_step_inv {L : Libm} c rnd a a' c' out :
  anim_inv a -> anim_step c rnd a = Some (a', c', out) -> anim_inv a'.
Proof.
  intros (Hi & Hh & Hp) H; unfold anim_step in H.
  destruct a as [pc h idx]; cbn [a_pc a_hue a_color_idx] in *.
  destruct pc; cbn [set_pc a_hue a_color_idx] in H.
  - injection H as <- _ _; apply anim_inv_intro; auto.
  - destruct (led_on c); injection H as <- _ _; apply anim_inv_intro; auto.
  - injection H as <- _ _; apply anim_inv_intro; auto; unfold apply_transition_by_mode.
    destruct (transition_mode c =? 1); [discriminate|].
    destruct (transition_mode c =? 2); [exact I|].
    split; [apply Dissolve.dissolve_start_inv | discriminate].
  - destruct Hp as [Hd _].
    destruct (Dissolve.dissolve_step_ok c rnd d Hd) as (d' & o & Hs & Hd').
    rewrite Hs in H; simpl in H; injection H as <- _ _; apply anim_inv_intro; auto.
    destruct (Dissolve.d_pc d') eqn:E; try exact I; split; auto; congruence.
  - destruct p; unfold Rainbow.rainbow_step in H; cbn [Rainbow.r_pc Rainbow.hue] in H; [| |contradiction].
    + destruct (led_on c); cbn in H; injection H as <- _ _; apply anim_inv_intro; auto; discriminate.
    + destruct Hh as (k & Hk & ->).
      destruct (transition_mode c =? 1).
      * destruct (Rainbow.rainbow_frame_pixels k Hk) as (p0 & p1 & p2 & p3 & p4 & Hf & _).
        rewrite Hf in H; cbn in H; injection H as <- _ _; apply anim_inv_intro; auto; [|discriminate].
        exists ((k + 1) mod 120); split; [apply Z.mod_pos_bound; lia | apply Rainbow.hue_next_3k, Hk].
      * cbn in H; injection H as <- _ _; apply anim_inv_intro; auto; exists k; auto.
  - destruct (Breathing.breathing_step c (Breathing.mk_bstate p col idx)) as [[b' o]|] eqn:E;
      [|discriminate]; simpl in H; injection H as <- _ _.
    pose proof (Breathing.breathing_step_idx c (Breathing.mk_bstate p col idx) b' o Hi E) as Hi'; simpl in Hi'.
    apply anim_inv_intro; auto.
    destruct (breathing_bpc_ok c p col idx b' o Hp Hi E) as [->|Hb]; [exact I|].
    destruct (Breathing.b_pc b'); auto.
  - injection H as <- _ _; apply anim_inv_intro; auto.
Qed.

(** The task writes the shared state only to clear [mode_changed]. *)
Lemma anim_step_ctrl {L : Libm} c rnd a a' c' out :
  anim_step c rnd a = Some (a', c', out) -> c' = c \/ c' = set_mode_changed c false.
Proof.
  unfold anim_step; destruct (a_pc a); intros H;
    repeat match type of H with
    | context [if ?b then _ else _] => destruct b
    | Globals.obind ?o _ = Some _ => destruct o; simpl in H; [|discriminate]
    end; injection H as _ <- _; auto.
Qed.

(** Every step of a well-formed task state is defined, when the [Libm]
    makes the breathing frames defined: no undefined conversion, no
    out-of-range index. *)
Lemma anim_step_progress {L : Libm} c rnd a :
  libm_frames_ok -> anim_inv a -> exists a' c' out, anim_step c rnd a = Some (a', c', out).
Proof.
  intros Hlibm (Hi & Hh & Hp); destruct a as [pc h idx]; cbn [a_pc a_hue a_color_idx] in *.
  destruct pc as [| | |d|p|p col|]; unfold anim_step; cbn [a_pc a_hue a_color_idx].
  - eauto.
  - destruct (led_on c); eauto.
  - eauto.
  - destruct Hp as [Hd _]; destruct (Dissolve.dissolve_step_ok c rnd d Hd) as (d' & o & -> & _); simpl; eauto.
  - destruct Hh as (k & Hk & ->); unfold Rainbow.rainbow_step; destruct p; cbn [Rainbow.r_pc Rainbow.hue].
    + simpl; eauto.
    + destruct (transition_mode c =? 1); [|simpl; eauto].
      destruct (Rainbow.rainbow_frame_pixels k Hk) as (p0 & p1 & p2 & p3 & p4 & -> & _); simpl; eauto.
    + simpl; eauto.
  - unfold Breathing.breathing_step; destruct p; cbn [Breathing.b_pc Breathing.color Breathing.color_idx] in *;
      try (simpl; eauto; fail).
    + destruct (transition_mode c =? 2); [(rewrite palette_lookup_ok by lia)|]; simpl; eauto.
    + destruct (mode_changed c); [simpl; eauto|].
      destruct Hp as [Hs Hc]; destruct (In_palette_at col Hc) as (k & Hk & ->).
      destruct (not_None_Some _ (proj1 (Hlibm k Hk step Hs))) as [f ->]; simpl; eauto.
    + destruct (mode_changed c); [simpl; eauto|].
      destruct Hp as [Hs Hc]; destruct (In_palette_at col Hc) as (k & Hk & ->).
      destruct (not_None_Some _ (proj2 (Hlibm k Hk step Hs))) as [f ->]; simpl; eauto.
  - eauto.
Qed.

(** ** Properties of the dispatcher *)

Lemma task_run_nil {L : Libm} rnd k x : run (anim_task_step rnd) k 0 x = Some (x, []).
Proof. reflexivity. Qed.

Lemma task_run_cons {L : Libm} rnd k n a c a1 c1 o1 x o2 :
  anim_step c (rnd k) a = Some (a1, c1, o1) ->
  run (anim_task_step rnd) (S k) n (a1, c1) = Some (x, o2) ->
  run (anim_task_step rnd) k (S n) (a, c) = Some (x, o1 ++ o2).
Proof.
  intros H1 H2; cbn [run]; unfold anim_task_step at 1; cbn [fst snd]; rewrite H1.
  cbn [Globals.obind fst snd]; rewrite H2; reflexivity.
Qed.

(** Evaluates a run of the task step by step, each step by unfolding
    it and rewriting with the equations [eqs] on the shared state. *)
Ltac task_eval rw :=
  repeat (eapply task_run_cons;
          [unfold anim_step, Rainbow.rainbow_step, Breathing.breathing_step; cbn; rw; cbn; reflexivity|]);
  apply task_run_nil.

(** Tries [n = 1 .. 8] steps for a goal [exists n, ...]. *)
Ltac run_upto_8 tac :=
  first [ exists 1%nat; tac | exists 2%nat; tac | exists 3%nat; tac | exists 4%nat; tac
        | exists 5%nat; tac | exists 6%nat; tac | exists 7%nat; tac | exists 8%nat; tac ].

(** C5: a mode change reaches the dispatcher: when the rainbow runs
    and the mode is no longer 1, or breathing runs and [mode_changed]
    is raised, with the LEDs on, the task alone enters the effect of
    the current mode within 8 steps, having cleared [mode_changed],
    written no frame and waited at most the 300 ms pause of a finished
    breathing cycle. *)
Theorem mode_switch_enters_new_effect {L : Libm} rnd a c :
  anim_inv a -> led_on c = true ->
  match a_pc a with
  | ARainbow _ => transition_mode c <> 1
  | ABreathing _ _ => mode_changed c = true
  | _ => False
  end ->
  exists n x out, (n <= 8)%nat /\ run (anim_task_step rnd) 0 n (a, c) = Some (x, out) /\
    a_pc (fst x) = apply_transition_by_mode (transition_mode c) /\ mode_changed (snd x) = false /\
    filter is_frame_write out = [] /\ total_delay out <= 300.
Proof.
  intros (Hi & _ & Hp) Hon Hm; destruct a as [pc h idx]; destruct c as [bl on md mc];
    cbn [a_pc a_color_idx led_on transition_mode mode_changed] in *; subst on.
  unfold apply_transition_by_mode.
  destruct pc as [| | |d|p|p col|]; try contradiction.
  - apply Z.eqb_neq in Hm; destruct (md =? 2) eqn:E2; destruct p; try contradiction;
      run_upto_8 ltac:(eexists _, _; split; [lia|]; split;
        [task_eval ltac:(rewrite ?Hm, ?E2)|];
        cbn; unfold apply_transition_by_mode; rewrite ?Hm, ?E2; repeat split; (reflexivity || lia)).
  - subst mc; destruct (md =? 1) eqn:E1, (md =? 2) eqn:E2; destruct p; try contradiction;
      run_upto_8 ltac:(eexists _, _; split; [lia|]; split;
        [task_eval ltac:(rewrite ?E1, ?E2, ?(palette_lookup_ok idx Hi))|];
        cbn; unfold apply_transition_by_mode; rewrite ?E1, ?E2; repeat split; (reflexivity || lia)).
Qed.

Lemma mode_switch_enters_new_effect_witness :
  exists n x out, (n <= 8)%nat /\
    run (anim_task_step (L := libm_ref) (fun _ => 0)) 0 n
        (mk_astate (ABreathing (Breathing.BRise 37) (palette_at 3)) Rainbow.hue_init 3, mk_ctrl 1 true 0 true)
      = Some (x, out) /\
    a_pc (fst x) = apply_transition_by_mode 0 /\ mode_changed (snd x) = false /\
    filter is_frame_write out = [] /\ total_delay out <= 300.
Proof.
  apply (mode_switch_enters_new_effect (L := libm_ref) (fun _ => 0) _ (mk_ctrl 1 true 0 true));
    [|reflexivity|reflexivity].
  apply anim_inv_intro; [lia|exists 0; split; [lia|reflexivity]|].
  split; [unfold FADE_STEPS; lia|apply palette_at_In; lia].
Defined.

(** C29: with the LEDs off, each pass of the main loop of
    [led_animation_task] writes the full-off encoding to the 15
    channels in order, sleeps 500 ms and stays in the loop, at every
    brightness level the handlers keep. *)
Theorem main_loop_power_off {L : Libm} c rnd h idx :
  led_on c = false -> 0 <= brightness_level c < 3 ->
  exists out, anim_step c rnd (mk_astate AMain h idx) = Some (mk_astate AMain h idx, c, out) /\
    Pwm.exec_cmds (brightness_level c) out =
      Some (map (fun ch => Pwm.IoWrite (Pwm.pca9685_set_pwm (Z.of_nat ch) 4096 0)) (seq 0 15) ++
            [Pwm.IoDelay 500]).
Proof.
  intros Hoff Hb; exists (Pwm.turn_off_all_leds ++ [Delay 500]).
  unfold anim_step; cbn [a_pc]; rewrite Hoff; split; [reflexivity|].
  destruct c as [bl on md mc]; cbn in Hb |- *.
  assert (bl = 0 \/ bl = 1 \/ bl = 2) as [->|[->| ->]] by lia; reflexivity.
Qed.

Lemma main_loop_power_off_witness :
  exists out, anim_step (L := libm_ref) (mk_ctrl 2 false 1 false) 0 (mk_astate AMain Rainbow.hue_init 0)
                = Some (mk_astate AMain Rainbow.hue_init 0, mk_ctrl 2 false 1 false, out) /\
    Pwm.exec_cmds 2 out =
      Some (map (fun ch => Pwm.IoWrite (Pwm.pca9685_set_pwm (Z.of_nat ch) 4096 0)) (seq 0 15) ++
            [Pwm.IoDelay 500]).
Proof. apply (main_loop_power_off (L := libm_ref) (mk_ctrl 2 false 1 false)); [reflexivity|cbn; lia]. Defined.

End Dispatcher.
