(* ===== verification/System.v ===== *)
(** * The whole firmware: interrupt, button task and animation task

    After [app_main] ([src/src/main_app.c] lines 190-224) has brought up
    the controller and started the tasks, three activities share the
    state: the GPIO interrupt ([button_isr_handler]), the button task
    (priority 10) and the animation task (priority 5).  [sys_step]
    interleaves them at the granularity of their steps: an interrupt at
    the current time, one event handled by the button task, or one step
    of the animation task with the random word it may draw; time
    advances by [tick].  The calls each task makes are executed on the
    PWM controller at the brightness level the task reads, and appended
    to the bus trace.

    The theorems: every reachable state is well-formed (mode and
    brightness in range, queue bounded, the effects' states valid); in
    every reachable state the animation task can always take its next
    step, and its calls execute on the controller.  The interrupt arguments are the
    indices 0-2 [Boot.app_main] registers.  [anim_next] and
    [button_next] compute the animation and button steps on a concrete
    state; they are steps of [sys_step], so a computed trace is a
    reachable one ([anim_iter_star]). *)

From Stdlib Require Import ZArith List Lia Bool SpecFloat.
From S2P Require Import Prelude CFloat Globals Color Pwm Rainbow Breathing Dissolve Buttons Dispatcher.
Import ListNotations.
Open Scope Z_scope.

Module System.
Import Globals Dispatcher.

Record sys := mk_sys {
  sctrl : ctrl;
  sinput : Buttons.input;
  sanim : astate;
  sbus : list Pwm.io;
  now_us : Z
}.

(** The state when the tasks start: [app_main] has written the
    controller's initialisation. *)
Definition sys_init : sys := mk_sys ctrl_init Buttons.input_init anim_init Pwm.app_main_io 0.

Section WithLibm.
Context {L : Libm}.

Inductive sys_step : sys -> sys -> Prop :=
| step_tick s d :
    0 <= d ->
    sys_step s (mk_sys (sctrl s) (sinput s) (sanim s) (sbus s) (now_us s + d))
| step_isr s b :
    0 <= b < 3 ->
    sys_step s (mk_sys (sctrl s) (Buttons.button_isr_handler b (now_us s) (sinput s))
                       (sanim s) (sbus s) (now_us s))
| step_button s c' i' cmds ios :
    Buttons.button_task_step (sctrl s) (sinput s) = Some (c', i', cmds) ->
    Pwm.exec_cmds (brightness_level c') cmds = Some ios ->
    sys_step s (mk_sys c' i' (sanim s) (sbus s ++ ios) (now_us s))
| step_anim s rnd a' c' cmds ios :
    is_u32 rnd ->
    anim_step (sctrl s) rnd (sanim s) = Some (a', c', cmds) ->
    Pwm.exec_cmds (brightness_level (sctrl s)) cmds = Some ios ->
    sys_step s (mk_sys c' (sinput s) a' (sbus s ++ ios) (now_us s)).

Definition reachable (s : sys) : Prop := star sys_step sys_init s.

End WithLibm.

Definition sys_inv (s : sys) : Prop :=
  Buttons.ctrl_ok (sctrl s) /\ Buttons.input_ok (sinput s) /\ anim_inv (sanim s).

(** ** Helper lemmas *)

Lemma sys_init_inv : sys_inv sys_init.
Proof.
  unfold sys_inv, Buttons.ctrl_ok, Buttons.input_ok; cbn.
  split; [lia|]; split; [repeat constructor; lia|].
  unfold anim_init, Breathing.color_idx_init; apply anim_inv_intro; [lia| |exact I].
  exists 0; split; [lia|reflexivity].
Qed.

Lemma button_task_step_ok c s c' s' out :
  Buttons.ctrl_ok c -> Buttons.input_ok s ->
  Buttons.button_task_step c s = Some (c', s', out) ->
  Buttons.ctrl_ok c' /\ Buttons.input_ok s'.
Proof.
  intros Hc (H1 & H2 & H3); unfold Buttons.button_task_step.
  destruct (Buttons.queue s) as [|e rest] eqn:Hq; [discriminate|].
  pose proof (Buttons.handle_event_ctrl_ok e c Hc) as Hc'.
  destruct (Buttons.handle_event e c) as [c0 o]; intros H; injection H as <- <- _.
  split; [exact Hc'|]; repeat split; cbn; auto.
  - simpl in H2; lia.
  - inversion H3; auto.
Qed.

Lemma anim_step_ctrl_ok {L : Libm} c rnd a a' c' out :
  Buttons.ctrl_ok c -> anim_step c rnd a = Some (a', c', out) -> Buttons.ctrl_ok c'.
Proof. intros Hc H; destruct (anim_step_ctrl c rnd a a' c' out H) as [-> | ->]; exact Hc. Qed.

Lemma sys_step_inv {L : Libm} s s' : sys_inv s -> sys_step s s' -> sys_inv s'.
Proof.
  intros (Hc & Hi & Ha) H; destruct H; unfold sys_inv; cbn [sctrl sinput sanim].
  - auto.
  - auto using Buttons.isr_input_ok.
  - destruct (button_task_step_ok _ _ _ _ _ Hc Hi H); auto.
  - eauto using anim_step_ctrl_ok, anim_step_inv.
Qed.

Lemma reachable_sys_inv {L : Libm} s : reachable s -> sys_inv s.
Proof. intros H; exact (star_invariant _ _ sys_step_inv _ _ H sys_init_inv). Qed.

(** ** Executable steps

    The step relation's moves as functions, with a boolean telling
    whether the move is enabled, so that a concrete interleaving can be
    evaluated. *)
Section Exec.
Context {L : Libm}.

Definition anim_next (s : sys) (rnd : Z) : option sys :=
  x <- anim_step (sctrl s) rnd (sanim s) ;;
  let '(a', c', cmds) := x in
  ios <- Pwm.exec_cmds (brightness_level (sctrl s)) cmds ;;
  Some (mk_sys c' (sinput s) a' (sbus s ++ ios) (now_us s)).

Definition button_next (s : sys) : option sys :=
  x <- Buttons.button_task_step (sctrl s) (sinput s) ;;
  let '(c', i', cmds) := x in
  ios <- Pwm.exec_cmds (brightness_level c') cmds ;;
  Some (mk_sys c' i' (sanim s) (sbus s ++ ios) (now_us s)).

Lemma anim_next_step s rnd s' : is_u32 rnd -> anim_next s rnd = Some s' -> sys_step s s'.
Proof.
  unfold anim_next; intros Hr H.
  destruct (anim_step (sctrl s) rnd (sanim s)) as [[[a' c'] cmds]|] eqn:E; [|discriminate]; cbn in H.
  destruct (Pwm.exec_cmds _ cmds) as [ios|] eqn:Ei; [|discriminate]; cbn in H.
  injection H as <-; eapply step_anim; eauto.
Qed.

Lemma button_next_step s s' : button_next s = Some s' -> sys_step s s'.
Proof.
  unfold button_next; intros H.
  destruct (Buttons.button_task_step (sctrl s) (sinput s)) as [[[c' i'] cmds]|] eqn:E; [|discriminate]; cbn in H.
  destruct (Pwm.exec_cmds _ cmds) as [ios|] eqn:Ei; [|discriminate]; cbn in H.
  injection H as <-; eapply step_button; eauto.
Qed.

(** [n] animation steps, [esp_random()] returning 0. *)
Fixpoint anim_iter (n : nat) (s : sys) : option sys :=
  match n with
  | O => Some s
  | S n' => obind (anim_next s 0) (anim_iter n')
  end.

Lemma anim_iter_star n s s' : anim_iter n s = Some s' -> star sys_step s s'.
Proof.
  revert s; induction n as [|n IH]; intros s H; cbn in H; [injection H as <-; apply star_refl|].
  destruct (anim_next s 0) as [s1|] eqn:E; [|discriminate]; cbn in H.
  eapply star_step; [apply (anim_next_step s 0 s1); [unfold is_u32; lia|exact E]|apply IH, H].
Qed.
End Exec.

(** A state reached at boot + 0.5 s by a press of the mode button:
    the event is queued. *)
Definition sys_pressed : sys :=
  mk_sys ctrl_init (Buttons.button_isr_handler 0 500000 Buttons.input_init)
         anim_init Pwm.app_main_io 500000.

Lemma sys_pressed_reachable {L : Libm} : reachable sys_pressed.
Proof.
  eapply star_step; [apply (step_tick sys_init 500000); lia|].
  eapply star_step; [apply (step_isr _ 0); lia|].
  apply star_refl.
Qed.

(** ** Properties of the whole firmware *)

(** C14: in every state reachable by any interleaving of interrupts,
    button events and animation steps, the mode and the brightness
    level are in range, the queue holds at most [QUEUE_LENGTH] valid
    events, and the animation task's state is well-formed. *)
Theorem reachable_well_formed {L : Libm} s :
  reachable s ->
  0 <= transition_mode (sctrl s) < 3 /\ 0 <= brightness_level (sctrl s) < 3 /\
  (length (Buttons.queue (sinput s)) <= Buttons.QUEUE_LENGTH)%nat /\
  Forall (fun e => 0 <= e < 3) (Buttons.queue (sinput s)) /\ anim_inv (sanim s).
Proof.
  intros H; destruct (reachable_sys_inv s H) as ([Hm Hb] & (_ & Hq & Hf) & Ha); auto.
Qed.

Lemma reachable_well_formed_witness :
  @reachable libm_ref sys_pressed /\
  (length (Buttons.queue (sinput sys_pressed)) <= Buttons.QUEUE_LENGTH)%nat.
Proof.
  split; [apply sys_pressed_reachable|].
  apply (reachable_well_formed (L := libm_ref) sys_pressed sys_pressed_reachable).
Defined.

(** C15: with a [libm] that makes the breathing frames of the palette
    defined, the animation task never gets stuck: in every reachable
    state, for every random word, its next step is defined and the
    calls it makes execute, so the system takes an animation step. *)
Theorem reachable_anim_progress {L : Libm} s rnd :
  libm_frames_ok -> reachable s -> is_u32 rnd ->
  exists a' c' cmds ios, anim_step (sctrl s) rnd (sanim s) = Some (a', c', cmds) /\
    Pwm.exec_cmds (brightness_level (sctrl s)) cmds = Some ios /\
    sys_step s (mk_sys c' (sinput s) a' (sbus s ++ ios) (now_us s)).
Proof.
  intros Hl H Hr; destruct (reachable_sys_inv s H) as ([_ Hb] & _ & Ha).
  destruct (anim_step_progress (sctrl s) rnd (sanim s) Hl Ha) as (a' & c' & cmds & Hs).
  destruct (Pwm.exec_cmds_ok _ cmds Hb) as [ios Hios].
  exists a', c', cmds, ios; split; [exact Hs|]; split; [exact Hios|].
  eapply step_anim; eauto.
Qed.

Lemma reachable_anim_progress_witness :
  @libm_frames_ok libm_ref /\ @reachable libm_ref sys_pressed /\ is_u32 7 /\
  exists a' c' cmds ios, anim_step (L := libm_ref) (sctrl sys_pressed) 7 (sanim sys_pressed) = Some (a', c', cmds) /\
    Pwm.exec_cmds (brightness_level (sctrl sys_pressed)) cmds = Some ios /\
    sys_step (L := libm_ref) sys_pressed (mk_sys c' (sinput sys_pressed) a' (sbus sys_pressed ++ ios) (now_us sys_pressed)).
Proof.
  assert (Hr : is_u32 7) by (unfold is_u32; lia).
  split; [exact Breathing.libm_ref_frames_ok|]; split; [apply sys_pressed_reachable|]; split; [exact Hr|].
  exact (reachable_anim_progress (L := libm_ref) sys_pressed 7 Breathing.libm_ref_frames_ok sys_pressed_reachable Hr).
Defined.

End System.
