(* ===== verification/Compose.v ===== *)
(** * Composing the effects with the animation task

    [led_animation_task] ([src/src/main_app.c] lines 173-186) calls
    [apply_transition_by_mode] ([src/src/transitons.c] lines 165-173),
    which runs one effect until its loop ends.  [Dispatcher.anim_step]
    embeds each effect's step machine in the task's; this file relates
    the two: an effect's run to its return is lifted to a run of the
    task ending at [AClear] ([lift_run], a forward simulation of the
    effect's steps by the task's steps through an embedding), and for
    each effect the number of steps it still takes once its loop
    condition is false is bounded:
    - the rainbow: at most 2 steps ([rainbow_stop_mu]);
    - breathing: [Breathing.dist], at most [2 * FADE_STEPS + 6];
    - the dissolve: with the LEDs off [Dissolve.off_remaining] (at most
      [2 * FADE_STEPS + 4]); with the LEDs on and another mode
      [Dissolve.remaining], up to 1022 steps (the rest of a pass).
    [PowerOff] and [ModeChange] build on these. *)

From Stdlib Require Import ZArith List Lia Bool SpecFloat.
From S2P Require Import Prelude CFloat Globals Color Pwm Rainbow Breathing Dissolve Dispatcher.
Import ListNotations.
Open Scope Z_scope.

Module Compose.
Import Globals Color Dispatcher.

(** ** Lifting an effect's run to the task *)

Section Lift.
Context {L : Libm} {E : Type} (rnd : nat -> Z) (c : ctrl).
Variables (estep : nat -> E -> option (E * list cmd)) (P : E -> Prop) (edone : E -> bool)
  (mu : E -> nat) (emb : E -> astate).
Hypothesis Hz : forall e, P e -> mu e = O <-> edone e = true.
Hypothesis Hstep : forall k e, P e -> edone e = false ->
  exists e' o, estep k e = Some (e', o) /\ P e' /\ S (mu e') = mu e.
Hypothesis Hemb : forall k e e' o, estep k e = Some (e', o) ->
  anim_step c (rnd k) (emb e) = Some (if edone e' then set_pc (emb e') AClear else emb e', c, o).

Lemma lift_run n :
  forall e k, P e -> edone e = false -> mu e = n ->
  exists e' o, run (anim_task_step rnd) k n (emb e, c) = Some ((set_pc (emb e') AClear, c), o).
Proof.
  induction n as [|n IH]; intros e k Hp Hd Hn; [pose proof (proj1 (Hz e Hp) Hn); congruence|].
  destruct (Hstep k e Hp Hd) as (e1 & o1 & E1 & Hp1 & Hm1).
  pose proof (Hemb k e e1 o1 E1) as A1.
  destruct (edone e1) eqn:Hd1.
  - assert (n = O) by (pose proof (proj2 (Hz e1 Hp1) Hd1); lia); subst n.
    exists e1, (o1 ++ []); apply task_run_cons with (a1 := set_pc (emb e1) AClear) (c1 := c) (o1 := o1);
      [exact A1|reflexivity].
  - destruct (IH e1 (S k) Hp1 Hd1 ltac:(lia)) as (e2 & o2 & E2).
    exists e2, (o1 ++ o2); eapply task_run_cons; [exact A1|exact E2].
Qed.
End Lift.

(** ** Each effect once its loop condition is false *)

(** Steps the rainbow still takes once [led_on && transition_mode == 1]
    is false. *)
Definition rainbow_stop_mu (c : ctrl) (r : Rainbow.rstate) : nat :=
  match Rainbow.r_pc r with
  | Rainbow.RWhile => if led_on c then 2 else 1
  | Rainbow.RMode => if transition_mode c =? 1 then 2 else 1
  | Rainbow.RRet => 0
  end.

Definition rainbow_done (r : Rainbow.rstate) : bool :=
  match Rainbow.r_pc r with Rainbow.RRet => true | _ => false end.

Definition breathing_done (b : Breathing.bstate) : bool :=
  match Breathing.b_pc b with Breathing.BRet => true | _ => false end.

Lemma rainbow_stop_step c k r :
  led_on c && (transition_mode c =? 1) = false -> Rainbow.reachable_hue (Rainbow.hue r) ->
  rainbow_done r = false ->
  exists r' o, (fun _ : nat => Rainbow.rainbow_step c) k r = Some (r', o) /\
    Rainbow.reachable_hue (Rainbow.hue r') /\ S (rainbow_stop_mu c r') = rainbow_stop_mu c r.
Proof.
  intros Hs Hh Hd; destruct r as [p h]; unfold rainbow_done, rainbow_stop_mu in *; cbn in Hh, Hd |- *.
  destruct p; try discriminate; unfold Rainbow.rainbow_step; cbn [Rainbow.r_pc Rainbow.hue].
  - eexists _, _; split; [reflexivity|split; [exact Hh|]]; cbn.
    destruct (led_on c); cbn in Hs |- *; [rewrite Hs|]; reflexivity.
  - destruct (transition_mode c =? 1) eqn:E.
    + rewrite andb_true_r in Hs; destruct Hh as (k0 & Hk & ->).
      destruct (Rainbow.rainbow_frame_pixels k0 Hk) as (p0 & p1 & p2 & p3 & p4 & -> & _); cbn.
      eexists _, _; split; [reflexivity|split; [|rewrite Hs; reflexivity]].
      exists ((k0 + 1) mod 120); split; [apply Z.mod_pos_bound; lia|apply Rainbow.hue_next_3k, Hk].
    + eexists _, _; split; [reflexivity|split; [exact Hh|reflexivity]].
Qed.

Lemma breathing_stop_step {L : Libm} c k b :
  libm_frames_ok -> Breathing.breathing_runs c = false -> Breathing.bvalid b -> breathing_done b = false ->
  exists b' o, (fun _ : nat => Breathing.breathing_step c) k b = Some (b', o) /\ Breathing.bvalid b' /\
    S (Z.to_nat (Breathing.dist c (Breathing.b_pc b'))) = Z.to_nat (Breathing.dist c (Breathing.b_pc b)).
Proof.
  intros Hl Hr Hv Hd.
  assert (Hn : Breathing.b_pc b <> Breathing.BRet) by (unfold breathing_done in Hd; destruct (Breathing.b_pc b); congruence).
  destruct (Breathing.breathing_step_valid Hl c b Hv Hn) as (b1 & o1 & E1 & Hv1 & Hm & _).
  exists b1, o1; split; [exact E1|split; [exact Hv1|]].
  specialize (Hm Hr); pose proof (proj1 (Breathing.dist_bounds c b1 Hv1 Hr)); lia.
Qed.

Lemma off_remaining_bounds m pc :
  Dissolve.pc_ok pc -> 0 <= Dissolve.off_remaining m pc <= 2 * FADE_STEPS + 4 /\
    (Dissolve.off_remaining m pc = 0 <-> pc = Dissolve.DRet).
Proof.
  intros Hp; destruct pc; unfold Dissolve.off_remaining; case_ifs;
    (split; [Dissolve.dissolve_arith|split; [intros; (reflexivity || Dissolve.dissolve_arith)|discriminate]])
    || (split; [Dissolve.dissolve_arith|split; reflexivity]).
Qed.

Lemma remaining_bounds pc :
  Dissolve.pc_ok pc -> 0 <= Dissolve.remaining pc <= 1022 /\ (Dissolve.remaining pc = 0 <-> pc = Dissolve.DRet).
Proof.
  intros Hp; destruct pc;
    (split; [Dissolve.dissolve_arith|split; [intros; (reflexivity || Dissolve.dissolve_arith)|discriminate]])
    || (split; [Dissolve.dissolve_arith|split; reflexivity]).
Qed.

Lemma dissolve_off_step c (rnd : nat -> Z) k d :
  led_on c = false -> Dissolve.dissolve_inv d -> Dissolve.is_ret d = false ->
  exists d' o, (fun k => Dissolve.dissolve_step c (rnd k)) k d = Some (d', o) /\ Dissolve.dissolve_inv d' /\
    S (Z.to_nat (Dissolve.off_remaining (transition_mode c) (Dissolve.d_pc d'))) =
      Z.to_nat (Dissolve.off_remaining (transition_mode c) (Dissolve.d_pc d)).
Proof.
  intros Hoff Hi Hd.
  destruct (Dissolve.step_power_off c (rnd k) d Hi Hoff (Dissolve.is_ret_false d Hd))
    as (d1 & o1 & E1 & Hi1 & Hm & _).
  exists d1, o1; split; [exact E1|split; [exact Hi1|]].
  pose proof (off_remaining_bounds (transition_mode c) _ (proj1 Hi1)); lia.
Qed.

Lemma dissolve_mode_step c (rnd : nat -> Z) k d :
  led_on c = true -> transition_mode c <> 0 -> Dissolve.dissolve_inv d -> Dissolve.is_ret d = false ->
  exists d' o, (fun k => Dissolve.dissolve_step c (rnd k)) k d = Some (d', o) /\ Dissolve.dissolve_inv d' /\
    S (Z.to_nat (Dissolve.remaining (Dissolve.d_pc d'))) = Z.to_nat (Dissolve.remaining (Dissolve.d_pc d)).
Proof.
  intros Hon Hm Hi Hd.
  destruct (Dissolve.step_mode_changed c (rnd k) d Hi Hon Hm (Dissolve.is_ret_false d Hd))
    as (d1 & o1 & E1 & Hi1 & Hr & _).
  exists d1, o1; split; [exact E1|split; [exact Hi1|]].
  pose proof (remaining_bounds _ (proj1 Hi1)); lia.
Qed.

Lemma anim_inv_bvalid p col h idx :
  anim_inv (mk_astate (ABreathing p col) h idx) -> Breathing.bvalid (Breathing.mk_bstate p col idx).
Proof. intros (Hi & _ & Hp); split; [exact Hi|]; destruct p; cbn in Hp |- *; tauto. Qed.

(** ** Embedding the effects in the task *)

Definition emb_dissolve (h : float) (idx : Z) (d : Dissolve.dstate) : astate :=
  mk_astate (ADissolve d) h idx.
Definition emb_rainbow (idx : Z) (r : Rainbow.rstate) : astate :=
  mk_astate (ARainbow (Rainbow.r_pc r)) (Rainbow.hue r) idx.
Definition emb_breathing (h : float) (b : Breathing.bstate) : astate :=
  mk_astate (ABreathing (Breathing.b_pc b) (Breathing.color b)) h (Breathing.color_idx b).

Section Embed.
Context {L : Libm} (rnd : nat -> Z) (c : ctrl).

Lemma dissolve_emb h idx k d d' o :
  (fun k => Dissolve.dissolve_step c (rnd k)) k d = Some (d', o) ->
  anim_step c (rnd k) (emb_dissolve h idx d) =
    Some (if Dissolve.is_ret d' then set_pc (emb_dissolve h idx d') AClear else emb_dissolve h idx d', c, o).
Proof.
  intros H; unfold anim_step; cbn; rewrite H; cbn.
  unfold Dissolve.is_ret; destruct (Dissolve.d_pc d'); reflexivity.
Qed.

Lemma rainbow_emb idx k r r' o :
  (fun _ : nat => Rainbow.rainbow_step c) k r = Some (r', o) ->
  anim_step c (rnd k) (emb_rainbow idx r) =
    Some (if rainbow_done r' then set_pc (emb_rainbow idx r') AClear else emb_rainbow idx r', c, o).
Proof.
  destruct r as [p h]; intros H; unfold anim_step; cbn in H |- *; rewrite H; cbn.
  unfold rainbow_done; destruct r' as [p' h']; destruct p'; reflexivity.
Qed.

Lemma breathing_emb h k b b' o :
  (fun _ : nat => Breathing.breathing_step c) k b = Some (b', o) ->
  anim_step c (rnd k) (emb_breathing h b) =
    Some (if breathing_done b' then set_pc (emb_breathing h b') AClear else emb_breathing h b', c, o).
Proof.
  destruct b as [p col idx]; intros H; unfold anim_step; cbn in H |- *; rewrite H; cbn.
  unfold breathing_done; destruct b' as [p' col' idx']; destruct p'; reflexivity.
Qed.

(** A dissolve whose steps lower a measure [mu] reaches [AClear] in
    exactly [mu d] task steps. *)
Lemma dissolve_to_clear (mu : Dissolve.dstate -> nat) k h idx d :
  (forall d0, Dissolve.dissolve_inv d0 -> mu d0 = O <-> Dissolve.is_ret d0 = true) ->
  (forall k0 d0, Dissolve.dissolve_inv d0 -> Dissolve.is_ret d0 = false ->
     exists d1 o, (fun k => Dissolve.dissolve_step c (rnd k)) k0 d0 = Some (d1, o) /\
       Dissolve.dissolve_inv d1 /\ S (mu d1) = mu d0) ->
  Dissolve.dissolve_inv d -> Dissolve.d_pc d <> Dissolve.DRet ->
  exists o, run (anim_task_step rnd) k (mu d) (emb_dissolve h idx d, c) = Some ((mk_astate AClear h idx, c), o).
Proof.
  intros Hz Hs Hi Hne.
  destruct (lift_run rnd c _ Dissolve.dissolve_inv Dissolve.is_ret mu (emb_dissolve h idx) Hz Hs
              (dissolve_emb h idx) (mu d) d k Hi) as (d' & o & E);
    [unfold Dissolve.is_ret; destruct (Dissolve.d_pc d); congruence|reflexivity|].
  exists o; exact E.
Qed.

(** The rainbow, once its loop condition is false, reaches [AClear]
    within 2 task steps. *)
Lemma rainbow_to_clear k p h idx :
  led_on c && (transition_mode c =? 1) = false -> Rainbow.reachable_hue h -> p <> Rainbow.RRet ->
  exists n h' o, (n <= 2)%nat /\
    run (anim_task_step rnd) k n (mk_astate (ARainbow p) h idx, c) = Some ((mk_astate AClear h' idx, c), o).
Proof.
  intros Hs Hh Hp.
  destruct (lift_run rnd c (fun _ => Rainbow.rainbow_step c) (fun r => Rainbow.reachable_hue (Rainbow.hue r))
              rainbow_done (rainbow_stop_mu c) (emb_rainbow idx))
    with (e := Rainbow.mk_rstate p h) (k := k) (n := rainbow_stop_mu c (Rainbow.mk_rstate p h))
    as (r' & o & E); auto.
  - intros r0 _; unfold rainbow_done, rainbow_stop_mu; destruct (Rainbow.r_pc r0);
      case_ifs; split; intros; (reflexivity || congruence).
  - intros k0 r0 Hr0 Hd0; apply rainbow_stop_step; auto.
  - intros k0 r0 r1 o0 E0; apply rainbow_emb, E0.
  - destruct p; [reflexivity|reflexivity|contradiction].
  - exists (rainbow_stop_mu c (Rainbow.mk_rstate p h)), (Rainbow.hue r'), o; split; [|exact E].
    unfold rainbow_stop_mu; cbn; destruct p; case_ifs; lia.
Qed.

(** Breathing, once its loop condition is false, reaches [AClear]
    within [2 * FADE_STEPS + 6] task steps. *)
Lemma breathing_to_clear k p col h idx :
  libm_frames_ok -> Breathing.breathing_runs c = false -> anim_inv (mk_astate (ABreathing p col) h idx) ->
  exists n i' o, (n <= 2 * Z.to_nat FADE_STEPS + 6)%nat /\
    run (anim_task_step rnd) k n (mk_astate (ABreathing p col) h idx, c) = Some ((mk_astate AClear h i', c), o).
Proof.
  intros Hl Hr Ha; pose proof (anim_inv_bvalid p col h idx Ha) as Hv.
  destruct (Breathing.dist_bounds c _ Hv Hr) as [Hb Hz].
  destruct (lift_run rnd c (fun _ => Breathing.breathing_step c) Breathing.bvalid breathing_done
              (fun b => Z.to_nat (Breathing.dist c (Breathing.b_pc b))) (emb_breathing h))
    with (e := Breathing.mk_bstate p col idx) (k := k) (n := Z.to_nat (Breathing.dist c p)) as (b' & o & E); auto.
  - intros b0 Hb0; destruct (Breathing.dist_bounds c b0 Hb0 Hr) as [Hb1 Hz1]; unfold breathing_done.
    split; intros H0.
    + rewrite (proj1 Hz1 ltac:(lia)); reflexivity.
    + destruct (Breathing.b_pc b0); try discriminate; reflexivity.
  - intros k0 b0 Hb0 Hd0; apply breathing_stop_step; auto.
  - intros k0 b0 b1 o0 E0; apply breathing_emb, E0.
  - destruct Ha as (_ & _ & Hp); unfold breathing_done; destruct p; cbn in Hp |- *; try reflexivity; contradiction.
  - exists (Z.to_nat (Breathing.dist c p)), (Breathing.color_idx b'), o; split; [|exact E].
    cbn in Hb; change (Z.to_nat FADE_STEPS) with 100%nat; unfold FADE_STEPS in *; lia.
Qed.

(** The dissolve with the LEDs off reaches [AClear] within
    [2 * FADE_STEPS + 4] task steps. *)
Lemma dissolve_off_to_clear k d h idx :
  led_on c = false -> anim_inv (mk_astate (ADissolve d) h idx) ->
  exists n o, (n <= 2 * Z.to_nat FADE_STEPS + 4)%nat /\
    run (anim_task_step rnd) k n (mk_astate (ADissolve d) h idx, c) = Some ((mk_astate AClear h idx, c), o).
Proof.
  intros Hoff (_ & _ & Hd & Hne).
  pose proof (off_remaining_bounds (transition_mode c) _ (proj1 Hd)) as (Hb & Hz).
  destruct (dissolve_to_clear (fun d => Z.to_nat (Dissolve.off_remaining (transition_mode c) (Dissolve.d_pc d)))
              k h idx d) as (o & E); auto.
  - intros d0 Hd0; pose proof (off_remaining_bounds (transition_mode c) _ (proj1 Hd0)) as (Hb0 & Hz0).
    unfold Dissolve.is_ret; split; intros H0.
    + rewrite (proj1 Hz0 ltac:(lia)); reflexivity.
    + destruct (Dissolve.d_pc d0); try discriminate; reflexivity.
  - intros k0 d0 Hd0 Hr0; apply dissolve_off_step; auto.
  - exists (Z.to_nat (Dissolve.off_remaining (transition_mode c) (Dissolve.d_pc d))), o; split; [|exact E].
    change (Z.to_nat FADE_STEPS) with 100%nat; unfold FADE_STEPS in *; lia.
Qed.

(** The dissolve with the LEDs on and another mode selected reaches
    [AClear] at the end of its pass, within 1022 task steps. *)
Lemma dissolve_mode_to_clear k d h idx :
  led_on c = true -> transition_mode c <> 0 -> anim_inv (mk_astate (ADissolve d) h idx) ->
  exists n o, (n <= 1022)%nat /\
    run (anim_task_step rnd) k n (mk_astate (ADissolve d) h idx, c) = Some ((mk_astate AClear h idx, c), o).
Proof.
  intros Hon Hm (_ & _ & Hd & Hne).
  pose proof (remaining_bounds _ (proj1 Hd)) as (Hb & Hz).
  destruct (dissolve_to_clear (fun d => Z.to_nat (Dissolve.remaining (Dissolve.d_pc d))) k h idx d)
    as (o & E); auto.
  - intros d0 Hd0; pose proof (remaining_bounds _ (proj1 Hd0)) as (Hb0 & Hz0).
    unfold Dissolve.is_ret; split; intros H0.
    + rewrite (proj1 Hz0 ltac:(lia)); reflexivity.
    + destruct (Dissolve.d_pc d0); try discriminate; reflexivity.
  - intros k0 d0 Hd0 Hr0; apply dissolve_mode_step; auto.
  - exists (Z.to_nat (Dissolve.remaining (Dissolve.d_pc d))), o; split; [lia|exact E].
Qed.
End Embed.

End Compose.
