(* ===== verification/PowerOff.v ===== *)
(** * The power-off path: from the toggle to dark LEDs

    [button_task] ([src/src/buttons.c] lines 71-77) clears [led_on] and
    turns the LEDs off at once; the animation task only notices at its
    next test of [led_on], inside the running effect or in the main loop
    of [led_animation_task] ([src/src/main_app.c] lines 173-186), and
    keeps writing frames until then.  This file composes the effects'
    latencies under a power-off with the dispatcher: each effect's run
    to its return is lifted to a run of the task ([Compose.lift_run], a
    forward simulation of the effect's steps by the task's steps), and the task
    then passes [AClear] and reaches the main loop, whose pass writes the
    full-off encoding to all channels.

    The theorem: from every reachable state with the LEDs off, the
    animation task alone reaches its main loop within
    [2 * FADE_STEPS + 10] steps and then leaves every channel of the
    controller dark, whatever it wrote before; and that is the first
    moment at which darkness is guaranteed: a computed reachable trace
    ([sys_fade], [sys_off_handled], [sys_relit]) shows the dissolve's
    opening fade lighting a channel right after the power button turned
    every channel off. *)

From Stdlib Require Import ZArith List Lia Bool SpecFloat.
From S2P Require Import Prelude CFloat Globals Color Pwm Rainbow Breathing Dissolve Buttons Dispatcher System Compose.
Import ListNotations.
Open Scope Z_scope.

Module PowerOff.
Import Globals Color Dispatcher.

(** ** The running effect under a power-off *)

(** From any state of an effect, with the LEDs off, the task reaches
    [AClear] within [2 * FADE_STEPS + 6] steps. *)
Lemma effect_to_clear {L : Libm} rnd c k a :
  libm_frames_ok -> anim_inv a -> led_on c = false ->
  match a_pc a with ADissolve _ | ARainbow _ | ABreathing _ _ => True | _ => False end ->
  exists n h' i' o, (n <= 2 * Z.to_nat FADE_STEPS + 6)%nat /\
    run (anim_task_step rnd) k n (a, c) = Some ((mk_astate AClear h' i', c), o).
Proof.
  intros Hl Ha Hoff Hk; destruct a as [pc h idx]; destruct pc as [| | |d|p|p col|]; try contradiction.
  - destruct (Compose.dissolve_off_to_clear rnd c k d h idx Hoff Ha) as (n & o & Hn & E).
    exists n, h, idx, o; split; [lia|exact E].
  - destruct (Compose.rainbow_to_clear rnd c k p h idx) as (n & h' & o & Hn & E);
      [rewrite Hoff; reflexivity|exact (proj1 (proj2 Ha))|exact (proj2 (proj2 Ha))|].
    exists n, h', idx, o; split; [lia|exact E].
  - destruct (Compose.breathing_to_clear rnd c k p col h idx Hl) as (n & i' & o & Hn & E);
      [unfold Breathing.breathing_runs; rewrite Hoff; reflexivity|exact Ha|].
    exists n, h, i', o; split; [lia|exact E].
Qed.

(** ** The task reaches its main loop *)

Lemma clear_then_off {L : Libm} rnd k h i c :
  led_on c = false ->
  run (anim_task_step rnd) k 2 (mk_astate AClear h i, c) =
    Some ((mk_astate AMain h i, set_mode_changed c false),
          [] ++ ((Pwm.turn_off_all_leds ++ [Delay 500]) ++ [])).
Proof.
  intros Hoff; eapply task_run_cons; [reflexivity|]; eapply task_run_cons; [|apply task_run_nil].
  destruct c as [bl on md mc]; cbn in Hoff; subst on; reflexivity.
Qed.

Lemma main_off_step {L : Libm} r h i c :
  led_on c = false ->
  anim_step c r (mk_astate AMain h i) = Some (mk_astate AMain h i, c, Pwm.turn_off_all_leds ++ [Delay 500]).
Proof. intros Hoff; unfold anim_step; cbn; rewrite Hoff; reflexivity. Qed.

(** Reaching [AClear] at step [k + n] and then the main loop. *)
Lemma via_clear {L : Libm} rnd n a c h i o :
  led_on c = false ->
  run (anim_task_step rnd) 0 n (a, c) = Some ((mk_astate AClear h i, c), o) ->
  run (anim_task_step rnd) 0 (n + 2) (a, c) =
    Some ((mk_astate AMain h i, set_mode_changed c false), (o ++ []) ++ Pwm.turn_off_all_leds ++ [Delay 500]).
Proof.
  intros Hoff H; rewrite (run_app _ 0 n 2 _ _ _ _ _ H (clear_then_off rnd (0 + n) h i c Hoff)).
  rewrite app_nil_r, app_nil_l, app_nil_r; reflexivity.
Qed.

(** With the LEDs off, from every well-formed state the task alone
    reaches its main loop within [2 * FADE_STEPS + 10] steps, its last
    calls being the main loop's pass: [turn_off_all_leds] and 500 ms. *)
Lemma anim_off_reaches_main {L : Libm} rnd a c :
  libm_frames_ok -> anim_inv a -> led_on c = false ->
  exists n x pre, (n <= 2 * Z.to_nat FADE_STEPS + 10)%nat /\
    run (anim_task_step rnd) 0 n (a, c) = Some (x, pre ++ Pwm.turn_off_all_leds ++ [Delay 500]) /\
    a_pc (fst x) = AMain /\ led_on (snd x) = false /\ brightness_level (snd x) = brightness_level c.
Proof.
  intros Hl Ha Hoff; change (Z.to_nat FADE_STEPS) with 100%nat.
  assert (Heff : forall a0, anim_inv a0 ->
            match a_pc a0 with ADissolve _ | ARainbow _ | ABreathing _ _ => True | _ => False end ->
            exists n x pre, (n <= 2 * 100 + 10)%nat /\
              run (anim_task_step rnd) 0 n (a0, c) = Some (x, pre ++ Pwm.turn_off_all_leds ++ [Delay 500]) /\
              a_pc (fst x) = AMain /\ led_on (snd x) = false /\ brightness_level (snd x) = brightness_level c).
  { intros a0 Ha0 Hk0.
    destruct (effect_to_clear rnd c 0 a0 Hl Ha0 Hoff Hk0) as (n & h' & i' & o & Hn & E).
    change (Z.to_nat FADE_STEPS) with 100%nat in Hn.
    exists (n + 2)%nat, (mk_astate AMain h' i', set_mode_changed c false), (o ++ []).
    split; [lia|split; [apply via_clear; assumption|split; [reflexivity|split; [exact Hoff|reflexivity]]]]. }
  destruct a as [pc h i] eqn:Ea; destruct pc as [| | |d|p|p col|].
  - exists 2%nat, (mk_astate AMain h i, c), boot_cmds; split; [lia|split; [|split; [reflexivity|split; [exact Hoff|reflexivity]]]].
    assert (E : run (anim_task_step rnd) 0 2 (mk_astate ABoot h i, c) =
                Some ((mk_astate AMain h i, c), boot_cmds ++ ((Pwm.turn_off_all_leds ++ [Delay 500]) ++ [])))
      by (eapply task_run_cons; [reflexivity|]; eapply task_run_cons; [apply main_off_step, Hoff|apply task_run_nil]).
    rewrite app_nil_r in E; exact E.
  - exists 1%nat, (mk_astate AMain h i, c), []; split; [lia|split; [|split; [reflexivity|split; [exact Hoff|reflexivity]]]].
    assert (E : run (anim_task_step rnd) 0 1 (mk_astate AMain h i, c) =
                Some ((mk_astate AMain h i, c), (Pwm.turn_off_all_leds ++ [Delay 500]) ++ []))
      by (eapply task_run_cons; [apply main_off_step, Hoff|apply task_run_nil]).
    rewrite app_nil_r in E; exact E.
  - set (a1 := mk_astate (apply_transition_by_mode (transition_mode c)) h i).
    assert (S1 : anim_step c (rnd 0%nat) (mk_astate ADispatch h i) = Some (a1, c, [])) by reflexivity.
    assert (Ha1 : anim_inv a1) by (subst; eapply anim_step_inv; [exact Ha|exact S1]).
    assert (Hk1 : match a_pc a1 with ADissolve _ | ARainbow _ | ABreathing _ _ => True | _ => False end)
      by (cbn; unfold apply_transition_by_mode; case_ifs; exact I).
    destruct (effect_to_clear rnd c 1 a1 Hl Ha1 Hoff Hk1) as (n & h' & i' & o & Hn & E).
    change (Z.to_nat FADE_STEPS) with 100%nat in Hn.
    pose proof (task_run_cons rnd 0 n _ _ _ _ _ _ _ S1 E) as E1.
    exists (S n + 2)%nat, (mk_astate AMain h' i', set_mode_changed c false), (([] ++ o) ++ []).
    split; [lia|split; [apply via_clear; assumption|split; [reflexivity|split; [exact Hoff|reflexivity]]]].
  - subst a; apply Heff; [exact Ha|exact I].
  - subst a; apply Heff; [exact Ha|exact I].
  - subst a; apply Heff; [exact Ha|exact I].
  - exists 2%nat, (mk_astate AMain h i, set_mode_changed c false), []; split; [lia|split; [|split; [reflexivity|split; [exact Hoff|reflexivity]]]].
    rewrite (clear_then_off rnd 0 h i c Hoff); reflexivity.
Qed.


(** ** The LEDs end dark *)

(** The LEDs are off and dark: [led_on] is false and the last write to
    each of the 15 channels is the full-off encoding. *)
Definition off_and_dark (s : System.sys) : Prop :=
  led_on (System.sctrl s) = false /\ Pwm.all_dark (System.sbus s).

(** C11: a power-off is eventually honoured: from every reachable
    state in which the LEDs are off, the animation task alone reaches
    its main loop within [2 * FADE_STEPS + 10] steps (the rest of the
    running effect, its return and the main loop's test), every call it
    makes on the way executes, and afterwards every one of the 15
    channels of the controller holds the full-off encoding, whatever
    the effect wrote after the button task had turned the LEDs off. *)
Theorem power_off_leaves_leds_dark {L : Libm} rnd s :
  libm_frames_ok -> System.reachable s -> led_on (System.sctrl s) = false ->
  exists n x out ios, (n <= 2 * Z.to_nat FADE_STEPS + 10)%nat /\
    run (anim_task_step rnd) 0 n (System.sanim s, System.sctrl s) = Some (x, out) /\
    a_pc (fst x) = AMain /\
    Pwm.exec_cmds (brightness_level (System.sctrl s)) out = Some ios /\
    off_and_dark (System.mk_sys (snd x) (System.sinput s) (fst x) (System.sbus s ++ ios) (System.now_us s)).
Proof.
  intros Hl Hr Hoff; destruct (System.reachable_sys_inv s Hr) as ([_ Hb] & _ & Ha).
  destruct (anim_off_reaches_main rnd _ _ Hl Ha Hoff) as (n & x & pre & Hn & E & Hx & Hx' & _).
  destruct (Pwm.exec_cmds_ok _ pre Hb) as [ipre Ep].
  destruct (Pwm.off_pass_dark _ (System.sbus s ++ ipre) Hb) as (ioff & Eo & Hd).
  exists n, x, (pre ++ Pwm.turn_off_all_leds ++ [Delay 500]), (ipre ++ ioff).
  split; [exact Hn|split; [exact E|split; [exact Hx|split]]].
  - rewrite Pwm.exec_cmds_app, Ep, Eo; reflexivity.
  - split; [exact Hx'|cbn [System.sbus]; rewrite app_assoc; exact Hd].
Qed.

(** The state after a press of the power button 0.5 s after boot,
    handled by the button task (which turned the LEDs off), before the
    animation task has run. *)
Definition sys_off : System.sys :=
  System.mk_sys (set_led_on ctrl_init false) (Buttons.mk_input [0; 500; 0] []) anim_init
    (Pwm.app_main_io ++ map (fun ch => Pwm.IoWrite (Pwm.pca9685_set_pwm (Z.of_nat ch) 4096 0)) (seq 0 15))
    500000.

Lemma sys_off_reachable {L : Libm} : System.reachable sys_off.
Proof.
  eapply star_step; [apply (System.step_tick System.sys_init 500000); lia|].
  eapply star_step; [apply (System.step_isr _ 1); lia|].
  eapply star_step; [eapply System.step_button; reflexivity|].
  apply star_refl.
Qed.

Lemma power_off_leaves_leds_dark_witness :
  @libm_frames_ok libm_ref /\ @System.reachable libm_ref sys_off /\ led_on (System.sctrl sys_off) = false /\
  exists n x out ios, (n <= 2 * Z.to_nat FADE_STEPS + 10)%nat /\
    run (anim_task_step (L := libm_ref) (fun _ => 0)) 0 n (System.sanim sys_off, System.sctrl sys_off)
      = Some (x, out) /\
    a_pc (fst x) = AMain /\
    Pwm.exec_cmds (brightness_level (System.sctrl sys_off)) out = Some ios /\
    off_and_dark (System.mk_sys (snd x) (System.sinput sys_off) (fst x) (System.sbus sys_off ++ ios)
                    (System.now_us sys_off)).
Proof.
  split; [exact Breathing.libm_ref_frames_ok|split; [apply sys_off_reachable|split; [reflexivity|]]].
  exact (power_off_leaves_leds_dark (L := libm_ref) (fun _ => 0) sys_off Breathing.libm_ref_frames_ok
           sys_off_reachable eq_refl).
Defined.

(** A trace of the system ([esp_random()] returning 0): four steps of
    the animation task (the boot test pattern, the main loop, the
    dispatch to the dissolve, the draw of its shared colour), 0.5 s, a
    press of the power button handled by the button task (which turns
    every channel off), and the next step of the animation task. *)
Definition sys_fade : System.sys :=
  Eval vm_compute in
  match @System.anim_iter libm_ref 4 System.sys_init with Some s => s | None => System.sys_init end.

Definition sys_pressed : System.sys :=
  System.mk_sys (System.sctrl sys_fade)
    (Buttons.button_isr_handler 1 (System.now_us sys_fade + 500000) (System.sinput sys_fade))
    (System.sanim sys_fade) (System.sbus sys_fade) (System.now_us sys_fade + 500000).

Definition sys_off_handled : System.sys :=
  Eval vm_compute in match System.button_next sys_pressed with Some s => s | None => sys_pressed end.

Definition sys_relit : System.sys :=
  Eval vm_compute in
  match @System.anim_next libm_ref sys_off_handled 0 with Some s => s | None => sys_off_handled end.

Lemma sys_off_handled_reachable : @System.reachable libm_ref sys_off_handled.
Proof.
  eapply star_trans; [apply (System.anim_iter_star 4); vm_compute; reflexivity|].
  eapply star_step; [apply (System.step_tick _ 500000); lia|].
  eapply star_step; [apply (System.step_isr _ 1); lia|].
  apply star_one, (@System.button_next_step libm_ref sys_pressed); vm_compute; reflexivity.
Qed.

Lemma sys_off_handled_dark : Pwm.all_dark (System.sbus sys_off_handled).
Proof.
  intros ch Hch.
  assert (ch = 0 \/ ch = 1 \/ ch = 2 \/ ch = 3 \/ ch = 4 \/ ch = 5 \/ ch = 6 \/ ch = 7 \/ ch = 8 \/
          ch = 9 \/ ch = 10 \/ ch = 11 \/ ch = 12 \/ ch = 13 \/ ch = 14) as Hc by lia.
  repeat destruct Hc as [->|Hc]; [..|subst]; vm_compute; reflexivity.
Qed.

(** C12: the LEDs are relit after the power button: there is a
    reachable state, the power button having just been handled (the
    LEDs off and every channel dark), from which one step of the
    animation task (the opening fade of the dissolve, which never reads
    [led_on]) lights channels again while [led_on] stays false. *)
Theorem power_off_relit :
  exists s1 s2, @System.reachable libm_ref s1 /\ off_and_dark s1 /\ @System.sys_step libm_ref s1 s2 /\
    led_on (System.sctrl s2) = false /\ ~ Pwm.all_dark (System.sbus s2).
Proof.
  exists sys_off_handled, sys_relit.
  split; [exact sys_off_handled_reachable|split; [split; [reflexivity|exact sys_off_handled_dark]|]].
  split; [apply (System.anim_next_step sys_off_handled 0); [unfold is_u32; lia|vm_compute; reflexivity]|].
  split; [reflexivity|].
  intros Hd; specialize (Hd 0 ltac:(lia)); vm_compute in Hd; discriminate Hd.
Qed.

End PowerOff.
