(* ===== verification/ModeChange.v ===== *)
(** * The mode-change path: from the mode button to the new effect

    [button_task] ([src/src/buttons.c] lines 62-69) advances
    [transition_mode] and raises [mode_changed]; the running effect
    notices at its next test: the rainbow at its [while] condition
    ([transition_mode == 1]), breathing at its [while] condition or at
    any [mode_changed] test of its loops, the dissolve only at its
    [while] condition, once per pass over the five LEDs.  When the
    effect returns, [apply_transition_by_mode] clears [mode_changed]
    ([transitons.c] line 172) and the main loop of [led_animation_task]
    ([main_app.c] lines 173-186) dispatches on the new mode.

    The theorem: from every reachable state in which the LEDs are on
    and the running effect's mode differs from [transition_mode] (or
    breathing runs with [mode_changed] raised), the animation task
    alone enters the effect of the current mode within 1025 steps (the
    rest of a dissolve pass, 1022 steps, then [AClear], the main loop
    and the dispatch), with [mode_changed] cleared, the rest of the
    shared state unchanged, and every call on the way executing. *)

From Stdlib Require Import ZArith List Lia Bool SpecFloat.
From S2P Require Import Prelude CFloat Globals Color Pwm Rainbow Breathing Dissolve Buttons Dispatcher System Compose PowerOff.
Import ListNotations.
Open Scope Z_scope.

Module ModeChange.
Import Globals Color Dispatcher.

(** The running effect has been told of a mode change: its mode is no
    longer [transition_mode], or (breathing) [mode_changed] is set. *)
Definition mode_left (c : ctrl) (p : apc) : Prop :=
  match p with
  | ADissolve _ => transition_mode c <> 0
  | ARainbow _ => transition_mode c <> 1
  | ABreathing _ _ => transition_mode c <> 2 \/ mode_changed c = true
  | _ => False
  end.

(** ** Helper lemmas *)

(** With the LEDs on, [AClear] is followed by the main loop's test and
    the dispatch on the current mode, with no call made. *)
Lemma clear_then_dispatch {L : Libm} rnd k h i c :
  led_on c = true ->
  run (anim_task_step rnd) k 3 (mk_astate AClear h i, c) =
    Some ((mk_astate (apply_transition_by_mode (transition_mode c)) h i, set_mode_changed c false), []).
Proof. intros Hon; destruct c as [bl on md mc]; cbn in Hon; subst on; reflexivity. Qed.

(** With the LEDs on, an effect told of a mode change reaches [AClear]
    within 1022 steps. *)
Lemma effect_to_clear_on {L : Libm} rnd c k a :
  libm_frames_ok -> anim_inv a -> led_on c = true -> mode_left c (a_pc a) ->
  exists n h' i' o, (n <= 1022)%nat /\
    run (anim_task_step rnd) k n (a, c) = Some ((mk_astate AClear h' i', c), o).
Proof.
  intros Hl Ha Hon Hm; destruct a as [pc h idx]; destruct pc as [| | |d|p|p col|]; cbn in Hm; try contradiction.
  - destruct (Compose.dissolve_mode_to_clear rnd c k d h idx Hon Hm Ha) as (n & o & Hn & E).
    exists n, h, idx, o; split; [exact Hn|exact E].
  - destruct (Compose.rainbow_to_clear rnd c k p h idx) as (n & h' & o & Hn & E);
      [rewrite Hon; apply Z.eqb_neq, Hm|exact (proj1 (proj2 Ha))|exact (proj2 (proj2 Ha))|].
    exists n, h', idx, o; split; [lia|exact E].
  - destruct (Compose.breathing_to_clear rnd c k p col h idx Hl) as (n & i' & o & Hn & E); [|exact Ha|].
    + unfold Breathing.breathing_runs; rewrite Hon; cbn.
      destruct Hm as [Hm| ->]; [apply Z.eqb_neq in Hm; rewrite Hm|rewrite andb_false_r]; reflexivity.
    + exists n, h, i', o; split; [change (Z.to_nat FADE_STEPS) with 100%nat in Hn; lia|exact E].
Qed.

(** ** A mode change reaches the new effect *)

(** C13: a mode change is eventually honoured: from every reachable
    state in which the LEDs are on and the running effect has been told
    of a mode change (its mode is no longer [transition_mode], or
    breathing sees [mode_changed]), the animation task alone enters the
    effect of the current mode within 1025 steps, with [mode_changed]
    cleared and brightness, power and mode unchanged, and every call it
    makes on the way executes on the controller.  The bound is reached
    only by the dissolve, which tests the mode once per pass. *)
Theorem mode_change_reaches_new_effect {L : Libm} rnd s :
  libm_frames_ok -> System.reachable s -> led_on (System.sctrl s) = true ->
  mode_left (System.sctrl s) (a_pc (System.sanim s)) ->
  exists n x out ios, (n <= 1025)%nat /\
    run (anim_task_step rnd) 0 n (System.sanim s, System.sctrl s) = Some (x, out) /\
    a_pc (fst x) = apply_transition_by_mode (transition_mode (System.sctrl s)) /\
    snd x = set_mode_changed (System.sctrl s) false /\
    Pwm.exec_cmds (brightness_level (System.sctrl s)) out = Some ios.
Proof.
  intros Hl Hr Hon Hm; destruct (System.reachable_sys_inv s Hr) as ([_ Hb] & _ & Ha).
  destruct (effect_to_clear_on rnd _ 0 _ Hl Ha Hon Hm) as (n & h' & i' & o & Hn & E).
  pose proof (run_app _ 0 n 3 _ _ _ _ _ E (clear_then_dispatch rnd (0 + n) h' i' _ Hon)) as E2.
  destruct (Pwm.exec_cmds_ok _ (o ++ []) Hb) as [ios Ei].
  exists (n + 3)%nat, (mk_astate (apply_transition_by_mode (transition_mode (System.sctrl s))) h' i',
                       set_mode_changed (System.sctrl s) false), (o ++ []), ios.
  split; [lia|split; [exact E2|split; [reflexivity|split; [reflexivity|exact Ei]]]].
Qed.

(** The dissolve's opening fade ([PowerOff.sys_fade]), 0.5 s, a press
    of the mode button handled by the button task: mode 1 is selected
    while the dissolve runs. *)
Definition sys_mode_pressed : System.sys :=
  Eval vm_compute in
  match System.button_next
          (System.mk_sys (System.sctrl PowerOff.sys_fade)
             (Buttons.button_isr_handler 0 (System.now_us PowerOff.sys_fade + 500000)
                (System.sinput PowerOff.sys_fade))
             (System.sanim PowerOff.sys_fade) (System.sbus PowerOff.sys_fade)
             (System.now_us PowerOff.sys_fade + 500000)) with
  | Some s => s
  | None => PowerOff.sys_fade
  end.

Lemma sys_mode_pressed_reachable : @System.reachable libm_ref sys_mode_pressed.
Proof.
  eapply star_trans; [apply (System.anim_iter_star 4); vm_compute; reflexivity|].
  eapply star_step; [apply (System.step_tick _ 500000); lia|].
  eapply star_step; [apply (System.step_isr _ 0); lia|].
  apply star_one, (@System.button_next_step libm_ref); vm_compute; reflexivity.
Qed.

Lemma mode_change_reaches_new_effect_witness :
  @libm_frames_ok libm_ref /\ @System.reachable libm_ref sys_mode_pressed /\
  led_on (System.sctrl sys_mode_pressed) = true /\
  mode_left (System.sctrl sys_mode_pressed) (a_pc (System.sanim sys_mode_pressed)) /\
  exists n x out ios, (n <= 1025)%nat /\
    run (anim_task_step (L := libm_ref) (fun _ => 0)) 0 n
      (System.sanim sys_mode_pressed, System.sctrl sys_mode_pressed) = Some (x, out) /\
    a_pc (fst x) = apply_transition_by_mode (transition_mode (System.sctrl sys_mode_pressed)) /\
    snd x = set_mode_changed (System.sctrl sys_mode_pressed) false /\
    Pwm.exec_cmds (brightness_level (System.sctrl sys_mode_pressed)) out = Some ios.
Proof.
  assert (Hm : mode_left (System.sctrl sys_mode_pressed) (a_pc (System.sanim sys_mode_pressed)))
    by (vm_compute; discriminate).
  split; [exact Breathing.libm_ref_frames_ok|split; [exact sys_mode_pressed_reachable|split; [reflexivity|]]].
  split; [exact Hm|].
  exact (mode_change_reaches_new_effect (L := libm_ref) (fun _ => 0) sys_mode_pressed
           Breathing.libm_ref_frames_ok sys_mode_pressed_reachable eq_refl Hm).
Defined.

End ModeChange.
